(** * flightAppBE: the live position store and its streaming filter

  A shallow embedding of the fleet application's movement code:

  - [movement_utils.py]: the spherical geometry (module [GeoMath]);
  - [movement_manager.py]: the in-memory position table, its simulation
    step, its write-back and the retarget entry point (module [Store]);
  - [consumers.py]: the per-connection filter state of
    [PlanePositionsConsumer] and the filtered snapshot it streams
    (module [Session]);
  - [views.py]: the REST listing of the positions and the views that decide
    a command (module [Rest]);
  - [management/commands/create_planes.py]: the geometry of the seeded
    routes (module [Seed]).

  Python floats are idealised as real numbers: [math.sin], [math.cos],
  [math.asin] and [math.sqrt] are the functions of the Standard Library's
  [Reals], and [math.atan2], [math.radians], [math.degrees], [%] and
  [round] are defined from them below. Rounding error, infinities and the
  sign of zero are outside the model. The positions of the planes are
  numbers; a filter parameter, which comes from a client through [float],
  is a number or NaN (module [PyFloat]). Where the source catches the
  [ValueError] that [math.sqrt] and [math.asin] raise outside their
  domains, the model has the handler and the condition under which the
  call raises.

  Python objects that are mutated in place and shared (the per-plane
  position dictionaries) live in an explicit heap and are named by
  references, so that sharing is visible. *)

From Stdlib Require Import Reals Lra ZArith Ascii String.
From stdpp Require Import base option list gmap strings pretty.

Open Scope R_scope.

(** ** movement_utils.py *)

Module GeoMath.

(** [math.radians] and [math.degrees]. *)
Definition radians (x : R) : R := x * PI / 180.
Definition degrees (x : R) : R := x * 180 / PI.

(** [math.atan2 y x]: the angle of the point [(x, y)], in [[-PI, PI]]. *)
Definition atan2 (y x : R) : R :=
  if Rlt_dec 0 x then atan (y / x)
  else if Rlt_dec x 0 then
    if Rle_dec 0 y then atan (y / x) + PI else atan (y / x) - PI
  else if Rlt_dec 0 y then PI / 2
  else if Rlt_dec y 0 then - (PI / 2)
  else 0.

(** Python's [a % b] on floats: the remainder has the sign of [b]. *)
Definition pymod (a b : R) : R := a - b * IZR (Int_part (a / b)).

(** The local constant [R] of the source: Earth radius in meters. *)
Definition EARTH_RADIUS : R := 6371000.

Definition calculate_distance (lat1 lng1 lat2 lng2 : R) : R :=
  let lat1_rad := radians lat1 in
  let lat2_rad := radians lat2 in
  let dlat_rad := radians (lat2 - lat1) in
  let dlng_rad := radians (lng2 - lng1) in
  let a := sin (dlat_rad / 2) ^ 2 +
           cos lat1_rad * cos lat2_rad * sin (dlng_rad / 2) ^ 2 in
  let c := 2 * atan2 (sqrt a) (sqrt (1 - a)) in
  EARTH_RADIUS * c.

Definition calculate_bearing (lat1 lng1 lat2 lng2 : R) : R :=
  let lat1_rad := radians lat1 in
  let lat2_rad := radians lat2 in
  let dlng_rad := radians (lng2 - lng1) in
  let y := sin dlng_rad * cos lat2_rad in
  let x := cos lat1_rad * sin lat2_rad -
           sin lat1_rad * cos lat2_rad * cos dlng_rad in
  let bearing_rad := atan2 y x in
  let bearing_deg := degrees bearing_rad in
  pymod (bearing_deg + 360) 360.

Definition move_distance_with_bearing
    (lat lng distance_meters bearing_degrees : R) : R * R :=
  let lat_rad := radians lat in
  let lng_rad := radians lng in
  let bearing_rad := radians bearing_degrees in
  let new_lat_rad :=
    asin (sin lat_rad * cos (distance_meters / EARTH_RADIUS) +
          cos lat_rad * sin (distance_meters / EARTH_RADIUS) * cos bearing_rad) in
  let new_lng_rad :=
    lng_rad + atan2
      (sin bearing_rad * sin (distance_meters / EARTH_RADIUS) * cos lat_rad)
      (cos (distance_meters / EARTH_RADIUS) - sin lat_rad * sin new_lat_rad) in
  (degrees new_lat_rad, degrees new_lng_rad).

(** Returns [(new_lat, new_lng, reached_target)]. *)
Definition move_towards_target
    (current_lat current_lng target_lat target_lng distance_meters : R)
    : R * R * bool :=
  let remaining_distance :=
    calculate_distance current_lat current_lng target_lat target_lng in
  if Rle_dec remaining_distance distance_meters then
    (target_lat, target_lng, true)
  else
    let bearing :=
      calculate_bearing current_lat current_lng target_lat target_lng in
    let '(new_lat, new_lng) :=
      move_distance_with_bearing current_lat current_lng distance_meters bearing in
    (new_lat, new_lng, false).

(** [math.sqrt] and [math.asin] raise [ValueError] (math domain error)
    outside their domains. *)
Definition sqrt_raises (x : R) : bool := if Rlt_dec x 0 then true else false.
Definition asin_raises (x : R) : bool :=
  if Rlt_dec x (-1) then true else if Rlt_dec 1 x then true else false.

(** Whether [calculate_distance] raises: its two calls of [math.sqrt]. *)
Definition calculate_distance_raises (lat1 lng1 lat2 lng2 : R) : bool :=
  let lat1_rad := radians lat1 in
  let lat2_rad := radians lat2 in
  let dlat_rad := radians (lat2 - lat1) in
  let dlng_rad := radians (lng2 - lng1) in
  let a := sin (dlat_rad / 2) ^ 2 +
           cos lat1_rad * cos lat2_rad * sin (dlng_rad / 2) ^ 2 in
  sqrt_raises a || sqrt_raises (1 - a).

(** Whether [move_distance_with_bearing] raises: its call of [math.asin]. *)
Definition move_distance_with_bearing_raises
    (lat lng distance_meters bearing_degrees : R) : bool :=
  let lat_rad := radians lat in
  let bearing_rad := radians bearing_degrees in
  asin_raises (sin lat_rad * cos (distance_meters / EARTH_RADIUS) +
               cos lat_rad * sin (distance_meters / EARTH_RADIUS) * cos bearing_rad).

(** Whether [move_towards_target] raises. *)
Definition move_towards_target_raises
    (current_lat current_lng target_lat target_lng distance_meters : R) : bool :=
  calculate_distance_raises current_lat current_lng target_lat target_lng ||
  (if Rle_dec (calculate_distance current_lat current_lng target_lat target_lng)
              distance_meters
   then false
   else move_distance_with_bearing_raises
          current_lat current_lng distance_meters
          (calculate_bearing current_lat current_lng target_lat target_lng)).

End GeoMath.

(** ** Floats that come from a client

    [float] accepts the strings [nan] and [NaN], and [json.loads] the token
    [NaN]: a filter parameter is a number or NaN. A comparison with NaN is
    false, NaN is true in a condition, and arithmetic on NaN gives NaN. *)

Module PyFloat.

Inductive pyfloat : Type :=
| Num (x : R)
| NaN.

Coercion Num : R >-> pyfloat.

(** [a > b] and [a <= b] *)
Definition gt (a b : pyfloat) : bool :=
  match a, b with
  | Num x, Num y => if Rlt_dec y x then true else false
  | _, _ => false
  end.
Definition le (a b : pyfloat) : bool :=
  match a, b with
  | Num x, Num y => if Rle_dec x y then true else false
  | _, _ => false
  end.

(** [a * b] *)
Definition times (a b : pyfloat) : pyfloat :=
  match a, b with
  | Num x, Num y => Num (x * y)
  | _, _ => NaN
  end.

(** [calculate_distance plane_lat plane_lng lat lng] for the position of a
    plane and a centre given by a client. No call of [math] raises on NaN:
    the result is then NaN. *)
Definition distance_from (plane_lat plane_lng : R) (lat lng : pyfloat) : pyfloat :=
  match lat, lng with
  | Num a, Num b => Num (GeoMath.calculate_distance plane_lat plane_lng a b)
  | _, _ => NaN
  end.

End PyFloat.

Arguments Some {A} & a.

(** ** Python dictionaries with integer keys

    A [dict] keeps its items in insertion order; [d[k] = v] replaces the
    value of an existing key in place and appends a new key at the end. *)

Module Dict.

Definition t (V : Type) : Type := list (Z * V).

Fixpoint get {V} (k : Z) (d : t V) : option V :=
  match d with
  | [] => None
  | (k', v) :: rest => if Z.eqb k k' then Some v else get k rest
  end.

Fixpoint set {V} (k : Z) (v : V) (d : t V) : t V :=
  match d with
  | [] => [(k, v)]
  | (k', v') :: rest =>
      if Z.eqb k k' then (k', v) :: rest else (k', v') :: set k v rest
  end.

Fixpoint del {V} (k : Z) (d : t V) : t V :=
  match d with
  | [] => []
  | (k', v') :: rest => if Z.eqb k k' then rest else (k', v') :: del k rest
  end.

Definition keys {V} (d : t V) : list Z := map fst d.
Definition values {V} (d : t V) : list V := map snd d.

End Dict.

(** ** models.py *)

(** [django.contrib.gis.geos.Point]: [x] is the longitude, [y] the latitude. *)
Module Point.
Record t : Type := mk { x : R; y : R }.
End Point.

(** A row of the [Plane] table; [pilot] holds the pilot's name when the
    plane has one. *)
Module Plane.
Record t : Type := mk {
  name : string;
  pilot : option string;
  start_point : Point.t;
  end_point : Point.t;
  current_position : Point.t;
  is_going_to_end : bool
}.
End Plane.

(** ** movement_manager.py *)

Module Store.
Import GeoMath.

(** The dictionary kept per plane in [plane_positions]. *)
Record Position : Type := mkPosition {
  current_lat : R;
  current_lng : R;
  target_lat : R;
  target_lng : R;
  is_going_to_end : bool;
  last_updated : R
}.

(** A reference to a position dictionary in the heap. *)
Abbreviation ref := nat (only parsing).

(** What an operation does to the lock, the transaction and the database,
    in program order. *)
Inductive event : Type :=
| LockAcquire
| LockRelease
| AtomicEnter
| AtomicCommit
| AtomicRollback
| DbAll
| DbGet (plane_id : Z)
| DbSave (plane_id : Z).

(** The manager, the objects it refers to, and the [Plane] table. The rows
    of [db] are listed in the order in which [Plane.objects.all()] yields
    them. *)
Record world : Type := mkWorld {
  heap : list Position;
  plane_positions : Dict.t ref;
  MOVEMENT_DISTANCE : R;
  db : Dict.t Plane.t;
  trace : list event
}.

Definition set_heap (h : list Position) (w : world) : world :=
  mkWorld h (plane_positions w) (MOVEMENT_DISTANCE w) (db w) (trace w).
Definition set_plane_positions (d : Dict.t ref) (w : world) : world :=
  mkWorld (heap w) d (MOVEMENT_DISTANCE w) (db w) (trace w).
Definition set_db (d : Dict.t Plane.t) (w : world) : world :=
  mkWorld (heap w) (plane_positions w) (MOVEMENT_DISTANCE w) d (trace w).
Definition emit (e : event) (w : world) : world :=
  mkWorld (heap w) (plane_positions w) (MOVEMENT_DISTANCE w) (db w) (trace w ++ [e]).

(** In-place update of the dictionary behind a reference. *)
Definition modify (r : ref) (f : Position -> Position) (w : world) : world :=
  set_heap (alter f r (heap w)) w.

Definition set_current (lat lng t : R) (pos : Position) : Position :=
  mkPosition lat lng (target_lat pos) (target_lng pos) (is_going_to_end pos) t.
Definition set_target (lat lng : R) (pos : Position) : Position :=
  mkPosition (current_lat pos) (current_lng pos) lat lng
             (is_going_to_end pos) (last_updated pos).
Definition flip_direction (pos : Position) : Position :=
  mkPosition (current_lat pos) (current_lng pos) (target_lat pos) (target_lng pos)
             (negb (is_going_to_end pos)) (last_updated pos).

(** The state of plane [plane_id] as the manager sees it. *)
Definition view (w : world) (plane_id : Z) : option Position :=
  match Dict.get plane_id (plane_positions w) with
  | Some r => heap w !! r
  | None => None
  end.

(** What a holder of the mapping [d] sees for [plane_id]. *)
Definition deref (w : world) (d : Dict.t ref) (plane_id : Z) : option Position :=
  match Dict.get plane_id d with
  | Some r => heap w !! r
  | None => None
  end.

(** [__init__]: an empty table and a step of 600 meters. *)
Definition init (rows : Dict.t Plane.t) : world :=
  mkWorld [] [] 600 rows [].

(** One iteration of the loop of [load_planes_from_db]; [now] is the clock
    read for this plane. *)
Definition load_plane (now : Z -> R) (w : world) (row : Z * Plane.t) : world :=
  let '(plane_id, plane) := row in
  let target :=
    if Plane.is_going_to_end plane then Plane.end_point plane
    else Plane.start_point plane in
  let pos :=
    mkPosition (Point.y (Plane.current_position plane))
               (Point.x (Plane.current_position plane))
               (Point.y target) (Point.x target)
               (Plane.is_going_to_end plane) (now plane_id) in
  let r := length (heap w) in
  set_plane_positions (Dict.set plane_id r (plane_positions w))
                      (set_heap (heap w ++ [pos]) w).

(** The query set is lazy: the table is read by the [for] loop, inside the
    locked section. *)
Definition load_planes_from_db (now : Z -> R) (w : world) : world :=
  let w1 := emit LockAcquire w in
  let w2 := set_plane_positions [] w1 in
  let w3 := emit DbAll w2 in
  emit LockRelease (fold_left (load_plane now) (db w3) w3).

(** Returns the live dictionary of the plane, not a copy. *)
Definition get_plane_position (plane_id : Z) (w : world) : option ref * world :=
  let w1 := emit LockAcquire w in
  (Dict.get plane_id (plane_positions w1), emit LockRelease w1).

(** [dict(self.plane_positions)]: a new mapping with the same values, that
    is, the same references. *)
Definition get_all_positions (w : world) : Dict.t ref * world :=
  let w1 := emit LockAcquire w in
  (plane_positions w1, emit LockRelease w1).

(** [round(x, 1)]: to the nearest tenth, ties to the even neighbour. *)
Definition round_half_even (x : R) : Z :=
  let f := Int_part x in
  let d := x - IZR f in
  if Rlt_dec d (1 / 2) then f
  else if Rlt_dec (1 / 2) d then (f + 1)%Z
  else if Z.even f then f else (f + 1)%Z.
Definition round1 (x : R) : R := IZR (round_half_even (x * 10)) / 10.

(** The dictionary built per plane by [get_positions_with_heading]. *)
Record Heading : Type := mkHeading {
  h_current_lat : R;
  h_current_lng : R;
  h_is_going_to_end : bool;
  h_heading : R;
  h_last_updated : R
}.

Definition with_heading (pos : Position) : Heading :=
  let heading :=
    calculate_bearing (current_lat pos) (current_lng pos)
                      (target_lat pos) (target_lng pos) in
  mkHeading (current_lat pos) (current_lng pos) (is_going_to_end pos)
            (round1 heading) (last_updated pos).

(** One iteration of the loop of [get_positions_with_heading]:
    [result[plane_id] = {...}]. *)
Definition heading_item (h : list Position) (result : Dict.t Heading)
    (item : Z * ref) : Dict.t Heading :=
  let '(plane_id, r) := item in
  match h !! r with
  | Some pos => Dict.set plane_id (with_heading pos) result
  | None => result
  end.

Definition get_positions_with_heading (w : world) : Dict.t Heading * world :=
  let w1 := emit LockAcquire w in
  (fold_left (heading_item (heap w1)) (plane_positions w1) [],
   emit LockRelease w1).

(** The body of the loop of [update_positions] for one item of
    [list(self.plane_positions.items())]. *)
Definition update_plane (current_time : R) (w : world) (item : Z * ref) : world :=
  let '(plane_id, r) := item in
  match heap w !! r with
  | None => w
  | Some pos =>
    if move_towards_target_raises (current_lat pos) (current_lng pos)
                                  (target_lat pos) (target_lng pos)
                                  (MOVEMENT_DISTANCE w)
    then
      (* except Exception: the error is logged, the plane is left as it is *)
      w
    else
      let '(new_lat, new_lng, reached_target) :=
        move_towards_target (current_lat pos) (current_lng pos)
                            (target_lat pos) (target_lng pos)
                            (MOVEMENT_DISTANCE w) in
      let w1 := modify r (set_current new_lat new_lng current_time) w in
      if reached_target then
        let w2 := modify r flip_direction w1 in
        if negb (is_going_to_end pos) then
          (* now going to end *)
          match Dict.get plane_id (db w2) with
          | Some plane =>
              modify r (set_target (Point.y (Plane.end_point plane))
                                   (Point.x (Plane.end_point plane)))
                     (emit (DbGet plane_id) w2)
          | None =>
              set_plane_positions (Dict.del plane_id (plane_positions w2))
                                  (emit (DbGet plane_id) w2)
          end
        else
          (* now going to start *)
          match Dict.get plane_id (db w2) with
          | Some plane =>
              modify r (set_target (Point.y (Plane.start_point plane))
                                   (Point.x (Plane.start_point plane)))
                     (emit (DbGet plane_id) w2)
          | None =>
              set_plane_positions (Dict.del plane_id (plane_positions w2))
                                  (emit (DbGet plane_id) w2)
          end
      else w1
  end.

(** [current_time] is the clock read once at the start of the locked
    section. *)
Definition update_positions (current_time : R) (w : world) : world :=
  match plane_positions w with
  | [] => w
  | _ :: _ =>
      let w1 := emit LockAcquire w in
      emit LockRelease
        (fold_left (update_plane current_time) (plane_positions w1) w1)
  end.

(** The exception that ends a [for] loop over a dictionary whose size
    changed since the loop started. *)
Inductive exn : Type :=
| RuntimeError.

(** The loop of [save_to_database]. The dictionary iterator compares the
    size of the dictionary with the size it had when the loop started
    ([used]) before it yields an item or stops, and raises [RuntimeError]
    when they differ. Until then the items it yields are those the
    dictionary had at the start, in order. *)
Fixpoint save_loop (used : nat) (items : Dict.t ref) (w : world)
    : world * option exn :=
  if negb (Nat.eqb (length (plane_positions w)) used) then
    (w, Some RuntimeError)
  else
    match items with
    | [] => (w, None)
    | (plane_id, r) :: rest =>
        match Dict.get plane_id (db w), heap w !! r with
        | Some plane, Some pos =>
            let plane' :=
              Plane.mk (Plane.name plane) (Plane.pilot plane)
                       (Plane.start_point plane) (Plane.end_point plane)
                       (Point.mk (current_lng pos) (current_lat pos))
                       (is_going_to_end pos) in
            save_loop used rest
              (emit (DbSave plane_id)
                 (set_db (Dict.set plane_id plane' (db w))
                    (emit (DbGet plane_id) w)))
        | None, _ =>
            save_loop used rest
              (set_plane_positions (Dict.del plane_id (plane_positions w))
                 (emit (DbGet plane_id) w))
        | Some _, None => save_loop used rest (emit (DbGet plane_id) w)
        end
    end.

(** The [try] block of [save_to_database]: the loop runs under the lock
    inside [transaction.atomic()]; an exception leaving the block rolls the
    transaction back. *)
Definition save_to_database_try (w : world) : world * option exn :=
  let w1 := emit LockAcquire (emit AtomicEnter w) in
  let '(w2, raised) :=
    save_loop (length (plane_positions w1)) (plane_positions w1) w1 in
  let w3 := emit LockRelease w2 in
  match raised with
  | None => (emit AtomicCommit w3, None)
  | Some e => (emit AtomicRollback (set_db (db w) w3), Some e)
  end.

(** [except Exception] logs the error, so the call itself returns
    normally. *)
Definition save_to_database (w : world) : world :=
  match plane_positions w with
  | [] => w
  | _ :: _ => fst (save_to_database_try w)
  end.

Definition update_plane_target (plane_id : Z) (new_target_lat new_target_lng : R)
    (w : world) : bool * world :=
  let w1 := emit LockAcquire w in
  match Dict.get plane_id (plane_positions w1) with
  | Some r =>
      (true,
       emit LockRelease (modify r (set_target new_target_lat new_target_lng) w1))
  | None => (false, emit LockRelease w1)
  end.

(** ** Notions used to state properties of the store *)

(** A caller's [d[plane_id][field] = value] on a mapping [d] it holds. *)
Definition mutate_entry (d : Dict.t ref) (plane_id : Z)
    (f : Position -> Position) (w : world) : world :=
  match Dict.get plane_id d with
  | Some r => modify r f w
  | None => w
  end.

(** Every key of the table has its own dictionary, as after
    [load_planes_from_db]. *)
Definition well_formed (w : world) : Prop :=
  NoDup (Dict.keys (plane_positions w)) /\
  NoDup (Dict.values (plane_positions w)) /\
  Forall (fun r => (r < length (heap w))%nat) (Dict.values (plane_positions w)).

(** The events of one call of [op], started with an empty trace. *)
Definition events (op : world -> world) (w : world) : list event :=
  trace (op (mkWorld (heap w) (plane_positions w) (MOVEMENT_DISTANCE w) (db w) [])).

Definition is_io (e : event) : bool :=
  match e with
  | DbAll | DbGet _ | DbSave _ => true
  | _ => false
  end.

Definition no_io (tr : list event) : bool := forallb (fun e => negb (is_io e)) tr.

(** A read or a write of one row. *)
Definition is_row_access (e : event) : bool :=
  match e with
  | DbGet _ | DbSave _ => true
  | _ => false
  end.

(** No database access happens while the lock is held ([held] tells whether
    it is held at the start of [tr]). *)
Fixpoint io_outside_lock (held : bool) (tr : list event) : bool :=
  match tr with
  | [] => true
  | LockAcquire :: rest => io_outside_lock true rest
  | LockRelease :: rest => io_outside_lock false rest
  | e :: rest => (negb (is_io e) || negb held) && io_outside_lock held rest
  end.

(** Every database access happens while the lock is held. *)
Fixpoint io_inside_lock (held : bool) (tr : list event) : bool :=
  match tr with
  | [] => true
  | LockAcquire :: rest => io_inside_lock true rest
  | LockRelease :: rest => io_inside_lock false rest
  | e :: rest => (negb (is_io e) || held) && io_inside_lock held rest
  end.

(** The postcondition of one tick for one plane in the words of the
    specification: the plane is still in the table and either it arrived
    (exactly when the remaining distance was at most the step) or it moved
    exactly the step along the initial bearing toward its target, direction
    and target unchanged. *)
Definition tick_postcondition_as_specified (current_time : R) (w : world)
    (plane_id : Z) (pos : Position) : Prop :=
  let w' := update_positions current_time w in
  let remaining :=
    calculate_distance (current_lat pos) (current_lng pos)
                       (target_lat pos) (target_lng pos) in
  exists pos', view w' plane_id = Some pos' /\
    ((remaining <= MOVEMENT_DISTANCE w /\
      current_lat pos' = target_lat pos /\ current_lng pos' = target_lng pos /\
      is_going_to_end pos' = negb (is_going_to_end pos))
     \/
     (~ remaining <= MOVEMENT_DISTANCE w /\
      calculate_distance (current_lat pos) (current_lng pos)
                         (current_lat pos') (current_lng pos')
        = MOVEMENT_DISTANCE w /\
      calculate_bearing (current_lat pos) (current_lng pos)
                        (current_lat pos') (current_lng pos')
        = calculate_bearing (current_lat pos) (current_lng pos)
                            (target_lat pos) (target_lng pos) /\
      is_going_to_end pos' = is_going_to_end pos /\
      target_lat pos' = target_lat pos /\ target_lng pos' = target_lng pos)).

End Store.

(** ** consumers.py: [PlanePositionsConsumer] *)

Module Session.
Import GeoMath PyFloat Store.

(** A decoded JSON document, as [json.loads] returns it. [JNum] is a number
    that [float] converts; [JHuge] is an integer outside the range of a
    float, on which [float] raises [OverflowError]. *)
#[warnings="-register-all"]
Inductive json : Type :=
| JNull
| JBool (b : bool)
| JNum (x : pyfloat)
| JHuge
| JStr (s : string)
| JList (items : list json)
| JDict (items : list (string * json)).

Fixpoint lookup_key {V} (k : string) (d : list (string * V)) : option V :=
  match d with
  | [] => None
  | (k', v) :: rest => if String.eqb k k' then Some v else lookup_key k rest
  end.

Definition has_key {V} (k : string) (d : list (string * V)) : bool :=
  match lookup_key k d with Some _ => true | None => false end.

(** [str.split(sep)] for a one-character separator. *)
Fixpoint split (sep : ascii) (s : string) : list string :=
  match s with
  | EmptyString => [EmptyString]
  | String c rest =>
      if Ascii.eqb c sep then EmptyString :: split sep rest
      else match split sep rest with
           | [] => [String c EmptyString]
           | first :: others => String c first :: others
           end
  end.

(** [sep in s]. *)
Fixpoint contains (sep : ascii) (s : string) : bool :=
  match s with
  | EmptyString => false
  | String c rest => Ascii.eqb c sep || contains sep rest
  end.

(** [dict(pairs)]: a later pair overrides an earlier one with the same key;
    an element that is not a pair raises [ValueError] (here [None]). *)
Fixpoint dict_of_pairs (pairs : list (list string)) : option (list (string * string)) :=
  match pairs with
  | [] => Some []
  | [k; v] :: rest =>
      match dict_of_pairs rest with
      | Some d => Some (if has_key k d then d else (k, v) :: d)
      | None => None
      end
  | _ :: _ => None
  end.

(** The query parameters of [connect]. *)
Definition parse_query (query_string : string) : option (list (string * string)) :=
  dict_of_pairs
    (map (split "="%char)
         (filter (fun param => contains "="%char param = true)
                 (split "&"%char query_string))).

(** The filter state of one connection. *)
Record Consumer : Type := mkConsumer {
  lat : option pyfloat;
  lng : option pyfloat;
  radius : option pyfloat;
  min_lat : option pyfloat;
  max_lat : option pyfloat;
  min_lng : option pyfloat;
  max_lng : option pyfloat;
  is_sending : bool
}.

(** [__init__] *)
Definition new : Consumer :=
  mkConsumer None None None None None None None false.

Definition set_lat (v : option pyfloat) (s : Consumer) : Consumer :=
  mkConsumer v (lng s) (radius s) (min_lat s) (max_lat s) (min_lng s) (max_lng s)
             (is_sending s).
Definition set_lng (v : option pyfloat) (s : Consumer) : Consumer :=
  mkConsumer (lat s) v (radius s) (min_lat s) (max_lat s) (min_lng s) (max_lng s)
             (is_sending s).
Definition set_radius (v : option pyfloat) (s : Consumer) : Consumer :=
  mkConsumer (lat s) (lng s) v (min_lat s) (max_lat s) (min_lng s) (max_lng s)
             (is_sending s).
Definition set_min_lat (v : option pyfloat) (s : Consumer) : Consumer :=
  mkConsumer (lat s) (lng s) (radius s) v (max_lat s) (min_lng s) (max_lng s)
             (is_sending s).
Definition set_max_lat (v : option pyfloat) (s : Consumer) : Consumer :=
  mkConsumer (lat s) (lng s) (radius s) (min_lat s) v (min_lng s) (max_lng s)
             (is_sending s).
Definition set_min_lng (v : option pyfloat) (s : Consumer) : Consumer :=
  mkConsumer (lat s) (lng s) (radius s) (min_lat s) (max_lat s) v (max_lng s)
             (is_sending s).
Definition set_max_lng (v : option pyfloat) (s : Consumer) : Consumer :=
  mkConsumer (lat s) (lng s) (radius s) (min_lat s) (max_lat s) (min_lng s) v
             (is_sending s).
Definition set_is_sending (b : bool) (s : Consumer) : Consumer :=
  mkConsumer (lat s) (lng s) (radius s) (min_lat s) (max_lat s) (min_lng s)
             (max_lng s) b.

(** [self.lat = self.lng = self.radius = None] *)
Definition clear_radius (s : Consumer) : Consumer :=
  set_radius None (set_lng None (set_lat None s)).
(** [self.min_lat = self.max_lat = self.min_lng = self.max_lng = None] *)
Definition clear_bounding_box (s : Consumer) : Consumer :=
  set_max_lng None (set_min_lng None (set_max_lat None (set_min_lat None s))).

(** The truth value of [None] or a float in a condition. *)
Definition truthy (v : option pyfloat) : bool :=
  match v with
  | Some (Num x) => if Req_dec_T x 0 then false else true
  | Some NaN => true
  | None => false
  end.

(** [self.lat and self.lng and self.radius] *)
Definition radius_test (s : Consumer) : bool :=
  truthy (lat s) && truthy (lng s) && truthy (radius s).
(** [self.min_lat and self.max_lat and self.min_lng and self.max_lng] *)
Definition bounding_box_test (s : Consumer) : bool :=
  truthy (min_lat s) && truthy (max_lat s) && truthy (min_lng s) && truthy (max_lng s).

(** The [filters] entry of an outgoing message. *)
Inductive filter_info : Type :=
| RadiusInfo (lat lng radius : option pyfloat)
| BoundingBoxInfo (min_lat max_lat min_lng max_lng : option pyfloat).

(** One entry of [planes]: [[id, name, pilot, lng, lat, heading]]. *)
Record Row : Type := mkRow {
  row_id : Z;
  row_name : string;
  row_pilot : string;
  row_lng : R;
  row_lat : R;
  row_heading : R
}.

(** The value returned by [get_filtered_positions]. *)
Record Positions : Type := mkPositions {
  planes : list Row;
  count : nat;
  filters : option filter_info
}.

(** What the consumer sends to its client. *)
Inductive message : Type :=
| ConnectionEstablished (filters : option filter_info)
| FiltersUpdated (text : string) (filters : filter_info)
| FiltersCleared
| Error (text : string)
| PositionsUpdate (data : Positions).

Inductive exn : Type :=
| ValueError
| AttributeError
| OverflowError.

(** The outcome of [float(v)]: a float, [ValueError] or [TypeError], or
    [OverflowError]. *)
Inductive conversion : Type :=
| Float (x : pyfloat)
| Refused
| TooLarge.

Definition of_option (v : option pyfloat) : conversion :=
  match v with
  | Some x => Float x
  | None => Refused
  end.

(** How a [try] block of assignments is left: at its end, through its
    clause [except (ValueError, TypeError)], or by an exception that the
    clause does not catch. *)
Inductive ending : Type :=
| Completed
| Caught
| Escaped (e : exn).

(** The outcome of a handler: the session, what was sent, and the exception
    that left the handler, if any. *)
Record outcome : Type := mkOutcome {
  session : Consumer;
  sent : list message;
  raised : option exn
}.

(** [self.f = float(...)] followed by the rest of a [try] block: when the
    conversion raises, the block is left with the session as it is then. *)
Definition assign (set : option pyfloat -> Consumer -> Consumer) (v : conversion)
    (rest : Consumer -> Consumer * ending) (s : Consumer) : Consumer * ending :=
  match v with
  | Float x => rest (set (Some x) s)
  | Refused => (s, Caught)
  | TooLarge => (s, Escaped OverflowError)
  end.

Definition finish (s : Consumer) : Consumer * ending := (s, Completed).

(** The three assignments of a radius filter, in source order, and how the
    block was left. *)
Definition assign_radius (a b c : conversion) : Consumer -> Consumer * ending :=
  assign set_lat a (assign set_lng b (assign set_radius c finish)).

(** The four assignments of a bounding box, in source order. *)
Definition assign_bounding_box (a b c d : conversion)
    : Consumer -> Consumer * ending :=
  assign set_min_lat a
    (assign set_max_lat b (assign set_min_lng c (assign set_max_lng d finish))).

Section WithFloat.

(** [float(s)] on a string: [None] stands for [ValueError]. *)
Variable float_of_str : string -> option pyfloat.

(** [float(v)] on a decoded JSON value. *)
Definition float (v : json) : conversion :=
  match v with
  | JNum x => Float x
  | JBool b => Float (Num (if b then 1 else 0))
  | JHuge => TooLarge
  | JStr s => of_option (float_of_str s)
  | JNull | JList _ | JDict _ => Refused
  end.

(** [float(data.get(k))]; [float(None)] raises [TypeError]. *)
Definition float_key (k : string) (d : list (string * json)) : conversion :=
  match lookup_key k d with
  | Some v => float v
  | None => Refused
  end.

(** [float(params.get(k))] on the parameters of the query string. *)
Definition float_param (k : string) (d : list (string * string)) : conversion :=
  match lookup_key k d with
  | Some v => of_option (float_of_str v)
  | None => Refused
  end.

(** The filter reported by [connect]. *)
Definition connect_filter_info (s : Consumer) : option filter_info :=
  if radius_test s then Some (RadiusInfo (lat s) (lng s) (radius s))
  else if bounding_box_test s then
    Some (BoundingBoxInfo (min_lat s) (max_lat s) (min_lng s) (max_lng s))
  else None.

(** [float] of a string raises [ValueError] only: each [try] block of
    [connect] is left at its end or through its [except] clause. *)
Definition connect (query_string : string) (s : Consumer) : outcome :=
  match parse_query query_string with
  | None => mkOutcome s [] (Some ValueError)
  | Some params =>
      (* radius filter parameters *)
      let s1 :=
        if has_key "lat" params && has_key "lng" params && has_key "radius" params
        then
          match assign_radius (float_param "lat" params) (float_param "lng" params)
                              (float_param "radius" params) s with
          | (s', Caught) => clear_radius s'
          | (s', _) => s'
          end
        else s in
      (* bounding box filter parameters *)
      let s2 :=
        if has_key "min_lat" params && has_key "max_lat" params &&
           has_key "min_lng" params && has_key "max_lng" params
        then
          match assign_bounding_box
                  (float_param "min_lat" params) (float_param "max_lat" params)
                  (float_param "min_lng" params) (float_param "max_lng" params) s1 with
          | (s', Caught) => clear_bounding_box s'
          | (s', _) => s'
          end
        else s1 in
      mkOutcome (set_is_sending true s2)
                [ConnectionEstablished (connect_filter_info s2)] None
  end.

Definition disconnect (s : Consumer) : Consumer := set_is_sending false s.

(** [receive] on the result of [json.loads(text_data)]; [None] stands for a
    text that is not JSON. *)
Definition receive (decoded : option json) (s : Consumer) : outcome :=
  match decoded with
  | None => mkOutcome s [Error "Invalid JSON format"] None
  | Some (JDict data) =>
      match lookup_key "type" data with
      | Some (JStr message_type) =>
          if String.eqb message_type "update_filters" then
            if has_key "lat" data && has_key "lng" data && has_key "radius" data then
              match assign_radius (float_key "lat" data) (float_key "lng" data)
                                  (float_key "radius" data) s with
              | (s', Completed) =>
                  let s'' := clear_bounding_box s' in
                  mkOutcome s''
                    [FiltersUpdated "Radius filter updated"
                       (RadiusInfo (lat s'') (lng s'') (radius s''))] None
              | (s', Caught) =>
                  mkOutcome s' [Error "Invalid radius filter parameters"] None
              | (s', Escaped e) => mkOutcome s' [] (Some e)
              end
            else if has_key "min_lat" data && has_key "max_lat" data &&
                    has_key "min_lng" data && has_key "max_lng" data then
              match assign_bounding_box
                      (float_key "min_lat" data) (float_key "max_lat" data)
                      (float_key "min_lng" data) (float_key "max_lng" data) s with
              | (s', Completed) =>
                  let s'' := clear_radius s' in
                  mkOutcome s''
                    [FiltersUpdated "Bounding box filter updated"
                       (BoundingBoxInfo (min_lat s'') (max_lat s'')
                                        (min_lng s'') (max_lng s''))] None
              | (s', Caught) =>
                  mkOutcome s' [Error "Invalid bounding box filter parameters"] None
              | (s', Escaped e) => mkOutcome s' [] (Some e)
              end
            else mkOutcome s [Error "Invalid filter format"] None
          else if String.eqb message_type "clear_filters" then
            mkOutcome (clear_bounding_box (clear_radius s)) [FiltersCleared] None
          else mkOutcome s [] None
      | _ => mkOutcome s [] None
      end
  | Some _ => mkOutcome s [] (Some AttributeError)
  end.

End WithFloat.

(** The float held by a filter field that passed its truth test. *)
Definition the (v : option pyfloat) : pyfloat := default (Num 0) v.

(** [plane_info[plane.id] = {...}] for one row of the table. *)
Definition plane_info_item (info : Dict.t (string * string)) (row : Z * Plane.t)
    : Dict.t (string * string) :=
  let '(plane_id, plane) := row in
  Dict.set plane_id
    (Plane.name plane,
     match Plane.pilot plane with Some pilot_name => pilot_name | None => "Pilot Yok" end)
    info.

(** [plane_info.get(plane_id, {...})] *)
Definition info_of (plane_info : Dict.t (string * string)) (plane_id : Z)
    : string * string :=
  match Dict.get plane_id plane_info with
  | Some info => info
  | None => (String.append "Plane " (pretty plane_id), "Pilot Yok")
  end.

Definition make_row (plane_info : Dict.t (string * string)) (plane_id : Z)
    (pos : Heading) : Row :=
  let info := info_of plane_info plane_id in
  mkRow plane_id (fst info) (snd info)
        (h_current_lng pos) (h_current_lat pos) (h_heading pos).

(** [skip_plane] after the filter tests, for a plane at [(lat, lng)]. *)
Definition skip_plane (s : Consumer) (plane_lat plane_lng : R) : bool :=
  if radius_test s then
    let distance :=
      distance_from plane_lat plane_lng (the (lat s)) (the (lng s)) in
    gt distance (times (the (radius s)) 1000)
  else if bounding_box_test s then
    negb (le (the (min_lat s)) plane_lat && le plane_lat (the (max_lat s)) &&
          le (the (min_lng s)) plane_lng && le plane_lng (the (max_lng s)))
  else false.

(** [filter_info] after one iteration of the loop. *)
Definition note_filter (s : Consumer) (info : option filter_info)
    : option filter_info :=
  if radius_test s then
    match info with
    | None => Some (RadiusInfo (lat s) (lng s) (radius s))
    | Some _ => info
    end
  else if bounding_box_test s then
    match info with
    | None =>
        Some (BoundingBoxInfo (min_lat s) (max_lat s) (min_lng s) (max_lng s))
    | Some _ => info
    end
  else info.

(** One iteration of the loop over [positions_with_heading.items()]. *)
Definition filter_item (s : Consumer) (plane_info : Dict.t (string * string))
    (acc : option filter_info * list Row) (item : Z * Heading)
    : option filter_info * list Row :=
  let '(info, planes) := acc in
  let '(plane_id, pos) := item in
  let info' := note_filter s info in
  if skip_plane s (h_current_lat pos) (h_current_lng pos) then
    (info', planes)
  else
    (info', planes ++ [make_row plane_info plane_id pos]).

(** [planes.sort(key=lambda x: x[0])]: a stable sort by plane id. *)
Fixpoint insert_by_id (row : Row) (sorted : list Row) : list Row :=
  match sorted with
  | [] => [row]
  | first :: rest =>
      if Z.leb (row_id row) (row_id first) then row :: first :: rest
      else first :: insert_by_id row rest
  end.

Definition sort_by_id (rows : list Row) : list Row :=
  fold_right insert_by_id [] rows.

Definition get_filtered_positions (s : Consumer) (w : world) : Positions * world :=
  let '(positions_with_heading, w1) := get_positions_with_heading w in
  let w2 := emit DbAll w1 in
  let plane_info := fold_left plane_info_item (db w2) [] in
  let '(info, planes) :=
    fold_left (filter_item s plane_info) positions_with_heading (None, []) in
  let planes := sort_by_id planes in
  (mkPositions planes (length planes) info, w2).

(** ** Notions used to state properties of the filter *)

(** A stored radius filter, or a stored bounding box, one of whose
    parameters is zero. *)
Definition zero_in_radius (s : Consumer) : Prop :=
  lat s = Some 0 \/ lng s = Some 0 \/ radius s = Some 0.
Definition zero_in_bounding_box (s : Consumer) : Prop :=
  min_lat s = Some 0 \/ max_lat s = Some 0 \/
  min_lng s = Some 0 \/ max_lng s = Some 0.

(** No field of the radius filter, or of the bounding box, is set. *)
Definition radius_unset (s : Consumer) : Prop :=
  lat s = None /\ lng s = None /\ radius s = None.
Definition bounding_box_unset (s : Consumer) : Prop :=
  min_lat s = None /\ max_lat s = None /\ min_lng s = None /\ max_lng s = None.

(** The row of every plane of the table, in the order of the table. *)
Definition all_rows (w : world) : list Row :=
  map (fun item => make_row (fold_left plane_info_item (db w) []) (fst item) (snd item))
      (fst (get_positions_with_heading w)).

End Session.
(** ** Concrete states used in the examples *)

Module Examples.
Import PyFloat Store Session.

(** A route between the points (lat 10, lng 20) and (lat 11, lng 21). *)
Definition route (name : string) (current : Point.t) (going : bool) : Plane.t :=
  Plane.mk name None (Point.mk 20 10) (Point.mk 21 11) current going.

(** Plane 1 stands on its target and its row has been deleted from the
    table. *)
Definition arrived : Position := mkPosition 11 21 11 21 true 0.
Definition orphan_world : world :=
  mkWorld [arrived] [(1%Z, 0%nat)] 600 [] [].

(** Plane 1 stands on its target and its row is still in the table. *)
Definition arrival_world : world :=
  mkWorld [arrived] [(1%Z, 0%nat)] 600
          [(1%Z, route "TK1" (Point.mk 20 10) true)] [].

(** Plane 1 stands at (0, 0) on its way east along the equator to (0, 90),
    a quarter of the circumference away. *)
Definition eastbound : Position := mkPosition 0 0 0 90 true 0.
Definition equator_route : Plane.t :=
  Plane.mk "TK1" None (Point.mk 0 0) (Point.mk 90 0) (Point.mk 0 0) true.
Definition eastbound_world : world :=
  mkWorld [eastbound] [(1%Z, 0%nat)] 600 [(1%Z, equator_route)] [].

(** The same plane in a store whose step has been set to a negative
    number. *)
Definition backwards_world : world :=
  mkWorld [eastbound] [(1%Z, 0%nat)] (-600) [(1%Z, equator_route)] [].

(** Three planes in memory, away from the positions recorded in the table;
    the row of plane 2 has been deleted. *)
Definition underway (lat lng : R) : Position := mkPosition lat lng 11 21 true 0.
Definition three_planes : world :=
  mkWorld [underway 10.1 20.1; underway 10.2 20.2; underway 10.3 20.3]
          [(1%Z, 0%nat); (2%Z, 1%nat); (3%Z, 2%nat)] 600
          [(1%Z, route "TK1" (Point.mk 20 10) true);
           (3%Z, route "TK3" (Point.mk 20 10) true)] [].

(** A [float_of_str] for the examples: it reads a non-empty sequence of
    decimal digits, on which it agrees with [float], and rejects every other
    string. *)
Definition digit (c : ascii) : option Z :=
  let n := Z.of_nat (nat_of_ascii c) in
  if (48 <=? n)%Z && (n <=? 57)%Z then Some (n - 48)%Z else None.

Fixpoint digits (acc : Z) (s : string) : option Z :=
  match s with
  | EmptyString => Some acc
  | String c rest =>
      match digit c with
      | Some d => digits (10 * acc + d)%Z rest
      | None => None
      end
  end.

Definition float_of_digits (s : string) : option pyfloat :=
  match s with
  | EmptyString => None
  | _ => option_map (fun n => Num (IZR n)) (digits 0 s)
  end.

(** A session with a radius filter: 5 km around (lat 1, lng 1). *)
Definition radius_session : Consumer :=
  mkConsumer (Some 1) (Some 1) (Some 5) None None None None true.

(** A session with a radius filter of 5 km around the point (11, 21), where
    plane 1 of [arrival_world] stands. *)
Definition near_session : Consumer :=
  mkConsumer (Some 11) (Some 21) (Some 5) None None None None true.

(** A session whose radius is NaN, around (1, 1). *)
Definition nan_session : Consumer :=
  mkConsumer (Some 1) (Some 1) (Some NaN) None None None None true.

(** [{"type": "update_filters", "lat": 2, "lng": 3, "radius": null}] *)
Definition bad_radius_update : json :=
  JDict [("type", JStr "update_filters"); ("lat", JNum 2); ("lng", JNum 3);
         ("radius", JNull)].

(** A query string that carries both kinds of filter. *)
Definition both_filters_query : string :=
  "lat=1&lng=2&radius=3&min_lat=4&max_lat=5&min_lng=6&max_lng=7".

End Examples.

(** ** Notions used to state further properties of the store *)

Module Loading.
Import Store.

(** The dictionary that [load_planes_from_db] builds for a row of the
    [Plane] table. *)
Definition position_of_row (now : Z -> R) (plane_id : Z) (plane : Plane.t)
    : Position :=
  let target :=
    if Plane.is_going_to_end plane then Plane.end_point plane
    else Plane.start_point plane in
  mkPosition (Point.y (Plane.current_position plane))
             (Point.x (Plane.current_position plane))
             (Point.y target) (Point.x target)
             (Plane.is_going_to_end plane) (now plane_id).

(** The row that [save_to_database] writes for a plane with dictionary
    [pos]. *)
Definition row_after_save (pos : Position) (plane : Plane.t) : Plane.t :=
  Plane.mk (Plane.name plane) (Plane.pilot plane)
           (Plane.start_point plane) (Plane.end_point plane)
           (Point.mk (current_lng pos) (current_lat pos))
           (is_going_to_end pos).

End Loading.

(** ** models.py: [Command] *)

(** A row of the [Command] table; [plane] is the id of the plane the command
    is for. The status is a string: the choices of the model field are
    checked by the serializers only. *)
Module Command.
Record t : Type := mk {
  plane : Z;
  target_location : Point.t;
  message : string;
  status : string
}.
End Command.

(** ** views.py *)

Module Rest.
Import GeoMath PyFloat Store Session.

(** The truth value of [request.query_params.get(k)]: [None] and the empty
    string are false. *)
Definition truthy_param (v : option string) : bool :=
  match v with
  | Some s => negb (String.eqb s "")
  | None => false
  end.

(** The [filters] entry of the response of [positions]. *)
Inductive rest_filter : Type :=
| RadiusKm (lat lng radius_km : pyfloat)
| BoundingBox (min_lat max_lat min_lng max_lng : pyfloat).

(** The body of the response of [positions]. *)
Record Listing : Type := mkListing {
  listed : list Row;
  listed_count : nat;
  listed_filters : option rest_filter
}.

Section WithFloat.

(** [float(s)] on a string: [None] stands for [ValueError]. *)
Variable float_of_str : string -> option pyfloat.

(** [float(v)] on the value of a query parameter. *)
Definition float_param (v : option string) : option pyfloat :=
  match v with
  | Some s => float_of_str s
  | None => None
  end.

(** Whether [calculate_distance plane_lat plane_lng lat lng] raises, for a
    centre given by a client: on NaN no call of [math] raises. *)
Definition distance_raises (plane_lat plane_lng : R) (lat lng : pyfloat) : bool :=
  match lat, lng with
  | Num a, Num b => calculate_distance_raises plane_lat plane_lng a b
  | _, _ => false
  end.

(** The filter tests of one iteration of the loop of [positions]: the filter
    noted so far and [skip_plane]. Each [try] block holds the conversions,
    the test and the note; when a conversion or, in the first block,
    [calculate_distance] raises [ValueError], the block is left with both
    as they were. *)
Definition positions_filter (query : list (string * string))
    (noted : option rest_filter) (plane_lat plane_lng : R)
    : option rest_filter * bool :=
  let lat := lookup_key "lat" query in
  let lng := lookup_key "lng" query in
  let radius := lookup_key "radius" query in
  let min_lat := lookup_key "min_lat" query in
  let max_lat := lookup_key "max_lat" query in
  let min_lng := lookup_key "min_lng" query in
  let max_lng := lookup_key "max_lng" query in
  if truthy_param lat && truthy_param lng && truthy_param radius then
    match float_param lat, float_param lng, float_param radius with
    | Some lat_float, Some lng_float, Some radius_float =>
        if distance_raises plane_lat plane_lng lat_float lng_float then
          (noted, false)
        else
          let distance :=
            distance_from plane_lat plane_lng lat_float lng_float in
          (match noted with
           | None => Some (RadiusKm lat_float lng_float radius_float)
           | Some _ => noted
           end,
           gt distance (times radius_float 1000))
    | _, _, _ => (noted, false)
    end
  else if truthy_param min_lat && truthy_param max_lat &&
          truthy_param min_lng && truthy_param max_lng then
    match float_param min_lat, float_param max_lat,
          float_param min_lng, float_param max_lng with
    | Some min_lat_float, Some max_lat_float,
      Some min_lng_float, Some max_lng_float =>
        (match noted with
         | None => Some (BoundingBox min_lat_float max_lat_float
                                     min_lng_float max_lng_float)
         | Some _ => noted
         end,
         negb (le min_lat_float plane_lat && le plane_lat max_lat_float &&
               le min_lng_float plane_lng && le plane_lng max_lng_float))
    | _, _, _, _ => (noted, false)
    end
  else (noted, false).

(** One iteration of the loop over [positions_with_heading.items()]. *)
Definition positions_item (query : list (string * string))
    (plane_info : Dict.t (string * string))
    (acc : option rest_filter * list Row) (item : Z * Heading)
    : option rest_filter * list Row :=
  let '(noted, features) := acc in
  let '(plane_id, pos) := item in
  let '(noted', skip) :=
    positions_filter query noted (h_current_lat pos) (h_current_lng pos) in
  if skip then (noted', features)
  else (noted', features ++ [make_row plane_info plane_id pos]).

(** [PlaneViewSet.positions] for a request with query parameters [query]. *)
Definition positions (query : list (string * string)) (w : world)
    : Listing * world :=
  let '(positions_with_heading, w1) := get_positions_with_heading w in
  let w2 := emit DbAll w1 in
  let plane_info := fold_left plane_info_item (db w2) [] in
  let '(noted, features) :=
    fold_left (positions_item query plane_info) positions_with_heading (None, []) in
  let features := sort_by_id features in
  (mkListing features (length features) noted, w2).

End WithFloat.

(** A message sent to a group of the channel layer: the status update of a
    command. *)
Inductive group_message : Type :=
| CommandUpdate (group : string) (pk : Z) (command : Command.t).

(** The store, the [Command] table and the messages sent to groups so far. *)
Record site : Type := mkSite {
  store : world;
  commands : Dict.t Command.t;
  outbox : list group_message
}.

(** The responses of the command views: the serialized command, the error
    of [accept] and [reject], a validation error of the serializer, no such
    command, and an exception that left the view. *)
Inductive response : Type :=
| Ok200 (pk : Z) (command : Command.t)
| BadRequest400 (error : string)
| Invalid400
| NotFound404
| ServerError500.

Definition with_status (value : string) (command : Command.t) : Command.t :=
  Command.mk (Command.plane command) (Command.target_location command)
             (Command.message command) value.

(** [CommandViewSet.accept] for a request without query parameters.
    [command.plane.id] is the foreign key of the command, fetched with the
    command by [select_related]; [outbox] records the message handed to
    [group_send]. *)
Definition accept (pk : Z) (st : site) : response * site :=
  match Dict.get pk (commands st) with
  | None => (NotFound404, st)
  | Some command =>
      if negb (String.eqb (Command.status command) "pending") then
        (BadRequest400 "Only pending commands can be accepted", st)
      else
        let command := with_status "accepted" command in
        let commands' := Dict.set pk command (commands st) in
        let store' :=
          snd (update_plane_target
                 (Command.plane command)
                 (Point.y (Command.target_location command))
                 (Point.x (Command.target_location command))
                 (store st)) in
        (Ok200 pk command,
         mkSite store' commands'
                (outbox st ++ [CommandUpdate "command_status_updates" pk command]))
  end.

(** [CommandViewSet.reject] for a request without query parameters. *)
Definition reject (pk : Z) (st : site) : response * site :=
  match Dict.get pk (commands st) with
  | None => (NotFound404, st)
  | Some command =>
      if negb (String.eqb (Command.status command) "pending") then
        (BadRequest400 "Only pending commands can be rejected", st)
      else
        let command := with_status "rejected" command in
        (Ok200 pk command,
         mkSite (store st) (Dict.set pk command (commands st))
                (outbox st ++ [CommandUpdate "command_status_updates" pk command]))
  end.

(** [CommandUpdateSerializer.validate_status] *)
Definition validate_status (value : string) : option string :=
  if String.eqb value "accepted" || String.eqb value "rejected" then Some value
  else None.

(** The route of a plane after a command for it was accepted through
    [perform_update]. *)
Definition rerouted (target : Point.t) (plane : Plane.t) : Plane.t :=
  Plane.mk (Plane.name plane) (Plane.pilot plane)
           (Plane.current_position plane) target
           (Plane.current_position plane) (Plane.is_going_to_end plane).

(** An update of a command ([PUT] or [PATCH] with a status) through
    [CommandUpdateSerializer] and [perform_update], for a request without
    query parameters. *)
Definition update (pk : Z) (value : string) (st : site) : response * site :=
  match Dict.get pk (commands st) with
  | None => (NotFound404, st)
  | Some command =>
      match validate_status value with
      | None => (Invalid400, st)
      | Some value =>
          let command := with_status value command in
          let st1 :=
            mkSite (store st) (Dict.set pk command (commands st)) (outbox st) in
          if String.eqb (Command.status command) "accepted" then
            match Dict.get (Command.plane command) (db (store st)) with
            | Some plane =>
                let plane' := rerouted (Command.target_location command) plane in
                (Ok200 pk command,
                 mkSite
                   (emit (DbSave (Command.plane command))
                      (set_db (Dict.set (Command.plane command) plane'
                                        (db (store st)))
                              (store st)))
                   (commands st1) (outbox st1))
            | None => (ServerError500, st1)
            end
          else (Ok200 pk command, st1)
      end
  end.

End Rest.

(** A site for the examples: the store of [arrival_world] and one pending
    command that sends plane 1 to the point (lat 11, lng 21). *)
Module CommandExamples.
Import Store Rest Examples.

Definition divert : Command.t :=
  Command.mk 1 (Point.mk 21 11) "divert" "pending".

Definition one_command : site :=
  mkSite arrival_world [(5%Z, divert)] [].

(** The same command, already rejected, for a plane whose stored position
    (15, 25) is off its route; in memory the plane stands on its target. *)
Definition off_route_world : world :=
  mkWorld [arrived] [(1%Z, 0%nat)] 600
          [(1%Z, route "TK1" (Point.mk 25 15) true)] [].
Definition rejected_command : site :=
  mkSite off_route_world [(5%Z, with_status "rejected" divert)] [].

End CommandExamples.

(** ** management/commands/create_planes.py *)

Module Seed.
Import GeoMath.

(** The local constant [R] of [calculate_destination] and of
    [haversine_distance]: Earth radius in kilometers. *)
Definition EARTH_RADIUS_KM : R := 6371.

Definition calculate_destination (lat lng distance_km bearing_degrees : R)
    : R * R :=
  let lat_rad := radians lat in
  let lng_rad := radians lng in
  let bearing_rad := radians bearing_degrees in
  let new_lat_rad :=
    asin (sin lat_rad * cos (distance_km / EARTH_RADIUS_KM) +
          cos lat_rad * sin (distance_km / EARTH_RADIUS_KM) * cos bearing_rad) in
  let new_lng_rad :=
    lng_rad + atan2
      (sin bearing_rad * sin (distance_km / EARTH_RADIUS_KM) * cos lat_rad)
      (cos (distance_km / EARTH_RADIUS_KM) - sin lat_rad * sin new_lat_rad) in
  let new_lat := degrees new_lat_rad in
  let new_lng := degrees new_lng_rad in
  let new_lng := pymod (new_lng + 180) 360 - 180 in
  (new_lat, new_lng).

Definition haversine_distance (lat1 lng1 lat2 lng2 : R) : R :=
  let dlat := radians (lat2 - lat1) in
  let dlng := radians (lng2 - lng1) in
  let a := sin (dlat / 2) ^ 2 +
           cos (radians lat1) * cos (radians lat2) * sin (dlng / 2) ^ 2 in
  let c := 2 * atan2 (sqrt a) (sqrt (1 - a)) in
  EARTH_RADIUS_KM * c.

End Seed.

(** ** Notions used to state properties of the query string *)

Module Text.

(** The number of occurrences of a character in a string. *)
Fixpoint occurrences (c : ascii) (s : string) : nat :=
  match s with
  | EmptyString => 0
  | String c' rest =>
      if Ascii.eqb c' c then S (occurrences c rest) else occurrences c rest
  end.

End Text.

(** * Properties *)

Module GeoMathFacts.
Import GeoMath.

Lemma atan2_bound (y x : R) : - PI <= atan2 y x <= PI.
Proof.
  unfold atan2.
  pose proof (atan_bound (y / x)) as Hb.
  pose proof PI_RGT_0 as Hpi.
  destruct (Rlt_dec 0 x) as [Hx|Hx]; [lra|].
  destruct (Rlt_dec x 0) as [Hx'|Hx'].
  - destruct (Rle_dec 0 y) as [Hy|Hy].
    + assert (atan (y / x) <= 0); [|lra].
      rewrite <- atan_0.
      assert (y / x <= 0) as [Hlt|Heq].
      { assert (0 <= y * / (- x)) by (apply Rle_mult_inv_pos; lra).
        replace (y / x) with (- (y * / (- x))) by (field; lra). lra. }
      * left. now apply atan_increasing.
      * rewrite Heq. lra.
    + assert (0 < atan (y / x)); [|lra].
      rewrite <- atan_0. apply atan_increasing.
      replace (y / x) with ((- y) / (- x)) by (field; lra).
      apply Rdiv_lt_0_compat; lra.
  - repeat destruct (Rlt_dec _ _); lra.
Qed.

Lemma atan2_pos_pos (y x : R) : 0 < y -> 0 < x -> 0 < atan2 y x.
Proof.
  intros Hy Hx. unfold atan2.
  destruct (Rlt_dec 0 x) as [_|]; [|lra].
  rewrite <- atan_0. apply atan_increasing.
  apply Rdiv_lt_0_compat; assumption.
Qed.

Lemma atan2_0_1 : atan2 0 1 = 0.
Proof.
  unfold atan2. destruct (Rlt_dec 0 1); [|lra].
  replace (0 / 1) with 0 by lra. apply atan_0.
Qed.

Lemma degrees_radians (x : R) : degrees (radians x) = x.
Proof.
  unfold degrees, radians. pose proof PI_RGT_0. field. lra.
Qed.

Lemma degrees_plus (a b : R) : degrees (a + b) = degrees a + degrees b.
Proof. unfold degrees. pose proof PI_RGT_0. field. lra. Qed.

(** The haversine distance from a point to itself is zero. *)
Lemma calculate_distance_same (lat lng : R) :
  calculate_distance lat lng lat lng = 0.
Proof.
  unfold calculate_distance, radians.
  replace ((lat - lat) * PI / 180 / 2) with 0 by lra.
  replace ((lng - lng) * PI / 180 / 2) with 0 by lra.
  rewrite sin_0.
  replace (0 ^ 2 + cos (lat * PI / 180) * cos (lat * PI / 180) * 0 ^ 2)
    with 0 by (simpl; lra).
  rewrite sqrt_0. replace (1 - 0) with 1 by lra. rewrite sqrt_1.
  rewrite atan2_0_1. lra.
Qed.

Lemma degrees_pos (t : R) : 0 < t -> 0 < degrees t.
Proof.
  intros Ht. unfold degrees. pose proof PI_RGT_0.
  apply Rdiv_lt_0_compat; lra.
Qed.

Lemma degrees_bound (t : R) : - PI <= t <= PI -> -180 <= degrees t <= 180.
Proof.
  intros [Hl Hu]. unfold degrees. pose proof PI_RGT_0 as Hpi.
  split.
  - apply Rmult_le_reg_r with PI; [lra|].
    unfold Rdiv. rewrite Rmult_assoc, Rinv_l by lra. lra.
  - apply Rmult_le_reg_r with PI; [lra|].
    unfold Rdiv. rewrite Rmult_assoc, Rinv_l by lra. lra.
Qed.

(** The longitude returned by [move_distance_with_bearing] is the origin
    longitude plus the [atan2] offset, converted to degrees. *)
(** 600 meters due east of the point (0, 180) the returned longitude
    exceeds 180. *)
Lemma east_of_the_antimeridian :
  180 < snd (move_distance_with_bearing 0 180 600 90).
Proof.
  unfold move_distance_with_bearing. cbv zeta. cbn [snd].
  rewrite degrees_plus, degrees_radians.
  assert (radians 0 = 0) as E0 by (unfold radians; lra).
  assert (radians 90 = PI / 2) as E90 by (unfold radians; lra).
  rewrite E0, E90, sin_0, cos_0, sin_PI2, cos_PI2.
  set (delta := 600 / EARTH_RADIUS).
  assert (0 < delta < 1) as [Hd0 Hd1].
  { unfold delta, EARTH_RADIUS. lra. }
  pose proof PI2_1 as Hpi.
  assert (0 < sin delta) as Hs by (apply sin_gt_0; lra).
  assert (0 < cos delta) as Hc by (apply cos_gt_0; lra).
  assert (0 < degrees (atan2 (1 * sin delta * 1)
             (cos delta - 0 * sin (asin (0 * cos delta + 1 * sin delta * 0))))).
  { apply degrees_pos, atan2_pos_pos; lra. }
  lra.
Qed.

(** Over the reals the arguments of [math.sqrt] and of [math.asin] lie in
    their domains: the calls raise only through the rounding of floats. *)
Lemma calculate_distance_in_domain (lat1 lng1 lat2 lng2 : R) :
  calculate_distance_raises lat1 lng1 lat2 lng2 = false.
Proof.
  unfold calculate_distance_raises. cbv zeta.
  set (phi1 := radians lat1). set (phi2 := radians lat2).
  assert (radians (lat2 - lat1) / 2 = (phi2 - phi1) / 2) as ->
    by (unfold phi1, phi2, radians; lra).
  set (u := (phi2 - phi1) / 2).
  set (q := sin (radians (lng2 - lng1) / 2) ^ 2).
  assert (0 <= q <= 1) as Hq.
  { unfold q. pose proof (SIN_bound (radians (lng2 - lng1) / 2)). nra. }
  pose proof (COS_bound (phi2 - phi1)) as Hminus.
  pose proof (COS_bound (phi1 + phi2)) as Hplus.
  rewrite cos_minus in Hminus. rewrite cos_plus in Hplus.
  assert (sin u ^ 2 =
          (1 - (cos phi2 * cos phi1 + sin phi2 * sin phi1)) / 2) as Hu.
  { rewrite <- cos_minus. replace (phi2 - phi1) with (2 * u) by (unfold u; lra).
    rewrite cos_2a_sin. simpl. lra. }
  rewrite Hu.
  set (p := cos phi1 * cos phi2) in *. set (t := sin phi1 * sin phi2) in *.
  assert (0 <= (1 - (cos phi2 * cos phi1 + sin phi2 * sin phi1)) / 2 + p * q <= 1)
    as [Hlo Hhi].
  { replace (cos phi2 * cos phi1) with p in * by (unfold p; ring).
    replace (sin phi2 * sin phi1) with t in * by (unfold t; ring).
    split; nra. }
  unfold sqrt_raises.
  destruct (Rlt_dec _ 0); [lra|]. destruct (Rlt_dec _ 0); [lra|reflexivity].
Qed.

Lemma move_distance_with_bearing_in_domain (lat lng d b : R) :
  move_distance_with_bearing_raises lat lng d b = false.
Proof.
  unfold move_distance_with_bearing_raises. cbv zeta.
  set (phi := radians lat). set (delta := d / EARTH_RADIUS).
  set (c := cos (radians b)).
  pose proof (COS_bound (radians b)) as Hc. fold c in Hc.
  pose proof (SIN_bound (phi + delta)) as Hplus.
  pose proof (SIN_bound (phi - delta)) as Hminus.
  rewrite sin_plus in Hplus. rewrite sin_minus in Hminus.
  unfold asin_raises.
  destruct (Rlt_dec _ (-1)); [nra|]. destruct (Rlt_dec 1 _); [nra|reflexivity].
Qed.

Lemma move_towards_target_in_domain
    (current_lat current_lng target_lat target_lng distance_meters : R) :
  move_towards_target_raises current_lat current_lng target_lat target_lng
                             distance_meters = false.
Proof.
  unfold move_towards_target_raises.
  rewrite calculate_distance_in_domain, move_distance_with_bearing_in_domain.
  now destruct (Rle_dec _ _).
Qed.

End GeoMathFacts.

Module DictFacts.

Lemma get_In {V} (k : Z) (v : V) (d : Dict.t V) :
  Dict.get k d = Some v -> In (k, v) d.
Proof.
  induction d as [|[k' v'] d IH]; simpl; [discriminate|].
  destruct (Z.eqb_spec k k') as [->|Hne].
  - intros [= ->]. now left.
  - intros H. right. now apply IH.
Qed.

Lemma get_None_keys {V} (k : Z) (d : Dict.t V) :
  ~ In k (Dict.keys d) -> Dict.get k d = None.
Proof.
  induction d as [|[k' v'] d IH]; simpl; [reflexivity|].
  intros Hnot. destruct (Z.eqb_spec k k') as [->|Hne].
  - exfalso. apply Hnot. now left.
  - apply IH. intros Hin. apply Hnot. now right.
Qed.

Lemma In_get {V} (k : Z) (v : V) (d : Dict.t V) :
  NoDup (Dict.keys d) -> In (k, v) d -> Dict.get k d = Some v.
Proof.
  induction d as [|[k' v'] d IH]; simpl; [intros _ []|].
  intros Hnd [Heq|Hin].
  - injection Heq as -> ->. now rewrite Z.eqb_refl.
  - apply NoDup_cons in Hnd as [Hnotin Hnd].
    destruct (Z.eqb_spec k k') as [->|Hne].
    + exfalso. apply Hnotin. apply list_elem_of_In.
      apply (in_map fst) in Hin. exact Hin.
    + now apply IH.
Qed.

Lemma get_del_ne {V} (k k' : Z) (d : Dict.t V) :
  k <> k' -> Dict.get k (Dict.del k' d) = Dict.get k d.
Proof.
  intros Hne. induction d as [|[k0 v0] d IH]; simpl; [reflexivity|].
  destruct (Z.eqb_spec k' k0) as [->|Hne0].
  - destruct (Z.eqb_spec k k0); [contradiction|reflexivity].
  - simpl. destruct (Z.eqb_spec k k0); [reflexivity|exact IH].
Qed.

Lemma keys_del_subset {V} (k k' : Z) (d : Dict.t V) :
  In k (Dict.keys (Dict.del k' d)) -> In k (Dict.keys d).
Proof.
  induction d as [|[k0 v0] d IH]; simpl; [tauto|].
  destruct (Z.eqb_spec k' k0) as [->|Hne0]; simpl; tauto.
Qed.

Lemma NoDup_keys_del {V} (k : Z) (d : Dict.t V) :
  NoDup (Dict.keys d) -> NoDup (Dict.keys (Dict.del k d)).
Proof.
  induction d as [|[k0 v0] d IH]; simpl; [trivial|].
  intros Hnd. apply NoDup_cons in Hnd as [Hnotin Hnd].
  destruct (Z.eqb_spec k k0) as [->|Hne0]; [exact Hnd|].
  simpl. apply NoDup_cons. split; [|now apply IH].
  intros Hin. apply Hnotin. apply list_elem_of_In.
  apply list_elem_of_In in Hin. now apply keys_del_subset in Hin.
Qed.

Lemma get_del_eq {V} (k : Z) (d : Dict.t V) :
  NoDup (Dict.keys d) -> Dict.get k (Dict.del k d) = None.
Proof.
  induction d as [|[k0 v0] d IH]; simpl; [reflexivity|].
  intros Hnd. apply NoDup_cons in Hnd as [Hnotin Hnd].
  destruct (Z.eqb_spec k k0) as [->|Hne0].
  - apply get_None_keys. intros Hin. apply Hnotin. now apply list_elem_of_In.
  - simpl. destruct (Z.eqb_spec k k0); [contradiction|]. now apply IH.
Qed.

Lemma length_del {V} (k : Z) (v : V) (d : Dict.t V) :
  Dict.get k d = Some v -> S (length (Dict.del k d)) = length d.
Proof.
  induction d as [|[k0 v0] d IH]; simpl; [discriminate|].
  destruct (Z.eqb_spec k k0) as [->|Hne0]; [reflexivity|].
  intros H. simpl. f_equal. now apply IH.
Qed.

Lemma values_del_subset {V} (x : V) (k : Z) (d : Dict.t V) :
  In x (Dict.values (Dict.del k d)) -> In x (Dict.values d).
Proof.
  induction d as [|[k0 v0] d IH]; simpl; [tauto|].
  destruct (Z.eqb_spec k k0) as [->|Hne0]; simpl; tauto.
Qed.

Lemma NoDup_values_del {V} (k : Z) (d : Dict.t V) :
  NoDup (Dict.values d) -> NoDup (Dict.values (Dict.del k d)).
Proof.
  induction d as [|[k0 v0] d IH]; simpl; [trivial|].
  intros Hnd. apply NoDup_cons in Hnd as [Hnotin Hnd].
  destruct (Z.eqb_spec k k0) as [->|Hne0]; [exact Hnd|].
  simpl. apply NoDup_cons. split; [|now apply IH].
  intros Hin. apply Hnotin. apply list_elem_of_In.
  apply list_elem_of_In in Hin. now apply values_del_subset in Hin.
Qed.

Lemma keys_get {V} (k : Z) (d : Dict.t V) :
  In k (Dict.keys d) -> exists v, Dict.get k d = Some v.
Proof.
  induction d as [|[k0 v0] d IH]; simpl; [intros []|].
  destruct (Z.eqb_spec k k0) as [->|Hne]; [eauto|].
  intros [Heq|Hin]; [congruence|auto].
Qed.

Lemma get_set_eq {V} (k : Z) (v : V) (d : Dict.t V) :
  Dict.get k (Dict.set k v d) = Some v.
Proof.
  induction d as [|[k0 v0] d IH]; simpl.
  - now rewrite Z.eqb_refl.
  - destruct (Z.eqb_spec k k0) as [->|Hne]; simpl.
    + now rewrite Z.eqb_refl.
    + destruct (Z.eqb_spec k k0); [contradiction|exact IH].
Qed.

Lemma get_set_ne {V} (k k' : Z) (v : V) (d : Dict.t V) :
  k <> k' -> Dict.get k (Dict.set k' v d) = Dict.get k d.
Proof.
  intros Hne. induction d as [|[k0 v0] d IH]; simpl.
  - destruct (Z.eqb_spec k k'); [contradiction|reflexivity].
  - destruct (Z.eqb_spec k' k0) as [->|Hne0]; simpl.
    + destruct (Z.eqb_spec k k0); [contradiction|reflexivity].
    + destruct (Z.eqb_spec k k0); [reflexivity|exact IH].
Qed.

Lemma keys_set {V} (k k' : Z) (v : V) (d : Dict.t V) :
  In k (Dict.keys (Dict.set k' v d)) -> k = k' \/ In k (Dict.keys d).
Proof.
  induction d as [|[k0 v0] d IH]; simpl.
  - intros [H|[]]. now left.
  - destruct (Z.eqb_spec k' k0) as [->|Hne0]; simpl; tauto.
Qed.

Lemma values_set {V} (x v : V) (k : Z) (d : Dict.t V) :
  In x (Dict.values (Dict.set k v d)) -> x = v \/ In x (Dict.values d).
Proof.
  induction d as [|[k0 v0] d IH]; simpl.
  - intros [H|[]]. now left.
  - destruct (Z.eqb_spec k k0) as [->|Hne0]; simpl; intuition auto.
Qed.

Lemma NoDup_keys_set {V} (k : Z) (v : V) (d : Dict.t V) :
  NoDup (Dict.keys d) -> NoDup (Dict.keys (Dict.set k v d)).
Proof.
  induction d as [|[k0 v0] d IH]; simpl.
  - intros _. apply NoDup_singleton.
  - intros Hnd. pose proof Hnd as Hnd0.
    apply NoDup_cons in Hnd as [Hnotin Hnd].
    destruct (Z.eqb_spec k k0) as [->|Hne0]; [exact Hnd0|].
    simpl. apply NoDup_cons. split; [|now apply IH].
    rewrite list_elem_of_In in *. intros Hin.
    apply keys_set in Hin as [Heq|Hin]; [congruence|contradiction].
Qed.

Lemma NoDup_values_set {V} (k : Z) (v : V) (d : Dict.t V) :
  NoDup (Dict.values d) -> ~ In v (Dict.values d) ->
  NoDup (Dict.values (Dict.set k v d)).
Proof.
  induction d as [|[k0 v0] d IH]; simpl.
  - intros _ _. apply NoDup_singleton.
  - intros Hnd Hfresh. apply NoDup_cons in Hnd as [Hnotin Hnd].
    rewrite list_elem_of_In in Hnotin.
    destruct (Z.eqb_spec k k0) as [->|Hne0]; simpl.
    + apply NoDup_cons. split; [|exact Hnd].
      rewrite list_elem_of_In. tauto.
    + apply NoDup_cons. split; [|apply IH; tauto].
      rewrite list_elem_of_In. intros Hin.
      apply values_set in Hin as [Heq|Hin]; [|contradiction].
      apply Hfresh. now left.
Qed.

End DictFacts.

(** ** The simulation step *)

Module TickFacts.
Import GeoMath Store DictFacts.

Ltac step_cases w r :=
  unfold update_plane;
  destruct (heap w !! r) as [?pos|]; [|simpl; auto];
  try (destruct (move_towards_target_raises _ _ _ _ _); [simpl; auto|]);
  try (destruct (move_towards_target _ _ _ _ _) as [[?lat ?lng] [|]];
       [destruct (negb (is_going_to_end _));
        destruct (Dict.get _ (db _)) as [?plane|]|]);
  simpl.

(** One iteration leaves the table of the database, the step and the size
    of the heap alone, and keeps the keys of the table distinct. *)
Lemma update_plane_env (t : R) (w : world) (item : Z * ref) :
  db (update_plane t w item) = db w /\
  MOVEMENT_DISTANCE (update_plane t w item) = MOVEMENT_DISTANCE w /\
  (NoDup (Dict.keys (plane_positions w)) ->
   NoDup (Dict.keys (plane_positions (update_plane t w item)))).
Proof.
  destruct item as [plane_id r]. step_cases w r;
    repeat split; auto using NoDup_keys_del.
Qed.

Lemma update_plane_other_key (t : R) (w : world) (plane_id other : Z) (r : ref) :
  other <> plane_id ->
  Dict.get other (plane_positions (update_plane t w (plane_id, r))) =
  Dict.get other (plane_positions w).
Proof.
  intros Hne. step_cases w r; auto using get_del_ne.
Qed.

Lemma update_plane_other_ref (t : R) (w : world) (plane_id : Z) (r other : ref) :
  other <> r ->
  heap (update_plane t w (plane_id, r)) !! other = heap w !! other.
Proof.
  intros Hne. step_cases w r;
    rewrite ?list_lookup_alter_ne by congruence; reflexivity.
Qed.

(** Iterations for other planes do not touch the entry and the dictionary
    of a plane. *)
Lemma fold_update_plane_frame (t : R) (items : Dict.t ref) :
  forall w : world,
    let w' := fold_left (update_plane t) items w in
    db w' = db w /\
    MOVEMENT_DISTANCE w' = MOVEMENT_DISTANCE w /\
    (NoDup (Dict.keys (plane_positions w)) ->
     NoDup (Dict.keys (plane_positions w'))) /\
    (forall plane_id, ~ In plane_id (Dict.keys items) ->
       Dict.get plane_id (plane_positions w') = Dict.get plane_id (plane_positions w)) /\
    (forall r, ~ In r (Dict.values items) -> heap w' !! r = heap w !! r).
Proof.
  induction items as [|[id0 r0] rest IH]; intros w; cbv zeta; cbn [fold_left].
  - repeat split; auto.
  - pose proof (IH (update_plane t w (id0, r0))) as IHw. cbv zeta in IHw.
    destruct IHw as (Hdb & Hstep & Hnd & Hkey & Href).
    destruct (update_plane_env t w (id0, r0)) as (Hdb0 & Hstep0 & Hnd0).
    repeat split.
    + congruence.
    + congruence.
    + auto.
    + intros plane_id Hnot. rewrite Hkey by (simpl in Hnot; tauto).
      apply update_plane_other_key. simpl in Hnot. intros ->. tauto.
    + intros r Hnot. rewrite Href by (simpl in Hnot; tauto).
      apply update_plane_other_ref. simpl in Hnot. intros ->. tauto.
Qed.

(** The entry and the dictionary of a plane after the loop are those left
    by its own iteration, which started from the dictionary the plane had
    before the loop. *)
Lemma fold_update_plane_at (t : R) (items : Dict.t ref) :
  forall (w : world) (plane_id : Z) (r : ref),
    NoDup (Dict.keys items) -> NoDup (Dict.values items) ->
    In (plane_id, r) items ->
    NoDup (Dict.keys (plane_positions w)) ->
    exists w1,
      heap w1 !! r = heap w !! r /\
      Dict.get plane_id (plane_positions w1) = Dict.get plane_id (plane_positions w) /\
      db w1 = db w /\
      MOVEMENT_DISTANCE w1 = MOVEMENT_DISTANCE w /\
      NoDup (Dict.keys (plane_positions w1)) /\
      heap (fold_left (update_plane t) items w) !! r =
        heap (update_plane t w1 (plane_id, r)) !! r /\
      Dict.get plane_id (plane_positions (fold_left (update_plane t) items w)) =
        Dict.get plane_id (plane_positions (update_plane t w1 (plane_id, r))).
Proof.
  induction items as [|[id0 r0] rest IH]; intros w plane_id r Hk Hv Hin Hw;
    [destruct Hin|].
  simpl in Hk, Hv. apply NoDup_cons in Hk as [Hk0 Hk], Hv as [Hv0 Hv].
  rewrite list_elem_of_In in Hk0. rewrite list_elem_of_In in Hv0.
  destruct Hin as [Heq|Hin].
  - injection Heq as -> ->. exists w. cbn [fold_left].
    pose proof (fold_update_plane_frame t rest (update_plane t w (plane_id, r)))
      as Hframe. cbv zeta in Hframe. destruct Hframe as (_ & _ & _ & Hkey & Href).
    repeat split; auto.
  - assert (plane_id <> id0) as Hid.
    { intros ->. apply Hk0. now apply (in_map fst) in Hin. }
    assert (r <> r0) as Hr.
    { intros ->. apply Hv0. now apply (in_map snd) in Hin. }
    destruct (update_plane_env t w (id0, r0)) as (Hdb0 & Hstep0 & Hnd0).
    destruct (IH (update_plane t w (id0, r0)) plane_id r Hk Hv Hin (Hnd0 Hw))
      as (w1 & H1 & H2 & H3 & H4 & H5 & H6 & H7).
    exists w1. cbn [fold_left]. repeat split; auto; try congruence.
    + rewrite H1. now apply update_plane_other_ref.
    + rewrite H2. now apply update_plane_other_key.
Qed.

(** The iteration for a plane that is within one step of its target and
    still has a row in the table. *)
Lemma update_plane_arrived (t : R) (w : world) (plane_id : Z) (r : ref)
    (pos : Position) (plane : Plane.t) :
  heap w !! r = Some pos ->
  move_towards_target_raises (current_lat pos) (current_lng pos)
                             (target_lat pos) (target_lng pos)
                             (MOVEMENT_DISTANCE w) = false ->
  calculate_distance (current_lat pos) (current_lng pos)
                     (target_lat pos) (target_lng pos) <= MOVEMENT_DISTANCE w ->
  Dict.get plane_id (db w) = Some plane ->
  let goal := if negb (is_going_to_end pos) then Plane.end_point plane
              else Plane.start_point plane in
  plane_positions (update_plane t w (plane_id, r)) = plane_positions w /\
  heap (update_plane t w (plane_id, r)) !! r =
    Some (mkPosition (target_lat pos) (target_lng pos) (Point.y goal) (Point.x goal)
                     (negb (is_going_to_end pos)) t).
Proof.
  intros Hpos Hok Hle Hrow. unfold update_plane. rewrite Hpos, Hok.
  unfold move_towards_target.
  destruct (Rle_dec _ _) as [_|]; [|contradiction].
  cbn -[lookup alter]. rewrite Hrow.
  destruct pos as [clat clng tlat tlng [|] upd]; cbn -[lookup alter];
    rewrite !list_lookup_alter_eq, Hpos; split; reflexivity.
Qed.

(** The iteration for a plane that is within one step of its target and
    whose row is gone. *)
Lemma update_plane_orphan (t : R) (w : world) (plane_id : Z) (r : ref)
    (pos : Position) :
  heap w !! r = Some pos ->
  move_towards_target_raises (current_lat pos) (current_lng pos)
                             (target_lat pos) (target_lng pos)
                             (MOVEMENT_DISTANCE w) = false ->
  calculate_distance (current_lat pos) (current_lng pos)
                     (target_lat pos) (target_lng pos) <= MOVEMENT_DISTANCE w ->
  Dict.get plane_id (db w) = None ->
  plane_positions (update_plane t w (plane_id, r)) =
    Dict.del plane_id (plane_positions w).
Proof.
  intros Hpos Hok Hle Hrow. unfold update_plane. rewrite Hpos, Hok.
  unfold move_towards_target.
  destruct (Rle_dec _ _) as [_|]; [|contradiction].
  simpl. rewrite Hrow. destruct (is_going_to_end pos); reflexivity.
Qed.

(** The iteration for a plane that is more than one step away from its
    target. *)
Lemma update_plane_moving (t : R) (w : world) (plane_id : Z) (r : ref)
    (pos : Position) :
  heap w !! r = Some pos ->
  move_towards_target_raises (current_lat pos) (current_lng pos)
                             (target_lat pos) (target_lng pos)
                             (MOVEMENT_DISTANCE w) = false ->
  ~ calculate_distance (current_lat pos) (current_lng pos)
                       (target_lat pos) (target_lng pos) <= MOVEMENT_DISTANCE w ->
  let '(new_lat, new_lng) :=
    move_distance_with_bearing
      (current_lat pos) (current_lng pos) (MOVEMENT_DISTANCE w)
      (calculate_bearing (current_lat pos) (current_lng pos)
                         (target_lat pos) (target_lng pos)) in
  plane_positions (update_plane t w (plane_id, r)) = plane_positions w /\
  heap (update_plane t w (plane_id, r)) !! r =
    Some (mkPosition new_lat new_lng (target_lat pos) (target_lng pos)
                     (is_going_to_end pos) t).
Proof.
  intros Hpos Hok Hgt. unfold update_plane. rewrite Hpos, Hok.
  unfold move_towards_target.
  destruct (Rle_dec _ _) as [|_]; [contradiction|].
  destruct (move_distance_with_bearing _ _ _ _) as [new_lat new_lng].
  cbn -[lookup alter]. rewrite list_lookup_alter_eq, Hpos. auto.
Qed.

(** The iteration for a plane on which [move_towards_target] raises. *)
Lemma update_plane_failed (t : R) (w : world) (plane_id : Z) (r : ref)
    (pos : Position) :
  heap w !! r = Some pos ->
  move_towards_target_raises (current_lat pos) (current_lng pos)
                             (target_lat pos) (target_lng pos)
                             (MOVEMENT_DISTANCE w) = true ->
  update_plane t w (plane_id, r) = w.
Proof.
  intros Hpos Hraises. unfold update_plane. now rewrite Hpos, Hraises.
Qed.

Lemma view_lookup (w : world) (plane_id : Z) (pos : Position) :
  view w plane_id = Some pos ->
  exists r, Dict.get plane_id (plane_positions w) = Some r /\ heap w !! r = Some pos.
Proof.
  unfold view. destruct (Dict.get plane_id (plane_positions w)) as [r|];
    [|discriminate].
  intros H. now exists r.
Qed.

Import Examples GeoMathFacts.

Lemma arrived_is_near : forall step : R, 0 <= step ->
  calculate_distance (current_lat arrived) (current_lng arrived)
                     (target_lat arrived) (target_lng arrived) <= step.
Proof.
  intros step Hstep. simpl. now rewrite calculate_distance_same.
Qed.

Lemma arrival_world_well_formed : well_formed arrival_world.
Proof.
  unfold well_formed, arrival_world; simpl. repeat split.
  - apply NoDup_singleton.
  - apply NoDup_singleton.
  - repeat constructor.
Qed.

(** In [orphan_world] the tick removes plane 1 from the table. *)
Lemma orphan_is_removed (t : R) : view (update_positions t orphan_world) 1 = None.
Proof.
  unfold update_positions, orphan_world. cbn [plane_positions fold_left emit].
  unfold update_plane, move_towards_target.
  cbn -[Rle_dec calculate_distance move_towards_target_raises].
  rewrite move_towards_target_in_domain, calculate_distance_same.
  destruct (Rle_dec 0 600) as [_|Hn]; [|exfalso; apply Hn; lra].
  reflexivity.
Qed.

End TickFacts.

(** ** Snapshots, retargeting and write-back *)

Module StoreFacts.
Import GeoMath Store DictFacts Examples.

(** A write through an entry of the mapping returned by [get_all_positions]
    lands in the dictionary the manager itself uses, and is seen through
    every other mapping returned earlier or later. *)
Lemma get_all_positions_shares (w : world) (plane_id : Z)
    (f : Position -> Position) :
  let '(copy1, w1) := get_all_positions w in
  let '(copy2, w2) := get_all_positions w1 in
  let w3 := mutate_entry copy1 plane_id f w2 in
  view w3 plane_id = f <$> view w plane_id /\
  deref w3 copy2 plane_id = f <$> view w plane_id.
Proof.
  unfold get_all_positions, mutate_entry, view, deref, modify.
  cbn -[lookup alter].
  destruct (Dict.get plane_id (plane_positions w)) as [r|] eqn:Hget;
    cbn -[lookup alter]; rewrite ?Hget; [|split; reflexivity].
  rewrite list_lookup_alter_eq. split; reflexivity.
Qed.

(** C2, on the code: two callers take a snapshot of [arrival_world]; the
    first writes a new position into the entry of plane 1 of its snapshot;
    the manager's own state of plane 1 and the second caller's snapshot both
    show the new position. *)
Theorem get_all_positions_copy_is_shallow :
  let '(copy1, w1) := get_all_positions arrival_world in
  let '(copy2, w2) := get_all_positions w1 in
  let w3 := mutate_entry copy1 1 (set_current 0 0 0) w2 in
  view w2 1 = Some arrived /\
  deref w2 copy2 1 = Some arrived /\
  view w3 1 = Some (mkPosition 0 0 11 21 true 0) /\
  deref w3 copy2 1 = Some (mkPosition 0 0 11 21 true 0) /\
  mkPosition 0 0 11 21 true 0 <> arrived.
Proof.
  cbn. repeat split; try reflexivity.
  unfold arrived. intros [= H _]. lra.
Qed.

(** C3, on the code: [three_planes] holds planes 1, 2 and 3 and the row of
    plane 2 is gone. The call returns after removing plane 2 from the table,
    but the loop is left by [RuntimeError] right after the removal: the
    write of plane 1 is rolled back and plane 3 is never written, so the
    rows of planes 1 and 3 still hold the old position. *)
Theorem save_to_database_rolls_back_on_prune :
  let w' := save_to_database three_planes in
  snd (save_to_database_try three_planes) = Some RuntimeError /\
  plane_positions w' = [(1%Z, 0%nat); (3%Z, 2%nat)] /\
  view w' 1 = Some (underway 10.1 20.1) /\
  view w' 3 = Some (underway 10.3 20.3) /\
  db w' = db three_planes /\
  Dict.get 1 (db w') = Some (route "TK1" (Point.mk 20 10) true) /\
  Dict.get 3 (db w') = Some (route "TK3" (Point.mk 20 10) true) /\
  trace w' = [AtomicEnter; LockAcquire; DbGet 1; DbSave 1; DbGet 2;
              LockRelease; AtomicRollback].
Proof.
  cbn. repeat split; reflexivity.
Qed.

(** Once the table has lost an item, the loop of [save_to_database] stops
    with [RuntimeError] at its next step. *)
Lemma save_loop_size_changed (used : nat) (items : Dict.t nat) (w : world) :
  length (plane_positions w) <> used ->
  save_loop used items w = (w, Some RuntimeError).
Proof.
  intros Hne. apply Nat.eqb_neq in Hne.
  destruct items as [|[plane_id r] rest]; cbn [save_loop]; now rewrite Hne.
Qed.

(** When some plane of the table has no row, the loop is left by
    [RuntimeError]. *)
Lemma save_loop_raises (used : nat) (items : Dict.t nat) :
  forall w : world,
    length (plane_positions w) = used ->
    (forall plane_id r, In (plane_id, r) items ->
       In plane_id (Dict.keys (plane_positions w))) ->
    (exists plane_id r, In (plane_id, r) items /\
       Dict.get plane_id (db w) = None) ->
    snd (save_loop used items w) = Some RuntimeError.
Proof.
  induction items as [|[id0 r0] rest IH]; intros w Hused Hsub Hmissing.
  - destruct Hmissing as (? & ? & [] & _).
  - cbn [save_loop]. rewrite Hused, Nat.eqb_refl. cbn [negb].
    destruct (Dict.get id0 (db w)) as [plane|] eqn:Hrow.
    + assert (exists plane_id r, In (plane_id, r) rest /\
                Dict.get plane_id (db w) = None) as Hrest.
      { destruct Hmissing as (id & r & [Heq|Hin] & Hnone); [|eauto].
        injection Heq as <- <-. congruence. }
      assert (forall plane_id r, In (plane_id, r) rest ->
                In plane_id (Dict.keys (plane_positions w))) as Hsub'.
      { intros id r Hin. apply (Hsub id r). now right. }
      destruct (heap w !! r0) as [pos|]; apply IH; auto.
      destruct Hrest as (id & r & Hin & Hnone). exists id, r. split; [exact Hin|].
      cbn [db emit set_db]. rewrite get_set_ne; [exact Hnone|congruence].
    + rewrite save_loop_size_changed; [reflexivity|].
      cbn [plane_positions emit set_plane_positions].
      destruct (keys_get id0 (plane_positions w)) as [r Hr].
      { apply (Hsub id0 r0). now left. }
      apply length_del in Hr. lia.
Qed.

(** Whenever a plane of the table has no row, [save_to_database] prunes and
    persists nothing: the transaction is rolled back. *)
Lemma save_to_database_persists_nothing (w : world) (plane_id : Z) (r : nat) :
  In (plane_id, r) (plane_positions w) ->
  Dict.get plane_id (db w) = None ->
  snd (save_to_database_try w) = Some RuntimeError /\
  db (save_to_database w) = db w.
Proof.
  intros Hin Hnone.
  assert (snd (save_loop (length (plane_positions w)) (plane_positions w)
                 (emit LockAcquire (emit AtomicEnter w))) = Some RuntimeError)
    as Hraise.
  { apply save_loop_raises.
    - reflexivity.
    - intros id r' Hin'. now apply (in_map fst) in Hin'.
    - exists plane_id, r. split; [exact Hin|exact Hnone]. }
  unfold save_to_database, save_to_database_try.
  cbn [emit plane_positions] in *.
  destruct (save_loop _ _ _) as [w2 raised]. cbn [snd] in Hraise. subst raised.
  destruct (plane_positions w); [destruct Hin|]. split; reflexivity.
Qed.

(** When every plane of the table has a row, the loop ends normally, leaves
    the table and the dictionaries alone, and has written the position and
    the direction of every plane into its row. *)
Lemma save_loop_writes (used : nat) (items : Dict.t nat) :
  forall w : world,
    length (plane_positions w) = used ->
    NoDup (Dict.keys items) ->
    (forall plane_id r, In (plane_id, r) items ->
       Dict.get plane_id (db w) <> None) ->
    snd (save_loop used items w) = None /\
    plane_positions (fst (save_loop used items w)) = plane_positions w /\
    heap (fst (save_loop used items w)) = heap w /\
    (forall plane_id, ~ In plane_id (Dict.keys items) ->
       Dict.get plane_id (db (fst (save_loop used items w))) =
       Dict.get plane_id (db w)) /\
    (forall plane_id r pos plane,
       In (plane_id, r) items -> heap w !! r = Some pos ->
       Dict.get plane_id (db w) = Some plane ->
       Dict.get plane_id (db (fst (save_loop used items w))) =
         Some (Plane.mk (Plane.name plane) (Plane.pilot plane)
                        (Plane.start_point plane) (Plane.end_point plane)
                        (Point.mk (current_lng pos) (current_lat pos))
                        (is_going_to_end pos))).
Proof.
  induction items as [|[id0 r0] rest IH]; intros w Hused Hnd Hrows;
    cbn [save_loop]; rewrite Hused, Nat.eqb_refl; cbn [negb].
  - repeat apply conj; try reflexivity. intros ? ? ? ? [].
  - simpl in Hnd. apply NoDup_cons in Hnd as [Hid0 Hnd].
    rewrite list_elem_of_In in Hid0.
    destruct (Dict.get id0 (db w)) as [plane0|] eqn:Hrow0;
      [|exfalso; apply (Hrows id0 r0); [now left|exact Hrow0]].
    destruct (heap w !! r0) as [pos0|] eqn:Hpos0.
    + match goal with |- context [save_loop used rest ?w1] =>
        destruct (IH w1) as (Hnone & Htab & Hheap & Hother & Hwritten) end;
        [exact Hused|exact Hnd| |].
      { intros id r Hin. cbn [db emit set_db].
        destruct (Z.eq_dec id id0) as [->|Hne].
        - rewrite get_set_eq. discriminate.
        - rewrite get_set_ne by exact Hne. apply (Hrows id r). now right. }
      cbn [db emit set_db heap plane_positions] in *.
      repeat apply conj; auto.
      * intros id Hnot. simpl in Hnot. rewrite Hother by tauto.
        apply get_set_ne. intros ->. tauto.
      * intros id r pos plane [Heq|Hin] Hpos Hrow.
        -- injection Heq as <- <-. rewrite Hother by exact Hid0.
           rewrite get_set_eq. congruence.
        -- assert (id <> id0) as Hne.
           { intros ->. apply Hid0. now apply (in_map fst) in Hin. }
           apply (Hwritten id r pos plane Hin Hpos).
           now rewrite get_set_ne.
    + match goal with |- context [save_loop used rest ?w1] =>
        destruct (IH w1) as (Hnone & Htab & Hheap & Hother & Hwritten) end;
        [exact Hused|exact Hnd| |].
      { intros id r Hin. cbn [db emit]. apply (Hrows id r). now right. }
      cbn [db emit heap plane_positions] in *.
      repeat apply conj; auto.
      * intros id Hnot. simpl in Hnot. apply Hother. tauto.
      * intros id r pos plane [Heq|Hin] Hpos Hrow.
        -- injection Heq as <- <-. congruence.
        -- now apply (Hwritten id r pos plane Hin Hpos).
Qed.

(** When every plane of the table has a row, [save_to_database] writes the
    position and the direction of every plane into its row. *)
Lemma save_to_database_writes (w : world) (plane_id : Z) (r : nat)
    (pos : Position) (plane : Plane.t) :
  NoDup (Dict.keys (plane_positions w)) ->
  (forall other r', In (other, r') (plane_positions w) ->
     Dict.get other (db w) <> None) ->
  In (plane_id, r) (plane_positions w) ->
  heap w !! r = Some pos ->
  Dict.get plane_id (db w) = Some plane ->
  Dict.get plane_id (db (save_to_database w)) =
    Some (Plane.mk (Plane.name plane) (Plane.pilot plane)
                   (Plane.start_point plane) (Plane.end_point plane)
                   (Point.mk (current_lng pos) (current_lat pos))
                   (is_going_to_end pos)).
Proof.
  intros Hnd Hrows Hin Hpos Hrow.
  pose proof (save_loop_writes (length (plane_positions w)) (plane_positions w)
                (emit LockAcquire (emit AtomicEnter w)) eq_refl Hnd Hrows)
    as (Hnone & _ & _ & _ & Hwritten).
  specialize (Hwritten plane_id r pos plane Hin Hpos Hrow).
  unfold save_to_database, save_to_database_try.
  cbn [emit plane_positions] in *.
  destruct (save_loop _ _ _) as [w2 raised]. cbn [fst snd] in *. subst raised.
  destruct (plane_positions w); [destruct Hin|]. exact Hwritten.
Qed.

Lemma load_plane_well_formed (now : Z -> R) (w : world) (row : Z * Plane.t) :
  well_formed w -> well_formed (load_plane now w row).
Proof.
  intros (Hk & Hv & Hall). destruct row as [plane_id plane].
  unfold well_formed, load_plane.
  cbn [plane_positions heap set_plane_positions set_heap].
  rewrite Forall_forall in Hall.
  assert (~ In (length (heap w)) (Dict.values (plane_positions w))) as Hfresh.
  { intros Hin. apply list_elem_of_In, Hall in Hin. lia. }
  repeat apply conj.
  - now apply NoDup_keys_set.
  - now apply NoDup_values_set.
  - rewrite Forall_forall. intros r Hin. rewrite length_app. simpl.
    apply list_elem_of_In, values_set in Hin as [->|Hin]; [lia|].
    apply list_elem_of_In, Hall in Hin. lia.
Qed.

(** After [load_planes_from_db] every plane of the table has a dictionary
    of its own. *)
Lemma load_planes_from_db_well_formed (now : Z -> R) (w : world) :
  well_formed (load_planes_from_db now w).
Proof.
  unfold load_planes_from_db.
  assert (forall rows w0, well_formed w0 ->
            well_formed (fold_left (load_plane now) rows w0)) as Hfold.
  { induction rows as [|row rows IH]; intros w0 Hw0; cbn [fold_left];
      [exact Hw0|].
    apply IH. now apply load_plane_well_formed. }
  match goal with |- well_formed (emit _ ?w1) =>
    assert (well_formed w1) as Hw1 end.
  { apply Hfold. unfold well_formed. simpl.
    repeat apply conj; constructor. }
  exact Hw1.
Qed.

Lemma well_formed_emit (e : event) (w : world) :
  well_formed w -> well_formed (emit e w).
Proof. intros H. exact H. Qed.

Lemma well_formed_set_db (rows : Dict.t Plane.t) (w : world) :
  well_formed w -> well_formed (set_db rows w).
Proof. intros H. exact H. Qed.

Lemma well_formed_modify (r : nat) (f : Position -> Position) (w : world) :
  well_formed w -> well_formed (modify r f w).
Proof.
  intros (Hk & Hv & Hall). unfold well_formed, modify.
  cbn [plane_positions heap set_heap]. rewrite length_alter. auto.
Qed.

Lemma well_formed_del (plane_id : Z) (w : world) :
  well_formed w ->
  well_formed (set_plane_positions (Dict.del plane_id (plane_positions w)) w).
Proof.
  intros (Hk & Hv & Hall). unfold well_formed.
  cbn [plane_positions heap set_plane_positions].
  repeat apply conj.
  - now apply NoDup_keys_del.
  - now apply NoDup_values_del.
  - rewrite Forall_forall in *. intros r Hin. apply Hall.
    apply list_elem_of_In. apply list_elem_of_In in Hin.
    now apply values_del_subset in Hin.
Qed.

Lemma well_formed_del_emit (plane_id : Z) (e : event) (w : world) :
  well_formed w ->
  well_formed (set_plane_positions (Dict.del plane_id (plane_positions w))
                                   (emit e w)).
Proof. intros Hw. exact (well_formed_del plane_id w Hw). Qed.

Lemma update_plane_well_formed (t : R) (w : world) (item : Z * nat) :
  well_formed w -> well_formed (update_plane t w item).
Proof.
  intros Hw. destruct item as [plane_id r]. unfold update_plane.
  destruct (heap w !! r) as [pos|]; [|exact Hw].
  destruct (move_towards_target_raises _ _ _ _ _); [exact Hw|].
  destruct (move_towards_target _ _ _ _ _) as [[new_lat new_lng] [|]];
    [|now apply well_formed_modify].
  cbv zeta.
  destruct (negb (is_going_to_end pos));
    destruct (Dict.get _ (db _)) as [plane|];
    repeat first [ apply well_formed_modify
                 | apply well_formed_emit
                 | apply well_formed_del_emit
                 | exact Hw ].
Qed.

(** The operations of the manager keep every plane of the table with a
    dictionary of its own. *)
Lemma update_positions_well_formed (t : R) (w : world) :
  well_formed w -> well_formed (update_positions t w).
Proof.
  intros Hw. unfold update_positions.
  destruct (plane_positions w) as [|item items] eqn:Htable; [exact Hw|].
  clear Htable. apply well_formed_emit. cbn [plane_positions emit].
  assert (forall l w0, well_formed w0 ->
            well_formed (fold_left (update_plane t) l w0)) as Hfold.
  { induction l as [|x l IH]; intros w0 Hw0; cbn [fold_left]; [exact Hw0|].
    apply IH. now apply update_plane_well_formed. }
  apply Hfold. now apply well_formed_emit.
Qed.

Lemma save_loop_well_formed (used : nat) (items : Dict.t nat) :
  forall w, well_formed w -> well_formed (fst (save_loop used items w)).
Proof.
  induction items as [|[plane_id r] rest IH]; intros w Hw; cbn [save_loop].
  - destruct (negb _); exact Hw.
  - destruct (negb _); [exact Hw|].
    destruct (Dict.get plane_id (db w)) as [plane|].
    + destruct (heap w !! r) as [pos|]; apply IH; exact Hw.
    + apply IH. now apply well_formed_del_emit.
Qed.

Lemma save_to_database_well_formed (w : world) :
  well_formed w -> well_formed (save_to_database w).
Proof.
  intros Hw. unfold save_to_database, save_to_database_try.
  destruct (plane_positions w) as [|item items] eqn:Htable; [exact Hw|].
  clear Htable. cbn [plane_positions emit].
  pose proof (save_loop_well_formed (length (plane_positions w))
                (plane_positions w) (emit LockAcquire (emit AtomicEnter w)) Hw)
    as Hloop.
  destruct (save_loop _ _ _) as [w2 [e|]]; exact Hloop.
Qed.

Lemma update_plane_target_well_formed (plane_id : Z) (new_lat new_lng : R)
    (w : world) :
  well_formed w ->
  well_formed (snd (update_plane_target plane_id new_lat new_lng w)).
Proof.
  intros Hw. unfold update_plane_target. cbn [plane_positions emit].
  destruct (Dict.get plane_id (plane_positions w)) as [r|]; cbn [snd];
    [|exact Hw].
  apply well_formed_emit, well_formed_modify, Hw.
Qed.

Lemma get_injective {V} (k k' : Z) (v : V) (d : Dict.t V) :
  NoDup (Dict.values d) ->
  Dict.get k d = Some v -> Dict.get k' d = Some v -> k = k'.
Proof.
  induction d as [|[k0 v0] d IH]; simpl; [discriminate|].
  intros Hnd. apply NoDup_cons in Hnd as [Hnotin Hnd].
  rewrite list_elem_of_In in Hnotin.
  destruct (Z.eqb_spec k k0) as [->|Hk], (Z.eqb_spec k' k0) as [->|Hk'].
  - reflexivity.
  - intros [= ->] Hget. exfalso. apply Hnotin.
    apply get_In in Hget. now apply (in_map snd) in Hget.
  - intros Hget [= ->]. exfalso. apply Hnotin.
    apply get_In in Hget. now apply (in_map snd) in Hget.
  - now apply IH.
Qed.

Lemma well_formed_allocated (w : world) (plane_id : Z) (r : nat) :
  well_formed w -> Dict.get plane_id (plane_positions w) = Some r ->
  exists pos, heap w !! r = Some pos.
Proof.
  intros (_ & _ & Hall) Hget.
  rewrite Forall_forall in Hall.
  apply get_In in Hget. apply (in_map snd) in Hget.
  apply list_elem_of_In, Hall in Hget.
  now apply lookup_lt_is_Some_2 in Hget.
Qed.

(** C4: [update_plane_target] never changes the table; for an id that is not
    in the table it returns [False] and changes no dictionary; for an id in
    the table it returns [True], the plane keeps its position, direction and
    time stamp and gets the new target, and every other plane is as
    before. *)
Theorem update_plane_target_spec (plane_id : Z) (new_lat new_lng : R) (w : world) :
  well_formed w ->
  let '(found, w') := update_plane_target plane_id new_lat new_lng w in
  plane_positions w' = plane_positions w /\
  match Dict.get plane_id (plane_positions w) with
  | None => found = false /\ heap w' = heap w
  | Some _ =>
      found = true /\
      (exists pos,
         view w plane_id = Some pos /\
         view w' plane_id =
           Some (mkPosition (current_lat pos) (current_lng pos) new_lat new_lng
                            (is_going_to_end pos) (last_updated pos))) /\
      (forall other, other <> plane_id -> view w' other = view w other)
  end.
Proof.
  intros Hwf. unfold update_plane_target. cbn [emit plane_positions].
  destruct (Dict.get plane_id (plane_positions w)) as [r|] eqn:Hget.
  - cbn [emit modify set_heap plane_positions]. split; [reflexivity|].
    split; [reflexivity|]. split.
    + destruct (well_formed_allocated w plane_id r Hwf Hget) as [pos Hpos].
      exists pos. unfold view. cbn [emit modify set_heap plane_positions heap].
      rewrite Hget, list_lookup_alter_eq, Hpos. split; reflexivity.
    + intros other Hne. unfold view.
      cbn [emit modify set_heap plane_positions heap].
      destruct (Dict.get other (plane_positions w)) as [r'|] eqn:Hother;
        [|reflexivity].
      apply list_lookup_alter_ne. intros ->.
      destruct Hwf as (_ & Hv & _).
      apply Hne. exact (get_injective other plane_id _ _ Hv Hother Hget).
  - cbn [emit plane_positions heap]. repeat split.
Qed.

(** C4, witness: retargeting plane 1 of [arrival_world], and an id that is
    not loaded. *)
Lemma update_plane_target_spec_witness :
  (let '(found, w') := update_plane_target 1 10 10 arrival_world in
   found = true /\ view w' 1 = Some (mkPosition 11 21 10 10 true 0)) /\
  (let '(found, w') := update_plane_target 2 10 10 arrival_world in
   found = false /\ heap w' = heap arrival_world /\
   plane_positions w' = plane_positions arrival_world).
Proof.
  pose proof (update_plane_target_spec 1 10 10 arrival_world
                TickFacts.arrival_world_well_formed) as H1.
  pose proof (update_plane_target_spec 2 10 10 arrival_world
                TickFacts.arrival_world_well_formed) as H2.
  split.
  - destruct (update_plane_target 1 10 10 arrival_world) as [found w'].
    destruct H1 as (_ & Hfound & (pos & Hpos & Hview) & _).
    cbn in Hpos. injection Hpos as <-. now split.
  - destruct (update_plane_target 2 10 10 arrival_world) as [found w'].
    destruct H2 as (Htab & Hfound & Hheap). now repeat split.
Defined.

End StoreFacts.

(** ** Where the lock is held *)

Module LockFacts.
Import GeoMath Store Examples.

Lemma io_inside_lock_row_accesses (l rest : list event) :
  forallb is_row_access l = true ->
  io_inside_lock true (l ++ rest) = io_inside_lock true rest.
Proof.
  induction l as [|e l IH]; simpl; [reflexivity|].
  intros H. apply andb_prop in H as [He Hl].
  destruct e; try discriminate; simpl; auto.
Qed.

Lemma update_plane_trace (t : R) (w : world) (item : Z * nat) :
  exists l, trace (update_plane t w item) = trace w ++ l /\
            forallb is_row_access l = true.
Proof.
  destruct item as [plane_id r]. unfold update_plane.
  destruct (heap w !! r) as [pos|]; [|exists []; now rewrite app_nil_r].
  destruct (move_towards_target_raises _ _ _ _ _);
    [exists []; now rewrite app_nil_r|].
  destruct (move_towards_target _ _ _ _ _) as [[new_lat new_lng] [|]];
    [|exists []; simpl; now rewrite app_nil_r].
  destruct (negb (is_going_to_end pos));
    destruct (Dict.get _ (db _)) as [plane|];
    exists [DbGet plane_id]; split; reflexivity.
Qed.

Lemma fold_update_plane_trace (t : R) (items : Dict.t nat) :
  forall w, exists l,
    trace (fold_left (update_plane t) items w) = trace w ++ l /\
    forallb is_row_access l = true.
Proof.
  induction items as [|item rest IH]; intros w; cbn [fold_left].
  - exists []. now rewrite app_nil_r.
  - destruct (IH (update_plane t w item)) as (l2 & H2 & Hl2).
    destruct (update_plane_trace t w item) as (l1 & H1 & Hl1).
    exists (l1 ++ l2). split.
    + now rewrite H2, H1, app_assoc.
    + rewrite forallb_app. now rewrite Hl1, Hl2.
Qed.

Lemma save_loop_trace (used : nat) (items : Dict.t nat) :
  forall w, exists l,
    trace (fst (save_loop used items w)) = trace w ++ l /\
    forallb is_row_access l = true.
Proof.
  induction items as [|[plane_id r] rest IH]; intros w; cbn [save_loop].
  - destruct (negb _); exists []; now rewrite app_nil_r.
  - destruct (negb _); [exists []; now rewrite app_nil_r|].
    destruct (Dict.get plane_id (db w)) as [plane|].
    + destruct (heap w !! r) as [pos|].
      * match goal with |- context [save_loop used rest ?w1] =>
          destruct (IH w1) as (l & Hl & Hall) end.
        exists ([DbGet plane_id; DbSave plane_id] ++ l). split.
        -- rewrite Hl. cbn [trace emit set_db].
           now rewrite <- !app_assoc.
        -- exact Hall.
      * match goal with |- context [save_loop used rest ?w1] =>
          destruct (IH w1) as (l & Hl & Hall) end.
        exists ([DbGet plane_id] ++ l). split.
        -- rewrite Hl. cbn [trace emit]. now rewrite <- !app_assoc.
        -- exact Hall.
    + match goal with |- context [save_loop used rest ?w1] =>
        destruct (IH w1) as (l & Hl & Hall) end.
      exists ([DbGet plane_id] ++ l). split.
      * rewrite Hl. cbn [trace emit set_plane_positions].
        now rewrite <- !app_assoc.
      * exact Hall.
Qed.

Lemma load_plane_trace (now : Z -> R) (rows : Dict.t Plane.t) :
  forall w, trace (fold_left (load_plane now) rows w) = trace w.
Proof.
  induction rows as [|[plane_id plane] rest IH]; intros w; cbn [fold_left];
    [reflexivity|].
  now rewrite IH.
Qed.

(** C9, as amended: the accessors and [update_plane_target] hold the lock
    around work in memory only; [load_planes_from_db], [update_positions]
    and [save_to_database] make every one of their database accesses while
    they hold the lock. *)
Theorem database_access_is_under_the_lock (w : world) (t : R) (now : Z -> R)
    (plane_id : Z) (new_lat new_lng : R) :
  no_io (events (fun w => snd (get_plane_position plane_id w)) w) = true /\
  no_io (events (fun w => snd (get_all_positions w)) w) = true /\
  no_io (events (fun w => snd (get_positions_with_heading w)) w) = true /\
  no_io (events (fun w => snd (update_plane_target plane_id new_lat new_lng w)) w)
    = true /\
  io_inside_lock false (events (load_planes_from_db now) w) = true /\
  io_inside_lock false (events (update_positions t) w) = true /\
  io_inside_lock false (events save_to_database w) = true.
Proof.
  unfold events. repeat apply conj.
  - reflexivity.
  - reflexivity.
  - reflexivity.
  - unfold update_plane_target. cbn [emit plane_positions].
    destruct (Dict.get plane_id (plane_positions w)); reflexivity.
  - unfold load_planes_from_db. cbn [emit trace]. rewrite load_plane_trace.
    reflexivity.
  - unfold update_positions. cbn [plane_positions].
    destruct (plane_positions w) as [|item items] eqn:Htable; [reflexivity|].
    cbn [emit trace plane_positions].
    match goal with |- context [fold_left _ _ ?w1] =>
      destruct (fold_update_plane_trace t (item :: items) w1) as (l & Hl & Hall)
    end.
    rewrite Hl. cbn [trace emit app io_inside_lock].
    now rewrite io_inside_lock_row_accesses.
  - unfold save_to_database. cbn [plane_positions].
    destruct (plane_positions w) as [|item items] eqn:Htable; [reflexivity|].
    unfold save_to_database_try. cbn [emit plane_positions].
    match goal with |- context [save_loop ?n ?its ?w1] =>
      pose proof (save_loop_trace n its w1) as (l & Hl & Hall);
      destruct (save_loop n its w1) as [w2 [e|]]
    end; cbn [fst trace emit set_db] in *; rewrite Hl;
      cbn [trace emit app io_inside_lock];
      rewrite <- !app_assoc, io_inside_lock_row_accesses by exact Hall;
      reflexivity.
Qed.

(** C9, counterexample: the tick of [orphan_world] reads the row of plane 1
    between taking and releasing the lock, and so does the write-back of
    [three_planes] with the rows it reads and writes. *)
Lemma database_access_under_the_lock_happens :
  events (update_positions 0) orphan_world = [LockAcquire; DbGet 1; LockRelease] /\
  io_outside_lock false (events (update_positions 0) orphan_world) = false /\
  io_outside_lock false (events save_to_database three_planes) = false.
Proof.
  assert (events (update_positions 0) orphan_world
          = [LockAcquire; DbGet 1; LockRelease]) as Htick.
  { unfold events, update_positions, orphan_world.
    cbn [plane_positions fold_left emit heap MOVEMENT_DISTANCE db trace].
    unfold update_plane, move_towards_target.
    cbn -[Rle_dec calculate_distance move_towards_target_raises].
    rewrite GeoMathFacts.move_towards_target_in_domain,
            GeoMathFacts.calculate_distance_same.
    destruct (Rle_dec 0 600) as [_|Hn]; [|exfalso; apply Hn; lra].
    reflexivity. }
  rewrite Htick. repeat split; reflexivity.
Qed.

End LockFacts.

(** ** The filter state of a connection *)

Module SessionFacts.
Import GeoMath PyFloat Store Session Examples.

(** An update that names neither a complete radius filter nor a complete
    bounding box is answered with an error and leaves the session as it
    was. *)
Lemma receive_incomplete_update (float_of_str : string -> option pyfloat)
    (data : list (string * json)) (s : Consumer) :
  lookup_key "type" data = Some (JStr "update_filters") ->
  has_key "lat" data && has_key "lng" data && has_key "radius" data = false ->
  has_key "min_lat" data && has_key "max_lat" data &&
    has_key "min_lng" data && has_key "max_lng" data = false ->
  receive float_of_str (Some (JDict data)) s =
    mkOutcome s [Error "Invalid filter format"] None.
Proof.
  intros Htype Hradius Hbox. unfold receive.
  rewrite Htype. cbn [String.eqb Ascii.eqb Bool.eqb]. cbv iota.
  now rewrite Hradius, Hbox.
Qed.

(** An update whose first field does not convert is answered with an error
    and leaves the session as it was. *)
Lemma receive_bad_first_field (float_of_str : string -> option pyfloat)
    (data : list (string * json)) (s : Consumer) :
  lookup_key "type" data = Some (JStr "update_filters") ->
  has_key "lat" data && has_key "lng" data && has_key "radius" data = true ->
  float_key float_of_str "lat" data = Refused ->
  receive float_of_str (Some (JDict data)) s =
    mkOutcome s [Error "Invalid radius filter parameters"] None.
Proof.
  intros Htype Hradius Hlat. unfold receive.
  rewrite Htype. cbn [String.eqb Ascii.eqb Bool.eqb]. cbv iota.
  rewrite Hradius. unfold assign_radius, assign. now rewrite Hlat.
Qed.

(** An update that is accepted clears the filter of the other kind, and
    clearing the filters clears both. *)
Lemma receive_accepted_clears_other (float_of_str : string -> option pyfloat)
    (decoded : option json) (s : Consumer) :
  match sent (receive float_of_str decoded s) with
  | [FiltersUpdated _ (RadiusInfo _ _ _)] =>
      bounding_box_unset (session (receive float_of_str decoded s))
  | [FiltersUpdated _ (BoundingBoxInfo _ _ _ _)] =>
      radius_unset (session (receive float_of_str decoded s))
  | [FiltersCleared] =>
      radius_unset (session (receive float_of_str decoded s)) /\
      bounding_box_unset (session (receive float_of_str decoded s))
  | _ => True
  end.
Proof.
  unfold receive.
  destruct decoded as [[| | | | | |data]|]; cbn [sent]; try exact I.
  destruct (lookup_key "type" data) as [[| | | |message_type| |]|];
    cbn [sent]; try exact I.
  destruct (String.eqb message_type "update_filters").
  - destruct (has_key "lat" data && has_key "lng" data && has_key "radius" data).
    + destruct (assign_radius _ _ _ s) as [s' [| |e]]; cbn [sent session];
        [|exact I|exact I].
      repeat split.
    + destruct (has_key "min_lat" data && has_key "max_lat" data &&
                has_key "min_lng" data && has_key "max_lng" data);
        [|exact I].
      destruct (assign_bounding_box _ _ _ _ s) as [s' [| |e]];
        cbn [sent session]; [|exact I|exact I].
      repeat split.
  - destruct (String.eqb message_type "clear_filters"); cbn [sent session];
      [|exact I].
    repeat split.
Qed.

(** C5, on the code: a session filters 5 km around (1, 1); an update with
    latitude 2, longitude 3 and a radius that is not a number is answered
    with an error, but the latitude and the longitude have been overwritten
    by then, so the session now filters 5 km around (2, 3). *)
Theorem receive_bad_radius_moves_the_filter (float_of_str : string -> option pyfloat) :
  let out := receive float_of_str (Some bad_radius_update) radius_session in
  sent out = [Error "Invalid radius filter parameters"] /\
  raised out = None /\
  session out = mkConsumer (Some 2) (Some 3) (Some 5) None None None None true /\
  session out <> radius_session.
Proof.
  cbn. repeat apply conj; try reflexivity.
  unfold radius_session. intros [= H _]. lra.
Qed.

(** C8, on the code: a connection opened with both a radius filter and a
    bounding box in its query string stores all seven fields; the radius
    filter is the one reported. *)
Theorem connect_stores_both_filters :
  let out := connect float_of_digits both_filters_query new in
  raised out = None /\
  session out =
    mkConsumer (Some 1) (Some 2) (Some 3) (Some 4) (Some 5) (Some 6) (Some 7) true /\
  sent out = [ConnectionEstablished (Some (RadiusInfo (Some 1) (Some 2) (Some 3)))].
Proof.
  cbv zeta.
  assert (connect float_of_digits both_filters_query new =
          mkOutcome
            (mkConsumer (Some 1) (Some 2) (Some 3) (Some 4) (Some 5) (Some 6)
                        (Some 7) true)
            [ConnectionEstablished
               (connect_filter_info
                  (mkConsumer (Some 1) (Some 2) (Some 3) (Some 4) (Some 5)
                              (Some 6) (Some 7) false))]
            None) as Hconnect by reflexivity.
  rewrite Hconnect. cbn [raised session sent].
  repeat apply conj; try reflexivity.
  unfold connect_filter_info, radius_test, truthy.
  cbn [lat lng radius].
  repeat (destruct (Req_dec_T _ 0) as [Hz|_]; [exfalso; lra|]).
  reflexivity.
Qed.

End SessionFacts.

(** ** The filtered snapshot *)

Module FilterFacts.
Import GeoMath PyFloat Store Session Examples.

Lemma In_insert_by_id (row x : Row) (l : list Row) :
  In row (insert_by_id x l) <-> row = x \/ In row l.
Proof.
  induction l as [|y l IH]; simpl.
  - intuition congruence.
  - destruct (Z.leb (row_id x) (row_id y)); simpl.
    + intuition congruence.
    + rewrite IH. intuition congruence.
Qed.

Lemma In_sort_by_id (row : Row) (l : list Row) :
  In row (sort_by_id l) <-> In row l.
Proof.
  induction l as [|x l IH]; simpl; [tauto|].
  rewrite In_insert_by_id, IH. intuition congruence.
Qed.

(** The rows gathered by the loop are those of the planes that were not
    skipped. *)
Lemma fold_filter_item_rows (s : Consumer) (info : Dict.t (string * string))
    (items : Dict.t Heading) :
  forall (noted : option filter_info) (acc : list Row) (row : Row),
    In row (snd (fold_left (filter_item s info) items (noted, acc))) <->
    In row acc \/
    exists plane_id pos,
      In (plane_id, pos) items /\
      skip_plane s (h_current_lat pos) (h_current_lng pos) = false /\
      row = make_row info plane_id pos.
Proof.
  induction items as [|[id0 pos0] rest IH]; intros noted acc row;
    cbn [fold_left].
  - simpl. split; [tauto|]. intros [H|(?&?&[]&_)]. exact H.
  - unfold filter_item at 2.
    destruct (skip_plane s (h_current_lat pos0) (h_current_lng pos0)) eqn:Hskip;
      rewrite IH.
    + split.
      * intros [H|(id & pos & Hin & Hk & Hrow)]; [now left|].
        right. exists id, pos. simpl. auto.
      * intros [H|(id & pos & [Heq|Hin] & Hk & Hrow)]; [now left| |].
        -- injection Heq as <- <-. congruence.
        -- right. exists id, pos. auto.
    + rewrite in_app_iff. simpl. split.
      * intros [[H|[H|[]]]|(id & pos & Hin & Hk & Hrow)].
        -- now left.
        -- right. exists id0, pos0. auto.
        -- right. exists id, pos. auto.
      * intros [H|(id & pos & [Heq|Hin] & Hk & Hrow)].
        -- left. now left.
        -- injection Heq as <- <-. left. right. left. congruence.
        -- right. exists id, pos. auto.
Qed.

(** The planes emitted for a session are the rows of the planes of the
    table that the session's filter does not skip. *)
Lemma planes_get_filtered_positions (s : Consumer) (w : world) (row : Row) :
  In row (planes (fst (get_filtered_positions s w))) <->
  exists plane_id pos,
    In (plane_id, pos) (fst (get_positions_with_heading w)) /\
    skip_plane s (h_current_lat pos) (h_current_lng pos) = false /\
    row = make_row (fold_left plane_info_item (db w) []) plane_id pos.
Proof.
  unfold get_filtered_positions, get_positions_with_heading.
  cbn [fst emit db heap plane_positions].
  pose proof (fold_filter_item_rows s (fold_left plane_info_item (db w) [])
                (fold_left (heading_item (heap w)) (plane_positions w) [])
                None [] row) as Hrows.
  destruct (fold_left (filter_item s _) _ (None, [])) as [noted rows].
  cbn [fst snd planes] in *. rewrite In_sort_by_id, Hrows.
  simpl. tauto.
Qed.

Lemma truthy_Some (x : R) : truthy (Some x) = true <-> x <> 0.
Proof.
  unfold truthy. destruct (Req_dec_T x 0); split; congruence.
Qed.

Lemma gt_false (a b : R) : gt a b = false <-> a <= b.
Proof.
  unfold gt. destruct (Rlt_dec b a); split; intros; try congruence; lra.
Qed.

Lemma In_all_rows (w : world) (row : Row) :
  In row (all_rows w) <->
  exists plane_id pos,
    In (plane_id, pos) (fst (get_positions_with_heading w)) /\
    row = make_row (fold_left plane_info_item (db w) []) plane_id pos.
Proof.
  unfold all_rows. rewrite in_map_iff. split.
  - intros ([plane_id pos] & <- & Hin). now exists plane_id, pos.
  - intros (plane_id & pos & Hin & ->). now exists (plane_id, pos).
Qed.

(** The heading of a plane that stands on its target is 0. *)
Lemma calculate_bearing_same (lat lng : R) : calculate_bearing lat lng lat lng = 0.
Proof.
  unfold calculate_bearing. cbv zeta.
  replace (radians (lng - lng)) with 0 by (unfold radians; lra).
  rewrite sin_0, cos_0.
  replace (cos (radians lat) * sin (radians lat) -
           sin (radians lat) * cos (radians lat) * 1) with 0 by ring.
  replace (0 * cos (radians lat)) with 0 by ring.
  unfold atan2. destruct (Rlt_dec 0 0) as [H|_]; [lra|].
  replace (degrees 0 + 360) with 360 by (unfold degrees; lra).
  unfold pymod. rewrite <- (Int_part_spec (360 / 360) 1); simpl; lra.
Qed.

Lemma round1_0 : round1 0 = 0.
Proof.
  unfold round1, round_half_even. cbv zeta.
  replace (0 * 10) with 0 by ring.
  rewrite <- (Int_part_spec 0 0) by (simpl; lra).
  destruct (Rlt_dec (0 - 0) (1 / 2)) as [_|H]; [simpl; lra|exfalso; lra].
Qed.

Lemma all_rows_arrival_world :
  all_rows arrival_world = [mkRow 1 "TK1" "Pilot Yok" 21 11 0].
Proof.
  unfold all_rows, arrival_world, get_positions_with_heading.
  cbn [fst emit heap plane_positions fold_left heading_item db map].
  cbn [lookup list_lookup arrived]. unfold with_heading.
  cbn [current_lat current_lng target_lat target_lng is_going_to_end
       last_updated arrived].
  rewrite calculate_bearing_same, round1_0. reflexivity.
Qed.

(** A session without any filter skips no plane. *)
Lemma skip_plane_unfiltered (s : Consumer) (plane_lat plane_lng : R) :
  skip_plane (clear_bounding_box (clear_radius s)) plane_lat plane_lng = false.
Proof. reflexivity. Qed.

(** C7, as amended: under a radius filter in force whose centre and radius
    are numbers (set and non-zero), a plane is emitted exactly when the
    haversine distance in meters from its position to the centre is at most
    the radius times 1000; under a radius filter in force whose centre or
    radius is NaN, every plane is emitted. *)
Theorem radius_filter_keeps_planes_within_radius (s : Consumer) (w : world)
    (a b c : R) (row : Row) :
  (lat s = Some a -> lng s = Some b -> radius s = Some c ->
   a <> 0 -> b <> 0 -> c <> 0 ->
   (In row (planes (fst (get_filtered_positions s w))) <->
    In row (all_rows w) /\
    calculate_distance (row_lat row) (row_lng row) a b <= c * 1000)) /\
  (radius_test s = true ->
   lat s = Some NaN \/ lng s = Some NaN \/ radius s = Some NaN ->
   (In row (planes (fst (get_filtered_positions s w))) <->
    In row (all_rows w))).
Proof.
  split.
  - intros Hlat Hlng Hradius Ha Hb Hc.
    rewrite planes_get_filtered_positions, In_all_rows.
    assert (forall plane_lat plane_lng,
              skip_plane s plane_lat plane_lng =
              gt (calculate_distance plane_lat plane_lng a b) (c * 1000))
      as Hskip.
    { intros plane_lat plane_lng. unfold skip_plane, radius_test.
      rewrite Hlat, Hlng, Hradius.
      rewrite (proj2 (truthy_Some a) Ha), (proj2 (truthy_Some b) Hb),
              (proj2 (truthy_Some c) Hc).
      reflexivity. }
    split.
    + intros (plane_id & pos & Hin & Hkeep & ->). split.
      * now exists plane_id, pos.
      * rewrite Hskip in Hkeep. now apply gt_false in Hkeep.
    + intros [(plane_id & pos & Hin & ->) Hnear].
      exists plane_id, pos.
      split; [exact Hin|]. split; [|reflexivity].
      rewrite Hskip. now apply gt_false.
  - intros Htest Hnan.
    rewrite planes_get_filtered_positions, In_all_rows.
    assert (forall plane_lat plane_lng,
              skip_plane s plane_lat plane_lng = false) as Hskip.
    { intros plane_lat plane_lng. unfold skip_plane. rewrite Htest.
      cbv zeta. destruct Hnan as [H|[H|H]]; rewrite H; cbn [the default].
      - reflexivity.
      - destruct (the (lat s)); reflexivity.
      - destruct (distance_from _ _ _ _); reflexivity. }
    split.
    + intros (plane_id & pos & Hin & _ & ->). now exists plane_id, pos.
    + intros (plane_id & pos & Hin & ->). exists plane_id, pos.
      split; [exact Hin|]. split; [apply Hskip|reflexivity].
Qed.

(** C7, witness: plane 1 of [arrival_world] stands on the centre of the
    filter of [near_session], and is emitted. *)
Lemma radius_filter_keeps_planes_within_radius_witness :
  In (mkRow 1 "TK1" "Pilot Yok" 21 11 0)
     (planes (fst (get_filtered_positions near_session arrival_world))).
Proof.
  apply (proj1 (radius_filter_keeps_planes_within_radius
                  near_session arrival_world 11 21 5
                  (mkRow 1 "TK1" "Pilot Yok" 21 11 0)));
    try reflexivity; try lra.
  split.
  - rewrite all_rows_arrival_world. now left.
  - cbn [row_lat row_lng]. rewrite GeoMathFacts.calculate_distance_same. lra.
Defined.

(** C7, counterexample: the radius of [nan_session] is NaN, its filter is
    in force, and plane 1 of [arrival_world] is emitted although the test
    that its distance to the centre is at most the radius times 1000
    fails. *)
Lemma nan_radius_keeps_every_plane :
  radius_test nan_session = true /\
  In (mkRow 1 "TK1" "Pilot Yok" 21 11 0)
     (planes (fst (get_filtered_positions nan_session arrival_world))) /\
  le (distance_from 11 21 (the (lat nan_session)) (the (lng nan_session)))
     (times (the (radius nan_session)) 1000) = false.
Proof.
  assert (radius_test nan_session = true) as Htest.
  { unfold radius_test, nan_session, truthy. cbn [lat lng radius].
    destruct (Req_dec_T 1 0) as [H|_]; [lra|reflexivity]. }
  repeat apply conj.
  - exact Htest.
  - apply planes_get_filtered_positions.
    pose proof (proj1 (In_all_rows arrival_world
                         (mkRow 1 "TK1" "Pilot Yok" 21 11 0))) as Hrow.
    rewrite all_rows_arrival_world in Hrow.
    destruct (Hrow (or_introl eq_refl)) as (plane_id & pos & Hin & Heq).
    exists plane_id, pos. split; [exact Hin|]. split; [|exact Heq].
    unfold skip_plane. rewrite Htest. reflexivity.
  - reflexivity.
Qed.

Lemma truthy_zero : truthy (Some 0) = false.
Proof. unfold truthy. destruct (Req_dec_T 0 0); congruence. Qed.

Lemma zero_in_radius_test (s : Consumer) :
  zero_in_radius s -> radius_test s = false.
Proof.
  unfold radius_test. intros [H|[H|H]]; rewrite H, truthy_zero;
    rewrite ?andb_false_r; reflexivity.
Qed.

Lemma zero_in_bounding_box_test (s : Consumer) :
  zero_in_bounding_box s -> bounding_box_test s = false.
Proof.
  unfold bounding_box_test. intros [H|[H|[H|H]]]; rewrite H, truthy_zero;
    rewrite ?andb_false_r; reflexivity.
Qed.

Lemma fold_left_pointwise {A B} (f g : A -> B -> A) (l : list B) :
  (forall a b, f a b = g a b) -> forall a, fold_left f l a = fold_left g l a.
Proof.
  intros Hfg. induction l as [|b l IH]; intros a; simpl; [reflexivity|].
  now rewrite Hfg, IH.
Qed.

(** A radius filter that fails its truth test is as good as cleared. *)
Lemma filter_item_clear_radius (s : Consumer) (info : Dict.t (string * string))
    (acc : option filter_info * list Row) (item : Z * Heading) :
  radius_test s = false ->
  filter_item s info acc item = filter_item (clear_radius s) info acc item.
Proof.
  intros Htest. destruct acc as [noted rows], item as [plane_id pos].
  unfold filter_item, skip_plane, note_filter. rewrite Htest.
  reflexivity.
Qed.

(** A bounding box that fails its truth test is as good as cleared. *)
Lemma filter_item_clear_bounding_box (s : Consumer)
    (info : Dict.t (string * string))
    (acc : option filter_info * list Row) (item : Z * Heading) :
  bounding_box_test s = false ->
  filter_item s info acc item = filter_item (clear_bounding_box s) info acc item.
Proof.
  intros Htest. destruct acc as [noted rows], item as [plane_id pos].
  unfold filter_item, skip_plane, note_filter. rewrite Htest.
  change (radius_test (clear_bounding_box s)) with (radius_test s).
  destruct (radius_test s); reflexivity.
Qed.

Lemma get_filtered_positions_pointwise (s s' : Consumer) (w : world) :
  (forall info acc item, filter_item s info acc item = filter_item s' info acc item) ->
  get_filtered_positions s w = get_filtered_positions s' w.
Proof.
  intros Hsame. unfold get_filtered_positions.
  destruct (get_positions_with_heading w) as [positions w1].
  now rewrite (fold_left_pointwise _ _ _ (Hsame _)).
Qed.

(** With neither filter in force the loop notes no filter and keeps every
    row. *)
Lemma fold_filter_item_unfiltered (s : Consumer) (info : Dict.t (string * string))
    (items : Dict.t Heading) :
  radius_test s = false -> bounding_box_test s = false ->
  forall (noted : option filter_info) (acc : list Row),
    fold_left (filter_item s info) items (noted, acc) =
    (noted, acc ++ map (fun item => make_row info (fst item) (snd item)) items).
Proof.
  intros Hradius Hbox.
  induction items as [|[plane_id pos] rest IH]; intros noted acc;
    cbn [fold_left map].
  - now rewrite app_nil_r.
  - unfold filter_item at 2, skip_plane, note_filter.
    rewrite Hradius, Hbox, IH, <- app_assoc. reflexivity.
Qed.

(** C10: a stored radius filter with a zero parameter gives the same
    snapshot as no radius filter, and a stored bounding box with a zero
    bound gives the same snapshot as no bounding box; when the other kind of
    filter is not in force either, the snapshot names no filter and holds
    the row of every plane of the table. *)
Theorem zero_parameter_switches_filter_off (s : Consumer) (w : world) :
  (zero_in_radius s ->
   get_filtered_positions s w = get_filtered_positions (clear_radius s) w) /\
  (zero_in_bounding_box s ->
   get_filtered_positions s w = get_filtered_positions (clear_bounding_box s) w) /\
  ((zero_in_radius s /\ bounding_box_test s = false) \/
   (zero_in_bounding_box s /\ radius_test s = false) ->
   filters (fst (get_filtered_positions s w)) = None /\
   planes (fst (get_filtered_positions s w)) = sort_by_id (all_rows w) /\
   count (fst (get_filtered_positions s w)) = length (all_rows w)).
Proof.
  repeat apply conj.
  - intros Hzero. apply get_filtered_positions_pointwise.
    intros info acc item. apply filter_item_clear_radius.
    now apply zero_in_radius_test.
  - intros Hzero. apply get_filtered_positions_pointwise.
    intros info acc item. apply filter_item_clear_bounding_box.
    now apply zero_in_bounding_box_test.
  - intros Hzero.
    assert (radius_test s = false /\ bounding_box_test s = false)
      as [Hradius Hbox].
    { destruct Hzero as [[Hz Hb]|[Hz Hr]]; split;
        auto using zero_in_radius_test, zero_in_bounding_box_test. }
    unfold get_filtered_positions, all_rows.
    destruct (get_positions_with_heading w) as [positions w1] eqn:Hpositions.
    assert (db w1 = db w) as Hdb.
    { unfold get_positions_with_heading in Hpositions.
      injection Hpositions as _ <-. reflexivity. }
    cbn [emit db]. rewrite Hdb.
    rewrite (fold_filter_item_unfiltered s _ _ Hradius Hbox None []).
    cbn [fst app planes filters count]. repeat apply conj; try reflexivity.
    clear. induction (map _ positions) as [|row rows IH]; [reflexivity|].
    cbn [sort_by_id fold_right length]. fold (sort_by_id rows).
    rewrite <- IH. clear IH.
    induction (sort_by_id rows) as [|first rest IH]; [reflexivity|].
    cbn [insert_by_id]. destruct (Z.leb _ _); cbn [length]; [reflexivity|].
    now rewrite IH.
Qed.

(** C10, witness: a radius filter around a point of the equator, and a
    bounding box whose southern bound is the equator. *)
Lemma zero_parameter_switches_filter_off_witness :
  let equator := mkConsumer (Some 0) (Some 29) (Some 50) None None None None true in
  let north := mkConsumer None None None (Some 0) (Some 45) (Some 26) (Some 45) true in
  planes (fst (get_filtered_positions equator arrival_world))
    = sort_by_id (all_rows arrival_world) /\
  planes (fst (get_filtered_positions north arrival_world))
    = sort_by_id (all_rows arrival_world).
Proof.
  cbv zeta. split.
  - refine (proj1 (proj2 (proj2 (proj2
      (zero_parameter_switches_filter_off
         (mkConsumer (Some 0) (Some 29) (Some 50) None None None None true)
         arrival_world)) _))).
    left. split; [left; reflexivity | reflexivity].
  - refine (proj1 (proj2 (proj2 (proj2
      (zero_parameter_switches_filter_off
         (mkConsumer None None None (Some 0) (Some 45) (Some 26) (Some 45) true)
         arrival_world)) _))).
    right. split; [left; reflexivity | reflexivity].
Defined.

End FilterFacts.

(** ** More on the geometry of [movement_utils.py] *)

Module GeoMathMore.
Import GeoMath GeoMathFacts.

Lemma atan2_nonneg_quadrant (y x : R) :
  0 <= y -> 0 <= x -> 0 <= atan2 y x <= PI / 2.
Proof.
  intros Hy Hx. unfold atan2. pose proof PI_RGT_0 as Hpi.
  destruct (Rlt_dec 0 x) as [Hpos|Hnpos].
  - pose proof (atan_bound (y / x)) as [_ Hub].
    split; [|lra].
    destruct Hy as [Hy|<-].
    + left. rewrite <- atan_0. apply atan_increasing.
      now apply Rdiv_lt_0_compat.
    + replace (0 / x) with 0 by (field; lra). rewrite atan_0. lra.
  - destruct (Rlt_dec x 0); [lra|].
    destruct (Rlt_dec 0 y); [lra|].
    destruct (Rlt_dec y 0); lra.
Qed.

Lemma atan2_0_nonneg (x : R) : 0 <= x -> atan2 0 x = 0.
Proof.
  intros Hx. unfold atan2.
  destruct (Rlt_dec 0 x).
  - replace (0 / x) with 0 by (field; lra). apply atan_0.
  - destruct (Rlt_dec x 0); [lra|].
    destruct (Rlt_dec 0 0); [lra|]. reflexivity.
Qed.

Lemma pymod_range (a b : R) : 0 < b -> 0 <= pymod a b < b.
Proof.
  intros Hb. unfold pymod.
  destruct (base_Int_part (a / b)) as [Hle Hgt].
  assert (a = b * (a / b)) as Ha by (field; lra).
  set (q := IZR (Int_part (a / b))) in *.
  assert (b * q <= b * (a / b)) by (apply Rmult_le_compat_l; lra).
  assert (b * (a / b - 1) < b * q) by (apply Rmult_lt_compat_l; lra).
  split; lra.
Qed.

Lemma haversine_term_sym (u v : R) :
  sin (radians (u - v) / 2) ^ 2 = sin (radians (v - u) / 2) ^ 2.
Proof.
  replace (radians (u - v) / 2) with (- (radians (v - u) / 2))
    by (unfold radians; lra).
  rewrite sin_neg. ring.
Qed.

(** X1: the haversine distance does not depend on the order of the two
    points. *)
Theorem calculate_distance_symmetric (lat1 lng1 lat2 lng2 : R) :
  calculate_distance lat1 lng1 lat2 lng2 = calculate_distance lat2 lng2 lat1 lng1.
Proof.
  unfold calculate_distance. cbv zeta.
  rewrite (haversine_term_sym lat2 lat1), (haversine_term_sym lng2 lng1).
  rewrite (Rmult_comm (cos (radians lat1)) (cos (radians lat2))).
  reflexivity.
Qed.

(** X2: the haversine distance is never negative and never more than half
    the circumference of the sphere. *)
Theorem calculate_distance_range (lat1 lng1 lat2 lng2 : R) :
  0 <= calculate_distance lat1 lng1 lat2 lng2 <= EARTH_RADIUS * PI.
Proof.
  unfold calculate_distance. cbv zeta.
  match goal with |- context [atan2 (sqrt ?a) (sqrt ?b)] =>
    pose proof (atan2_nonneg_quadrant (sqrt a) (sqrt b)
                  (sqrt_pos a) (sqrt_pos b)) as [Hlo Hhi];
    set (c := atan2 (sqrt a) (sqrt b)) in *
  end.
  unfold EARTH_RADIUS. pose proof PI_RGT_0. split; nra.
Qed.

(** X3: the bearing is normalised to the half-open interval from 0 to 360
    degrees. *)
Theorem calculate_bearing_range (lat1 lng1 lat2 lng2 : R) :
  0 <= calculate_bearing lat1 lng1 lat2 lng2 < 360.
Proof.
  unfold calculate_bearing. cbv zeta. apply pymod_range. lra.
Qed.

(** X5: the latitude returned by [move_distance_with_bearing] is a valid
    latitude, whatever the arguments. *)
Theorem move_distance_with_bearing_latitude_range (lat lng d b : R) :
  -90 <= fst (move_distance_with_bearing lat lng d b) <= 90.
Proof.
  unfold move_distance_with_bearing. cbv zeta. cbn [fst].
  match goal with |- context [asin ?x] =>
    pose proof (asin_bound x) as [Hlo Hhi]; set (phi := asin x) in *
  end.
  assert (- PI <= 2 * phi <= PI) as Hphi by lra.
  pose proof (degrees_bound (2 * phi) Hphi) as Hdeg.
  unfold degrees in *. pose proof PI_RGT_0.
  replace (2 * phi * 180 / PI) with (2 * (phi * 180 / PI)) in Hdeg
    by (field; lra).
  lra.
Qed.

(** A quarter of the equator, from (0, 0) to (0, 90). *)
Lemma calculate_distance_quarter_turn :
  calculate_distance 0 0 0 90 = EARTH_RADIUS * (PI / 2).
Proof.
  unfold calculate_distance. cbv zeta.
  assert (radians 0 = 0) as -> by (unfold radians; lra).
  assert (radians (0 - 0) / 2 = 0) as -> by (unfold radians; lra).
  assert (radians (90 - 0) / 2 = PI / 4) as -> by (unfold radians; lra).
  rewrite sin_0, cos_0, sin_PI4.
  assert (0 < sqrt 2) as Hs2 by (apply sqrt_lt_R0; lra).
  assert (sqrt 2 * sqrt 2 = 2) as Hsq by (apply sqrt_sqrt; lra).
  assert (0 ^ 2 + 1 * 1 * (1 / sqrt 2) ^ 2 = 1 / 2) as ->.
  { simpl. field_simplify; [|lra]. rewrite <- Hsq at 2.
    field. lra. }
  replace (1 - 1 / 2) with (1 / 2) by lra.
  assert (0 < sqrt (1 / 2)) as Hh by (apply sqrt_lt_R0; lra).
  unfold atan2. destruct (Rlt_dec 0 (sqrt (1 / 2))); [|contradiction].
  replace (sqrt (1 / 2) / sqrt (1 / 2)) with 1 by (field; lra).
  rewrite atan_1. lra.
Qed.

End GeoMathMore.

(** ** The geometry of one step *)

Module Geodesy.
Import GeoMath GeoMathFacts GeoMathMore.

Lemma atan2_scale (k y x : R) : 0 < k -> atan2 (k * y) (k * x) = atan2 y x.
Proof.
  intros Hk. unfold atan2.
  assert (x <> 0 -> k * y / (k * x) = y / x) as Hquot
    by (intros Hx; field; split; lra).
  destruct (Rlt_dec 0 x) as [Hx|Hx].
  - destruct (Rlt_dec 0 (k * x)) as [_|Hkx]; [|exfalso; nra].
    rewrite Hquot by lra. reflexivity.
  - destruct (Rlt_dec 0 (k * x)) as [Hkx|_]; [exfalso; nra|].
    destruct (Rlt_dec x 0) as [Hx'|Hx'].
    + destruct (Rlt_dec (k * x) 0) as [_|Hkx]; [|exfalso; nra].
      rewrite Hquot by lra.
      destruct (Rle_dec 0 y), (Rle_dec 0 (k * y)); try reflexivity;
        exfalso; nra.
    + destruct (Rlt_dec (k * x) 0) as [Hkx|_]; [exfalso; nra|].
      destruct (Rlt_dec 0 y), (Rlt_dec 0 (k * y)); try (exfalso; nra);
        [reflexivity|].
      destruct (Rlt_dec y 0), (Rlt_dec (k * y) 0); try (exfalso; nra);
        reflexivity.
Qed.

Lemma atan2_sin_cos (theta : R) :
  - PI < theta <= PI -> atan2 (sin theta) (cos theta) = theta.
Proof.
  intros [Hlo Hhi]. pose proof PI_RGT_0 as Hpi.
  destruct (Rlt_dec theta (- (PI / 2))) as [Hlow|Hlow].
  - (* third quadrant *)
    assert (cos theta < 0) as Hcos.
    { rewrite <- cos_neg. apply cos_lt_0; lra. }
    assert (sin theta < 0) as Hsin.
    { rewrite <- (Ropp_involutive theta), sin_neg.
      assert (0 < sin (- theta)) by (apply sin_gt_0; lra). lra. }
    unfold atan2.
    destruct (Rlt_dec 0 (cos theta)); [lra|].
    destruct (Rlt_dec (cos theta) 0); [|lra].
    destruct (Rle_dec 0 (sin theta)); [lra|].
    replace (sin theta / cos theta) with (tan (theta + PI)).
    + rewrite atan_tan by lra. lra.
    + unfold tan. rewrite neg_sin, neg_cos. field. lra.
  - destruct (Req_dec_T theta (- (PI / 2))) as [->|Hne].
    + rewrite sin_neg, cos_neg, sin_PI2, cos_PI2. unfold atan2.
      repeat match goal with
             | |- context [Rlt_dec ?a ?b] => destruct (Rlt_dec a b); try lra
             end.
    + destruct (Rlt_dec theta (PI / 2)) as [Hmid|Hmid].
      * (* right half plane *)
        assert (0 < cos theta) as Hcos by (apply cos_gt_0; lra).
        unfold atan2. destruct (Rlt_dec 0 (cos theta)); [|lra].
        change (sin theta / cos theta) with (tan theta).
        apply atan_tan. lra.
      * destruct (Req_dec_T theta (PI / 2)) as [->|Hne'].
        -- rewrite sin_PI2, cos_PI2. unfold atan2.
           repeat match goal with
                  | |- context [Rlt_dec ?a ?b] => destruct (Rlt_dec a b); try lra
                  end.
        -- (* second quadrant *)
           assert (cos theta < 0) as Hcos by (apply cos_lt_0; lra).
           assert (0 <= sin theta) as Hsin by (apply sin_ge_0; lra).
           unfold atan2.
           destruct (Rlt_dec 0 (cos theta)); [lra|].
           destruct (Rlt_dec (cos theta) 0); [|lra].
           destruct (Rle_dec 0 (sin theta)); [|lra].
           replace (sin theta / cos theta) with (tan (theta - PI)).
           ++ rewrite atan_tan by lra. lra.
           ++ unfold tan.
              replace (theta - PI) with (- (PI - theta)) by ring.
              rewrite sin_neg, cos_neg.
              replace (PI - theta) with (- theta + PI) by ring.
              rewrite neg_sin, neg_cos, sin_neg, cos_neg. field. lra.
Qed.



Lemma radians_degrees (x : R) : radians (degrees x) = x.
Proof. unfold radians, degrees. field. pose proof PI_RGT_0. lra. Qed.

Lemma radians_minus (a b : R) : radians (a - b) = radians a - radians b.
Proof. unfold radians. lra. Qed.

(** The angle that [atan2] returns is the polar angle of the point. *)
Lemma atan2_polar (y x : R) :
  x <> 0 \/ y <> 0 ->
  cos (atan2 y x) = x / sqrt (x * x + y * y) /\
  sin (atan2 y x) = y / sqrt (x * x + y * y).
Proof.
  intros Hpoint. pose proof PI_RGT_0 as Hpi.
  assert (0 < x * x + y * y) as Hpos by (destruct Hpoint; nra).
  set (r := sqrt (x * x + y * y)).
  assert (0 < r) as Hr by (apply sqrt_lt_R0; exact Hpos).
  assert (r * r = x * x + y * y) as Hrr by (apply sqrt_sqrt; lra).
  set (u := x / r).
  assert (x = r * u) as Hx by (unfold u; field; lra).
  assert (x * x = r * r * (u * u)) as Hxx by (rewrite Hx at 1 2; ring).
  assert (u * u <= 1) as Huu.
  { assert (r * r * (u * u) <= r * r * 1) by nra.
    apply Rmult_le_reg_l with (r * r); nra. }
  assert (-1 <= u <= 1) as Hu by (split; nra).
  assert (1 - u * u = (y / r) * (y / r)) as Hsq.
  { apply Rmult_eq_reg_l with (r * r); [|nra].
    replace (r * r * (y / r * (y / r))) with (y * y) by (field; lra).
    nra. }
  destruct (Rle_dec 0 y) as [Hy|Hy].
  - assert (sin (acos u) = y / r) as Hsin.
    { rewrite sin_acos by exact Hu. unfold Rsqr. rewrite Hsq.
      apply sqrt_square. apply Rle_mult_inv_pos; lra. }
    assert (y = r * sin (acos u)) as Hy' by (rewrite Hsin; field; lra).
    assert (atan2 y x = acos u) as ->.
    { transitivity (atan2 (r * sin (acos u)) (r * cos (acos u))).
      - rewrite cos_acos by exact Hu. now rewrite <- Hy', <- Hx.
      - rewrite atan2_scale by exact Hr.
        apply atan2_sin_cos. pose proof (acos_bound u). lra. }
    rewrite cos_acos by exact Hu. split; [reflexivity|exact Hsin].
  - assert (sin (- acos u) = y / r) as Hsin.
    { rewrite sin_neg, sin_acos by exact Hu. unfold Rsqr. rewrite Hsq.
      replace (y / r * (y / r)) with ((- y / r) * (- y / r)) by (field; lra).
      rewrite sqrt_square; [field; lra|].
      apply Rle_mult_inv_pos; lra. }
    assert (cos (- acos u) = u) as Hcos by (rewrite cos_neg; now apply cos_acos).
    assert (acos u <> PI) as Hne.
    { intros Heq. rewrite Heq, sin_neg, sin_PI in Hsin.
      assert (y = 0) by (apply (Rmult_eq_reg_r (/ r));
                          [unfold Rdiv in Hsin; lra|apply Rinv_neq_0_compat; lra]).
      lra. }
    assert (y = r * sin (- acos u)) as Hy' by (rewrite Hsin; field; lra).
    assert (atan2 y x = - acos u) as ->.
    { transitivity (atan2 (r * sin (- acos u)) (r * cos (- acos u))).
      - rewrite Hcos. now rewrite <- Hy', <- Hx.
      - rewrite atan2_scale by exact Hr.
        apply atan2_sin_cos. pose proof (acos_bound u). lra. }
    split; [exact Hcos|exact Hsin].
Qed.

Lemma sin_half_sq (u : R) : sin (u / 2) ^ 2 = (1 - cos u) / 2.
Proof.
  replace u with (2 * (u / 2)) at 2 by field.
  rewrite cos_2a_sin. simpl. lra.
Qed.

Lemma cos_half_sq (u : R) : cos (u / 2) ^ 2 = (1 + cos u) / 2.
Proof.
  replace u with (2 * (u / 2)) at 2 by field.
  rewrite cos_2a_cos. simpl. lra.
Qed.

Lemma pymod_small (x : R) : 0 <= x < 360 -> pymod x 360 = x.
Proof.
  intros Hx. unfold pymod.
  rewrite <- (Int_part_spec (x / 360) 0); [simpl; lra|].
  simpl. split; [|apply Rle_mult_inv_pos; lra].
  assert (x / 360 < 1); [|lra]. apply Rmult_lt_reg_r with 360; [lra|].
  unfold Rdiv. rewrite Rmult_assoc, Rinv_l; lra.
Qed.

Lemma pymod_shift (x : R) : 0 <= x < 360 -> pymod (x + 360) 360 = x.
Proof.
  intros Hx. unfold pymod.
  rewrite <- (Int_part_spec ((x + 360) / 360) 1); [simpl; lra|].
  replace ((x + 360) / 360) with (x / 360 + 1) by field.
  assert (0 <= x / 360 < 1); [|simpl; lra]. split.
  - apply Rle_mult_inv_pos; lra.
  - apply Rmult_lt_reg_r with 360; [lra|].
    unfold Rdiv. rewrite Rmult_assoc, Rinv_l; lra.
Qed.

(** The spherical triangle of the destination formula: from the latitude
    [phi1], the angular distance [delta] and the bearing [theta] to the
    latitude [asin S] and the difference of longitude [dlam]. *)
Lemma projection_identities (phi1 delta theta : R) :
  let S := sin phi1 * cos delta + cos phi1 * sin delta * cos theta in
  let X := cos phi1 * cos delta - sin phi1 * sin delta * cos theta in
  let Y := sin theta * sin delta in
  let dlam := atan2 (sin theta * sin delta * cos phi1)
                    (cos delta - sin phi1 * sin (asin S)) in
  0 <= cos phi1 ->
  sin (asin S) = S /\
  cos phi1 * cos (asin S) * cos dlam = cos delta - sin phi1 * S /\
  (0 < cos phi1 ->
   cos (asin S) * sin dlam = Y /\ cos (asin S) * cos dlam = X).
Proof.
  intros S X Y dlam Hc1.
  pose proof (sin2_cos2 phi1) as E1. pose proof (sin2_cos2 delta) as Ed.
  pose proof (sin2_cos2 theta) as Et. unfold Rsqr in E1, Ed, Et.
  assert (-1 <= S <= 1) as HS.
  { pose proof (COS_bound theta) as Hc.
    pose proof (SIN_bound (phi1 + delta)) as Hplus.
    pose proof (SIN_bound (phi1 - delta)) as Hminus.
    rewrite sin_plus in Hplus. rewrite sin_minus in Hminus.
    unfold S. split; nra. }
  assert (sin (asin S) = S) as HsinS by (now apply sin_asin).
  set (C := cos (asin S)).
  assert (0 <= C) as HC.
  { unfold C. pose proof (asin_bound S). apply cos_ge_0; lra. }
  assert (C * C = 1 - S * S) as HCC.
  { pose proof (sin2_cos2 (asin S)) as E. unfold Rsqr in E.
    rewrite HsinS in E. unfold C. lra. }
  assert (S * S + X * X + Y * Y = 1) as Hunit.
  { assert (S * S + X * X + Y * Y =
            (sin phi1 * sin phi1 + cos phi1 * cos phi1) *
            (cos delta * cos delta +
             sin delta * sin delta * (cos theta * cos theta)) +
            sin delta * sin delta * (sin theta * sin theta)) as ->
      by (unfold S, X, Y; ring).
    rewrite E1.
    replace (1 * (cos delta * cos delta +
                  sin delta * sin delta * (cos theta * cos theta)) +
             sin delta * sin delta * (sin theta * sin theta))
      with (cos delta * cos delta +
            sin delta * sin delta *
            (sin theta * sin theta + cos theta * cos theta)) by ring.
    rewrite Et. lra. }
  assert (cos delta - sin phi1 * S = cos phi1 * X) as Hx.
  { assert (cos delta - sin phi1 * S - cos phi1 * X =
            cos delta * (1 - (sin phi1 * sin phi1 + cos phi1 * cos phi1)))
      as H by (unfold S, X; ring).
    rewrite E1 in H. lra. }
  assert (sin theta * sin delta * cos phi1 = cos phi1 * Y) as Hy
    by (unfold Y; ring).
  assert (0 < cos phi1 -> C * sin dlam = Y /\ C * cos dlam = X) as Hpolar.
  { intros Hpos.
    assert (dlam = atan2 Y X) as ->.
    { unfold dlam. rewrite HsinS, Hx, Hy. now apply atan2_scale. }
    destruct (Req_dec_T X 0) as [HX0|HX0];
      [destruct (Req_dec_T Y 0) as [HY0|HY0]|].
    - assert (C = 0) by nra. subst. rewrite HX0, HY0, H. lra.
    - destruct (atan2_polar Y X (or_intror HY0)) as [Hcos Hsin].
      assert (sqrt (X * X + Y * Y) = C) as Hr.
      { replace (X * X + Y * Y) with (C * C) by lra. now apply sqrt_square. }
      rewrite Hr in Hcos, Hsin. assert (C <> 0) by nra.
      rewrite Hcos, Hsin. split; field; assumption.
    - destruct (atan2_polar Y X (or_introl HX0)) as [Hcos Hsin].
      assert (sqrt (X * X + Y * Y) = C) as Hr.
      { replace (X * X + Y * Y) with (C * C) by lra. now apply sqrt_square. }
      rewrite Hr in Hcos, Hsin. assert (C <> 0) by nra.
      rewrite Hcos, Hsin. split; field; assumption. }
  split; [exact HsinS|]. split; [|exact Hpolar].
  destruct Hc1 as [Hpos|Hzero].
  - destruct (Hpolar Hpos) as [_ Hcos].
    rewrite Rmult_assoc, Hcos. lra.
  - rewrite <- Hzero in *. rewrite Hx. ring.
Qed.

(** The point that [move_distance_with_bearing] returns lies at the given
    distance from the origin, for a distance up to half the circumference. *)
Lemma projection_distance (lat lng d b : R) :
  -90 <= lat <= 90 -> 0 <= d <= EARTH_RADIUS * PI ->
  calculate_distance lat lng
    (fst (move_distance_with_bearing lat lng d b))
    (snd (move_distance_with_bearing lat lng d b)) = d.
Proof.
  intros Hlat Hd. pose proof PI_RGT_0 as Hpi.
  unfold move_distance_with_bearing, calculate_distance. cbv zeta. cbn [fst snd].
  set (phi1 := radians lat). set (delta := d / EARTH_RADIUS).
  set (theta := radians b).
  assert (0 <= cos phi1) as Hc1.
  { apply cos_ge_0; unfold phi1, radians; nra. }
  destruct (projection_identities phi1 delta theta Hc1) as (HsinS & Hkey & _).
  set (S := sin phi1 * cos delta + cos phi1 * sin delta * cos theta) in *.
  set (dlam := atan2 (sin theta * sin delta * cos phi1)
                     (cos delta - sin phi1 * sin (asin S))) in *.
  rewrite !radians_minus, !radians_degrees. fold phi1.
  replace (radians lng + dlam - radians lng) with dlam by ring.
  rewrite !sin_half_sq, cos_minus, HsinS.
  replace ((1 - (cos (asin S) * cos phi1 + S * sin phi1)) / 2 +
           cos phi1 * cos (asin S) * ((1 - cos dlam) / 2))
    with ((1 - cos delta) / 2) by lra.
  assert (0 <= delta <= PI) as Hdelta.
  { unfold delta, EARTH_RADIUS in *. split.
    - apply Rle_mult_inv_pos; lra.
    - apply Rmult_le_reg_r with 6371000; [lra|].
      unfold Rdiv. rewrite Rmult_assoc, Rinv_l; lra. }
  assert (0 <= sin (delta / 2)) as Hs by (apply sin_ge_0; lra).
  assert (0 <= cos (delta / 2)) as Hc by (apply cos_ge_0; lra).
  rewrite <- sin_half_sq.
  replace (1 - sin (delta / 2) ^ 2) with (cos (delta / 2) ^ 2)
    by (rewrite sin_half_sq, cos_half_sq; lra).
  rewrite !sqrt_pow2 by assumption.
  rewrite atan2_sin_cos by lra.
  unfold delta, EARTH_RADIUS. field.
Qed.

(** The initial bearing from the origin to the point that
    [move_distance_with_bearing] returns is the given bearing. *)
Lemma projection_bearing (lat lng d b : R) :
  -90 < lat < 90 -> 0 < d < EARTH_RADIUS * PI -> 0 <= b < 360 ->
  calculate_bearing lat lng
    (fst (move_distance_with_bearing lat lng d b))
    (snd (move_distance_with_bearing lat lng d b)) = b.
Proof.
  intros Hlat Hd Hb. pose proof PI_RGT_0 as Hpi.
  unfold move_distance_with_bearing, calculate_bearing. cbv zeta. cbn [fst snd].
  set (phi1 := radians lat). set (delta := d / EARTH_RADIUS).
  set (theta := radians b).
  assert (0 < cos phi1) as Hc1.
  { apply cos_gt_0; unfold phi1, radians; nra. }
  destruct (projection_identities phi1 delta theta (Rlt_le _ _ Hc1))
    as (HsinS & _ & Hpolar).
  destruct (Hpolar Hc1) as [Hsin Hcos]. clear Hpolar.
  set (S := sin phi1 * cos delta + cos phi1 * sin delta * cos theta) in *.
  set (dlam := atan2 (sin theta * sin delta * cos phi1)
                     (cos delta - sin phi1 * sin (asin S))) in *.
  rewrite !radians_minus, !radians_degrees. fold phi1.
  replace (radians lng + dlam - radians lng) with dlam by ring.
  rewrite HsinS.
  pose proof (sin2_cos2 phi1) as E1. unfold Rsqr in E1.
  assert (0 < delta < PI) as Hdelta.
  { unfold delta, EARTH_RADIUS in *. split.
    - apply Rdiv_lt_0_compat; lra.
    - apply Rmult_lt_reg_r with 6371000; [lra|].
      unfold Rdiv. rewrite Rmult_assoc, Rinv_l; lra. }
  assert (0 < sin delta) as Hsd by (apply sin_gt_0; lra).
  replace (sin dlam * cos (asin S)) with (sin delta * sin theta)
    by (rewrite (Rmult_comm (sin dlam)), Hsin; ring).
  replace (cos phi1 * S - sin phi1 * cos (asin S) * cos dlam)
    with (sin delta * cos theta).
  2:{ rewrite Rmult_assoc, Hcos. unfold S.
      replace (cos phi1 * (sin phi1 * cos delta + cos phi1 * sin delta * cos theta) -
               sin phi1 * (cos phi1 * cos delta - sin phi1 * sin delta * cos theta))
        with ((sin phi1 * sin phi1 + cos phi1 * cos phi1) * (sin delta * cos theta))
        by ring.
      rewrite E1. ring. }
  rewrite atan2_scale by exact Hsd.
  assert (0 <= theta < 2 * PI) as Htheta by (unfold theta, radians; split; nra).
  destruct (Rle_dec theta PI) as [Hle|Hgt].
  - rewrite atan2_sin_cos by lra. unfold theta. rewrite degrees_radians.
    now apply pymod_shift.
  - assert (sin theta = sin (theta - 2 * PI)) as ->.
    { rewrite <- (sin_period (theta - 2 * PI) 1). f_equal. simpl. ring. }
    assert (cos theta = cos (theta - 2 * PI)) as ->.
    { rewrite <- (cos_period (theta - 2 * PI) 1). f_equal. simpl. ring. }
    rewrite atan2_sin_cos by lra.
    replace (degrees (theta - 2 * PI) + 360) with b.
    + now apply pymod_small.
    + unfold theta, degrees, radians. field. lra.
Qed.

Lemma calculate_distance_nonneg (lat1 lng1 lat2 lng2 : R) :
  0 <= calculate_distance lat1 lng1 lat2 lng2.
Proof.
  unfold calculate_distance. cbv zeta.
  match goal with |- context [atan2 ?y ?x] =>
    pose proof (atan2_nonneg_quadrant y x (sqrt_pos _) (sqrt_pos _)) as [H _]
  end.
  unfold EARTH_RADIUS. nra.
Qed.

Lemma calculate_bearing_normalized (lat1 lng1 lat2 lng2 : R) :
  0 <= calculate_bearing lat1 lng1 lat2 lng2 < 360.
Proof. unfold calculate_bearing. cbv zeta. apply pymod_range. lra. Qed.

End Geodesy.

(** ** One tick, plane by plane *)

Module TickClaim.
Import GeoMath Store Examples.
Import GeoMathFacts DictFacts TickFacts GeoMathMore Geodesy.

(** C1, as amended: after one tick, when [move_towards_target] raises the
    plane is left as it was. Otherwise a plane that was within one step of
    its target stands exactly on that target with its direction flipped and
    its target set to the end point of its route (when it now goes to the
    end) or the start point (otherwise), unless its row has been deleted, in
    which case it is removed from the table; and a plane that was further
    away stands on the point that [move_distance_with_bearing] gives for
    one step along the initial bearing to its target, with direction and
    target unchanged: over the reals that point lies exactly one step from
    the prior position (for a valid latitude and a step up to half the
    circumference) and the initial bearing to it is the initial bearing to
    the target. *)
Theorem update_positions_per_plane (t : R) (w : world) (plane_id : Z)
    (pos : Position) :
  well_formed w ->
  view w plane_id = Some pos ->
  let w' := update_positions t w in
  let step := MOVEMENT_DISTANCE w in
  let remaining :=
    calculate_distance (current_lat pos) (current_lng pos)
                       (target_lat pos) (target_lng pos) in
  let bearing :=
    calculate_bearing (current_lat pos) (current_lng pos)
                      (target_lat pos) (target_lng pos) in
  let moved :=
    move_distance_with_bearing (current_lat pos) (current_lng pos) step bearing in
  if move_towards_target_raises (current_lat pos) (current_lng pos)
                                (target_lat pos) (target_lng pos) step
  then view w' plane_id = Some pos
  else
    (remaining <= step ->
       match Dict.get plane_id (db w) with
       | Some plane =>
           let goal := if negb (is_going_to_end pos) then Plane.end_point plane
                       else Plane.start_point plane in
           view w' plane_id =
             Some (mkPosition (target_lat pos) (target_lng pos)
                              (Point.y goal) (Point.x goal)
                              (negb (is_going_to_end pos)) t)
       | None => view w' plane_id = None
       end) /\
    (~ remaining <= step ->
       view w' plane_id =
         Some (mkPosition (fst moved) (snd moved)
                          (target_lat pos) (target_lng pos)
                          (is_going_to_end pos) t) /\
       (-90 <= current_lat pos <= 90 -> 0 <= step <= EARTH_RADIUS * PI ->
        calculate_distance (current_lat pos) (current_lng pos)
                           (fst moved) (snd moved) = step) /\
       (-90 < current_lat pos < 90 -> 0 < step < EARTH_RADIUS * PI ->
        calculate_bearing (current_lat pos) (current_lng pos)
                          (fst moved) (snd moved) = bearing)).
Proof.
  intros (Hk & Hv & _) Hview. cbv zeta.
  destruct (view_lookup _ _ _ Hview) as (r & Hget & Hpos).
  unfold update_positions.
  destruct (plane_positions w) as [|item items] eqn:Htable; [discriminate|].
  rewrite <- Htable in *. clear Htable item items.
  pose proof (fold_update_plane_at t (plane_positions w) (emit LockAcquire w)
                plane_id r Hk Hv (get_In _ _ _ Hget) Hk)
    as (w1 & H1 & H2 & H3 & H4 & H5 & H6 & H7).
  cbn [emit heap plane_positions db MOVEMENT_DISTANCE] in *.
  unfold view. cbn [emit heap plane_positions]. rewrite H7.
  rewrite <- H3, <- H4. rewrite <- H1 in Hpos. rewrite <- H2 in Hget.
  destruct (move_towards_target_raises _ _ _ _ _) eqn:Hraises.
  - rewrite (update_plane_failed t w1 plane_id r pos Hpos Hraises), Hget, H6.
    now rewrite (update_plane_failed t w1 plane_id r pos Hpos Hraises).
  - split.
    + intros Hle. destruct (Dict.get plane_id (db w1)) as [plane|] eqn:Hrow.
      * destruct (update_plane_arrived t w1 plane_id r pos plane
                    Hpos Hraises Hle Hrow) as [Htab Hobj].
        rewrite Htab, Hget, H6. exact Hobj.
      * rewrite (update_plane_orphan t w1 plane_id r pos Hpos Hraises Hle Hrow).
        now rewrite get_del_eq.
    + intros Hgt. repeat apply conj.
      * pose proof (update_plane_moving t w1 plane_id r pos Hpos Hraises Hgt)
          as Hmove.
        destruct (move_distance_with_bearing _ _ _ _) as [new_lat new_lng].
        destruct Hmove as [Htab Hobj].
        rewrite Htab, Hget, H6. exact Hobj.
      * intros Hlat Hstep. now apply projection_distance.
      * intros Hlat Hstep. apply projection_bearing; try assumption.
        apply calculate_bearing_normalized.
Qed.

Lemma eastbound_world_well_formed : well_formed eastbound_world.
Proof.
  unfold well_formed, eastbound_world; simpl. repeat split.
  - apply NoDup_singleton.
  - apply NoDup_singleton.
  - repeat constructor.
Qed.

Lemma eastbound_is_far :
  ~ calculate_distance 0 0 0 90 <= 600.
Proof.
  rewrite calculate_distance_quarter_turn. unfold EARTH_RADIUS.
  pose proof PI2_1. nra.
Qed.

(** C1, witness: plane 1 of [arrival_world] stands on the end point of its
    route, and the tick flips its direction and aims it at the start point;
    plane 1 of [eastbound_world] is a quarter of the circumference from its
    target, and the tick takes it 600 meters further east. *)
Lemma update_positions_per_plane_witness :
  view (update_positions 5 arrival_world) 1 =
    Some (mkPosition 11 21 10 20 false 5) /\
  (let moved :=
     move_distance_with_bearing 0 0 600 (calculate_bearing 0 0 0 90) in
   view (update_positions 5 eastbound_world) 1 =
     Some (mkPosition (fst moved) (snd moved) 0 90 true 5) /\
   calculate_distance 0 0 (fst moved) (snd moved) = 600 /\
   calculate_bearing 0 0 (fst moved) (snd moved) = calculate_bearing 0 0 0 90).
Proof.
  split.
  - pose proof (update_positions_per_plane 5 arrival_world 1 arrived
                  arrival_world_well_formed eq_refl) as H.
    cbv zeta in H. rewrite move_towards_target_in_domain in H.
    destruct H as [H _]. apply H.
    apply arrived_is_near. simpl. lra.
  - pose proof (update_positions_per_plane 5 eastbound_world 1 eastbound
                  eastbound_world_well_formed eq_refl) as H.
    cbv zeta in H. rewrite move_towards_target_in_domain in H.
    destruct H as [_ H].
    cbn [eastbound eastbound_world current_lat current_lng target_lat
         target_lng is_going_to_end MOVEMENT_DISTANCE] in H.
    destruct (H eastbound_is_far) as (Hview & Hdistance & Hbearing).
    cbv zeta. repeat apply conj.
    + exact Hview.
    + apply Hdistance; [lra|]. unfold EARTH_RADIUS. pose proof PI2_1. nra.
    + apply Hbearing; [lra|]. unfold EARTH_RADIUS. pose proof PI2_1. nra.
Defined.

(** C1, counterexample: plane 1 of [orphan_world] is in the table before the
    tick; its row is gone, so the tick removes it, and afterwards it is
    neither on its target nor one step further. And in [backwards_world],
    whose step is negative, the plane has neither arrived nor moved by the
    step, since no distance is negative. *)
Lemma tick_postcondition_fails_for_orphan :
  (view orphan_world 1 = Some arrived /\
   ~ tick_postcondition_as_specified 0 orphan_world 1 arrived) /\
  (view backwards_world 1 = Some eastbound /\
   ~ tick_postcondition_as_specified 0 backwards_world 1 eastbound).
Proof.
  split; (split; [reflexivity|]).
  - unfold tick_postcondition_as_specified. cbv zeta.
    intros (pos' & Hview & _). rewrite orphan_is_removed in Hview. discriminate.
  - unfold tick_postcondition_as_specified. cbv zeta.
    cbn [backwards_world MOVEMENT_DISTANCE].
    intros (pos' & _ & [(Hle & _)|(_ & Hdistance & _)]).
    + pose proof (calculate_distance_nonneg
                    (current_lat eastbound) (current_lng eastbound)
                    (target_lat eastbound) (target_lng eastbound)). lra.
    + pose proof (calculate_distance_nonneg
                    (current_lat eastbound) (current_lng eastbound)
                    (current_lat pos') (current_lng pos')). lra.
Qed.

End TickClaim.

(** ** Loading, snapshots and the simulation step, continued *)

Module StoreMore.
Import GeoMath Store Loading DictFacts TickFacts StoreFacts Examples.

Lemma set_same {V} (k : Z) (v : V) (d : Dict.t V) :
  Dict.get k d = Some v -> Dict.set k v d = d.
Proof.
  induction d as [|[k0 v0] d IH]; simpl; [discriminate|].
  destruct (Z.eqb_spec k k0) as [->|Hne].
  - intros [= ->]. reflexivity.
  - intros H. now rewrite IH.
Qed.

Lemma load_plane_db (now : Z -> R) (rows : Dict.t Plane.t) :
  forall w, db (fold_left (load_plane now) rows w) = db w.
Proof.
  induction rows as [|[plane_id plane] rest IH]; intros w; cbn [fold_left];
    [reflexivity|].
  now rewrite IH.
Qed.

Lemma load_planes_from_db_db (now : Z -> R) (w : world) :
  db (load_planes_from_db now w) = db w.
Proof.
  unfold load_planes_from_db. cbn [emit db]. now rewrite load_plane_db.
Qed.

Lemma view_load_plane_same (now : Z -> R) (w : world) (plane_id : Z)
    (plane : Plane.t) :
  view (load_plane now w (plane_id, plane)) plane_id =
    Some (position_of_row now plane_id plane).
Proof.
  unfold view, load_plane.
  cbn [plane_positions heap set_plane_positions set_heap].
  rewrite get_set_eq. now apply list_lookup_middle.
Qed.

Lemma view_load_plane_other (now : Z -> R) (w : world) (plane_id other : Z)
    (plane : Plane.t) :
  well_formed w -> other <> plane_id ->
  view (load_plane now w (plane_id, plane)) other = view w other.
Proof.
  intros Hw Hne. unfold view, load_plane.
  cbn [plane_positions heap set_plane_positions set_heap].
  rewrite get_set_ne by exact Hne.
  destruct (Dict.get other (plane_positions w)) as [r|] eqn:Hget;
    [|reflexivity].
  destruct (well_formed_allocated w other r Hw Hget) as [pos Hpos].
  apply lookup_app_l. now apply lookup_lt_Some in Hpos.
Qed.

Lemma fold_load_plane_view (now : Z -> R) (rows : Dict.t Plane.t) :
  forall w plane_id,
    well_formed w -> NoDup (Dict.keys rows) ->
    view (fold_left (load_plane now) rows w) plane_id =
      match Dict.get plane_id rows with
      | Some plane => Some (position_of_row now plane_id plane)
      | None => view w plane_id
      end.
Proof.
  induction rows as [|[id0 plane0] rest IH]; intros w plane_id Hw Hnd;
    cbn [fold_left]; [reflexivity|].
  simpl in Hnd. apply NoDup_cons in Hnd as [Hid0 Hnd].
  rewrite list_elem_of_In in Hid0.
  rewrite IH by (auto using load_plane_well_formed).
  cbn [Dict.get]. destruct (Z.eqb_spec plane_id id0) as [->|Hne].
  - rewrite (get_None_keys id0 rest Hid0). apply view_load_plane_same.
  - destruct (Dict.get plane_id rest); [reflexivity|].
    now apply view_load_plane_other.
Qed.

(** X7: after [load_planes_from_db] the table holds exactly the planes of
    the [Plane] table: a plane with a row is at the position of its row,
    aimed at the end point of its route when it is going to the end and at
    the start point otherwise; an id without a row is not in the table,
    whatever the table held before. *)
Theorem load_planes_from_db_view (now : Z -> R) (w : world) (plane_id : Z) :
  NoDup (Dict.keys (db w)) ->
  view (load_planes_from_db now w) plane_id =
    option_map (position_of_row now plane_id) (Dict.get plane_id (db w)).
Proof.
  intros Hnd. unfold load_planes_from_db.
  change (view (emit LockRelease ?w1) plane_id) with (view w1 plane_id).
  cbn [emit db set_plane_positions].
  rewrite fold_load_plane_view.
  - destruct (Dict.get plane_id (db w)); reflexivity.
  - unfold well_formed. simpl. repeat apply conj; constructor.
  - exact Hnd.
Qed.

(** X7, witness: loading the table of [arrival_world]. *)
Lemma load_planes_from_db_view_witness :
  view (load_planes_from_db (fun _ => 7) arrival_world) 1 =
    Some (mkPosition 10 20 11 21 true 7) /\
  view (load_planes_from_db (fun _ => 7) arrival_world) 2 = None.
Proof.
  assert (NoDup (Dict.keys (db arrival_world))) as Hnd
    by (simpl; apply NoDup_singleton).
  split.
  - exact (load_planes_from_db_view (fun _ => 7) arrival_world 1 Hnd).
  - exact (load_planes_from_db_view (fun _ => 7) arrival_world 2 Hnd).
Defined.

Lemma view_after_load (now : Z -> R) (w : world) (plane_id : Z) :
  NoDup (Dict.keys (db w)) ->
  view (load_planes_from_db now w) plane_id =
    match Dict.get plane_id (db w) with
    | Some plane => Some (position_of_row now plane_id plane)
    | None => None
    end.
Proof.
  intros Hnd. unfold load_planes_from_db.
  change (view (emit LockRelease ?w1) plane_id) with (view w1 plane_id).
  cbn [emit db set_plane_positions].
  rewrite fold_load_plane_view; [reflexivity| |exact Hnd].
  unfold well_formed. simpl. repeat apply conj; constructor.
Qed.

(** A loop of [save_to_database] over planes whose rows already hold their
    position and direction changes no row. *)
Lemma save_loop_unchanged (used : nat) (items : Dict.t nat) :
  forall w : world,
    length (plane_positions w) = used ->
    (forall plane_id r, In (plane_id, r) items ->
       exists plane pos,
         Dict.get plane_id (db w) = Some plane /\ heap w !! r = Some pos /\
         row_after_save pos plane = plane) ->
    snd (save_loop used items w) = None /\
    db (fst (save_loop used items w)) = db w.
Proof.
  induction items as [|[id0 r0] rest IH]; intros w Hused Hrows;
    cbn [save_loop]; rewrite Hused, Nat.eqb_refl; cbn [negb].
  - split; reflexivity.
  - destruct (Hrows id0 r0) as (plane0 & pos0 & Hrow0 & Hpos0 & Hsame);
      [now left|].
    rewrite Hrow0, Hpos0.
    change (Plane.mk _ _ _ _ _ _) with (row_after_save pos0 plane0).
    rewrite Hsame, (set_same id0 plane0 (db w) Hrow0).
    match goal with |- context [save_loop used rest ?w1] =>
      destruct (IH w1) as [Hnone Hdb] end.
    + exact Hused.
    + intros id r Hin. apply (Hrows id r). now right.
    + split; [exact Hnone|exact Hdb].
Qed.

Lemma row_after_save_loaded (now : Z -> R) (plane_id : Z) (plane : Plane.t) :
  row_after_save (position_of_row now plane_id plane) plane = plane.
Proof.
  destruct plane as [name pilot start_point end_point [x y] going].
  reflexivity.
Qed.

(** X8: writing back right after loading changes no row of the [Plane]
    table. *)
Theorem save_after_load_changes_no_row (now : Z -> R) (w : world) :
  NoDup (Dict.keys (db w)) ->
  db (save_to_database (load_planes_from_db now w)) = db w.
Proof.
  intros Hnd.
  pose proof (load_planes_from_db_well_formed now w) as Hw.
  pose proof (load_planes_from_db_db now w) as Hdb.
  set (w1 := load_planes_from_db now w) in *.
  assert (forall plane_id r, In (plane_id, r) (plane_positions w1) ->
            exists plane pos,
              Dict.get plane_id (db w1) = Some plane /\
              heap w1 !! r = Some pos /\ row_after_save pos plane = plane)
    as Hrows.
  { intros plane_id r Hin.
    destruct Hw as (Hk & Hv & Hall).
    pose proof (In_get plane_id r _ Hk Hin) as Hget.
    pose proof (view_after_load now w plane_id Hnd) as Hview.
    fold w1 in Hview. unfold view in Hview. rewrite Hget in Hview.
    rewrite Hdb. destruct (Dict.get plane_id (db w)) as [plane|].
    - exists plane, (position_of_row now plane_id plane).
      repeat apply conj; [reflexivity|exact Hview|].
      apply row_after_save_loaded.
    - exfalso. rewrite Forall_forall in Hall.
      apply (in_map snd) in Hin. cbn [snd] in Hin.
      apply list_elem_of_In, Hall in Hin.
      apply lookup_lt_is_Some_2 in Hin. rewrite Hview in Hin.
      now destruct Hin. }
  unfold save_to_database, save_to_database_try.
  destruct (plane_positions w1) as [|item items] eqn:Htable; [exact Hdb|].
  rewrite <- Htable in Hrows. cbn [emit plane_positions]. rewrite Htable.
  rewrite <- Htable.
  pose proof (save_loop_unchanged (length (plane_positions w1))
                (plane_positions w1) (emit LockAcquire (emit AtomicEnter w1))
                eq_refl Hrows) as [Hnone Hsame].
  destruct (save_loop _ _ _) as [w2 raised]. cbn [fst snd] in *.
  subst raised. cbn [fst emit db]. rewrite Hsame. exact Hdb.
Qed.

(** X8, witness: the table of [three_planes]. *)
Lemma save_after_load_changes_no_row_witness :
  db (save_to_database (load_planes_from_db (fun _ => 0) three_planes)) =
  db three_planes.
Proof.
  apply save_after_load_changes_no_row.
  simpl. apply NoDup_cons. split; [|apply NoDup_singleton].
  rewrite list_elem_of_In. simpl. intros [H|[]]. discriminate.
Defined.

Lemma fold_heading_item_get (h : list Position) (items : Dict.t nat) :
  forall (acc : Dict.t Heading) (plane_id : Z),
    NoDup (Dict.keys items) ->
    Forall (fun r => (r < length h)%nat) (Dict.values items) ->
    Dict.get plane_id (fold_left (heading_item h) items acc) =
      match Dict.get plane_id items with
      | Some r => with_heading <$> h !! r
      | None => Dict.get plane_id acc
      end.
Proof.
  induction items as [|[id0 r0] rest IH]; intros acc plane_id Hnd Hall;
    cbn [fold_left]; [reflexivity|].
  simpl in Hnd, Hall. apply NoDup_cons in Hnd as [Hid0 Hnd].
  rewrite list_elem_of_In in Hid0.
  apply Forall_cons in Hall as [Hr0 Hall].
  rewrite IH by assumption. cbn [Dict.get heading_item].
  apply lookup_lt_is_Some_2 in Hr0 as [pos0 Hpos0]. rewrite Hpos0.
  destruct (Z.eqb_spec plane_id id0) as [->|Hne].
  - rewrite (get_None_keys id0 rest Hid0), get_set_eq, Hpos0. reflexivity.
  - destruct (Dict.get plane_id rest); [reflexivity|].
    now apply get_set_ne.
Qed.

(** X9: the snapshot of [get_positions_with_heading] has an entry exactly
    for the planes of the table; the entry carries the plane's position,
    direction and time stamp and the bearing from its position to its
    target, rounded to one decimal. *)
Theorem get_positions_with_heading_entry (w : world) (plane_id : Z) :
  well_formed w ->
  Dict.get plane_id (fst (get_positions_with_heading w)) =
    with_heading <$> view w plane_id.
Proof.
  intros (Hk & Hv & Hall). unfold get_positions_with_heading, view.
  cbn [fst emit heap plane_positions].
  rewrite fold_heading_item_get by assumption.
  destruct (Dict.get plane_id (plane_positions w)); reflexivity.
Qed.

(** X9, witness: the snapshot of [arrival_world] has no entry for plane 2. *)
Lemma get_positions_with_heading_entry_witness :
  Dict.get 2 (fst (get_positions_with_heading arrival_world)) = None.
Proof.
  exact (get_positions_with_heading_entry arrival_world 2
           arrival_world_well_formed).
Defined.

Lemma update_plane_keys (t : R) (w : world) (item : Z * nat) (k : Z) :
  In k (Dict.keys (plane_positions (update_plane t w item))) ->
  In k (Dict.keys (plane_positions w)).
Proof.
  destruct item as [plane_id r]. unfold update_plane.
  destruct (heap w !! r) as [pos|]; [|auto].
  destruct (move_towards_target_raises _ _ _ _ _); [auto|].
  destruct (move_towards_target _ _ _ _ _) as [[new_lat new_lng] [|]];
    [|auto].
  cbv zeta.
  destruct (negb (is_going_to_end pos));
    destruct (Dict.get _ (db _)) as [plane|];
    cbn [plane_positions modify set_heap emit set_plane_positions]; auto;
    apply keys_del_subset.
Qed.

Lemma update_plane_heap_length (t : R) (w : world) (item : Z * nat) :
  length (heap (update_plane t w item)) = length (heap w).
Proof.
  destruct item as [plane_id r]. unfold update_plane.
  destruct (heap w !! r) as [pos|]; [|auto].
  destruct (move_towards_target_raises _ _ _ _ _); [reflexivity|].
  destruct (move_towards_target _ _ _ _ _) as [[new_lat new_lng] [|]];
    cbv zeta.
  - destruct (negb (is_going_to_end pos));
      destruct (Dict.get _ (db _)) as [plane|];
      cbn -[alter]; now rewrite ?length_alter.
  - cbn -[alter]. now rewrite length_alter.
Qed.

(** X10: a tick works in memory only and never grows the table: it writes no
    row of the [Plane] table, keeps the step, allocates no dictionary, and
    every plane in the table after the tick was in the table before. *)
Theorem update_positions_frame (t : R) (w : world) :
  db (update_positions t w) = db w /\
  MOVEMENT_DISTANCE (update_positions t w) = MOVEMENT_DISTANCE w /\
  length (heap (update_positions t w)) = length (heap w) /\
  (forall plane_id,
     In plane_id (Dict.keys (plane_positions (update_positions t w))) ->
     In plane_id (Dict.keys (plane_positions w))).
Proof.
  unfold update_positions.
  destruct (plane_positions w) as [|item items] eqn:Htable;
    [rewrite Htable; auto|].
  rewrite <- Htable. clear Htable item items.
  cbn [emit db MOVEMENT_DISTANCE heap plane_positions].
  assert (forall l w0,
            db (fold_left (update_plane t) l w0) = db w0 /\
            MOVEMENT_DISTANCE (fold_left (update_plane t) l w0) =
              MOVEMENT_DISTANCE w0 /\
            length (heap (fold_left (update_plane t) l w0)) = length (heap w0) /\
            (forall k,
               In k (Dict.keys (plane_positions (fold_left (update_plane t) l w0))) ->
               In k (Dict.keys (plane_positions w0)))) as Hfold.
  { induction l as [|x l IH]; intros w0; cbn [fold_left]; [auto|].
    destruct (IH (update_plane t w0 x)) as (H1 & H2 & H3 & H4).
    destruct (update_plane_env t w0 x) as (E1 & E2 & _).
    repeat apply conj; try congruence.
    - rewrite H3. apply update_plane_heap_length.
    - intros k Hk. eapply update_plane_keys, H4, Hk. }
  apply (Hfold (plane_positions w) (emit LockAcquire w)).
Qed.

(** X11: when every plane of the table still has its row, [save_to_database]
    leaves the table alone, writes the position and the direction of every
    plane into its row, keeping the name, the pilot and the route of the
    row, and changes no row of a plane that is not in the table. *)
Theorem save_to_database_writes_every_plane (w : world) :
  well_formed w ->
  (forall plane_id r, In (plane_id, r) (plane_positions w) ->
     Dict.get plane_id (db w) <> None) ->
  plane_positions (save_to_database w) = plane_positions w /\
  (forall plane_id pos,
     view w plane_id = Some pos ->
     exists plane,
       Dict.get plane_id (db w) = Some plane /\
       Dict.get plane_id (db (save_to_database w)) =
         Some (row_after_save pos plane)) /\
  (forall plane_id,
     ~ In plane_id (Dict.keys (plane_positions w)) ->
     Dict.get plane_id (db (save_to_database w)) = Dict.get plane_id (db w)).
Proof.
  intros (Hk & Hv & Hall) Hrows.
  unfold save_to_database, save_to_database_try.
  destruct (plane_positions w) as [|item items] eqn:Htable.
  - repeat apply conj; auto.
    intros plane_id pos Hview. unfold view in Hview. rewrite Htable in Hview.
    discriminate.
  - rewrite <- Htable in *. clear Htable item items.
    pose proof (save_loop_writes (length (plane_positions w)) (plane_positions w)
                  (emit LockAcquire (emit AtomicEnter w)) eq_refl Hk Hrows)
      as (Hnone & Htab & _ & Hother & Hwritten).
    cbn [emit plane_positions db heap] in *.
    destruct (save_loop _ _ _) as [w2 raised]. cbn [fst snd] in *.
    subst raised. cbn [fst emit plane_positions db].
    repeat apply conj; [exact Htab| |exact Hother].
    intros plane_id pos Hview.
    destruct (view_lookup w plane_id pos Hview) as (r & Hget & Hpos).
    apply get_In in Hget.
    destruct (Dict.get plane_id (db w)) as [plane|] eqn:Hrow;
      [|exfalso; exact (Hrows plane_id r Hget Hrow)].
    exists plane. split; [reflexivity|].
    exact (Hwritten plane_id r pos plane Hget Hpos Hrow).
Qed.

(** X11, witness: [arrival_world], whose only plane stands at (11, 21)
    while its row says (10, 20). *)
Lemma save_to_database_writes_every_plane_witness :
  Dict.get 1 (db (save_to_database arrival_world)) =
    Some (route "TK1" (Point.mk 21 11) true).
Proof.
  assert (forall plane_id r, In (plane_id, r) (plane_positions arrival_world) ->
            Dict.get plane_id (db arrival_world) <> None) as Hrows.
  { intros plane_id r [[= <- <-]|[]]. discriminate. }
  destruct (save_to_database_writes_every_plane arrival_world
              arrival_world_well_formed Hrows) as (_ & Hwritten & _).
  destruct (Hwritten 1%Z arrived eq_refl) as (plane & Hrow & Hsaved).
  cbn in Hrow. injection Hrow as <-. exact Hsaved.
Defined.

(** The state of a plane after a tick, when it was more than one step away
    from its target. *)
Lemma tick_moving (t : R) (w : world) (plane_id : Z) (pos : Position) :
  well_formed w ->
  view w plane_id = Some pos ->
  move_towards_target_raises (current_lat pos) (current_lng pos)
                             (target_lat pos) (target_lng pos)
                             (MOVEMENT_DISTANCE w) = false ->
  ~ calculate_distance (current_lat pos) (current_lng pos)
                       (target_lat pos) (target_lng pos) <= MOVEMENT_DISTANCE w ->
  view (update_positions t w) plane_id =
    Some (set_current
            (fst (move_distance_with_bearing
                    (current_lat pos) (current_lng pos) (MOVEMENT_DISTANCE w)
                    (calculate_bearing (current_lat pos) (current_lng pos)
                                       (target_lat pos) (target_lng pos))))
            (snd (move_distance_with_bearing
                    (current_lat pos) (current_lng pos) (MOVEMENT_DISTANCE w)
                    (calculate_bearing (current_lat pos) (current_lng pos)
                                       (target_lat pos) (target_lng pos))))
            t pos).
Proof.
  intros (Hk & Hv & _) Hview Hok Hfar.
  destruct (view_lookup _ _ _ Hview) as (r & Hget & Hpos).
  unfold update_positions.
  destruct (plane_positions w) as [|item items] eqn:Htable; [discriminate|].
  rewrite <- Htable in *. clear Htable item items.
  pose proof (fold_update_plane_at t (plane_positions w) (emit LockAcquire w)
                plane_id r Hk Hv (get_In _ _ _ Hget) Hk)
    as (w1 & H1 & H2 & H3 & H4 & H5 & H6 & H7).
  cbn [emit heap plane_positions db MOVEMENT_DISTANCE] in *.
  unfold view. cbn [emit heap plane_positions]. rewrite H7.
  rewrite <- H4 in *. rewrite <- H1 in Hpos. rewrite <- H2 in Hget.
  pose proof (update_plane_moving t w1 plane_id r pos Hpos Hok Hfar) as Hmove.
  destruct (move_distance_with_bearing _ _ _ _) as [new_lat new_lng].
  destruct Hmove as [Htab Hobj]. rewrite Htab, Hget, H6. exact Hobj.
Qed.

(** The state of a plane after a tick, when it was within one step of its
    target and its row exists. *)
Lemma tick_arrived (t : R) (w : world) (plane_id : Z) (pos : Position)
    (plane : Plane.t) :
  well_formed w ->
  view w plane_id = Some pos ->
  move_towards_target_raises (current_lat pos) (current_lng pos)
                             (target_lat pos) (target_lng pos)
                             (MOVEMENT_DISTANCE w) = false ->
  calculate_distance (current_lat pos) (current_lng pos)
                     (target_lat pos) (target_lng pos) <= MOVEMENT_DISTANCE w ->
  Dict.get plane_id (db w) = Some plane ->
  view (update_positions t w) plane_id =
    Some (mkPosition (target_lat pos) (target_lng pos)
            (Point.y (if negb (is_going_to_end pos) then Plane.end_point plane
                      else Plane.start_point plane))
            (Point.x (if negb (is_going_to_end pos) then Plane.end_point plane
                      else Plane.start_point plane))
            (negb (is_going_to_end pos)) t).
Proof.
  intros (Hk & Hv & _) Hview Hok Hnear Hrow.
  destruct (view_lookup _ _ _ Hview) as (r & Hget & Hpos).
  unfold update_positions.
  destruct (plane_positions w) as [|item items] eqn:Htable; [discriminate|].
  rewrite <- Htable in *. clear Htable item items.
  pose proof (fold_update_plane_at t (plane_positions w) (emit LockAcquire w)
                plane_id r Hk Hv (get_In _ _ _ Hget) Hk)
    as (w1 & H1 & H2 & H3 & H4 & H5 & H6 & H7).
  cbn [emit heap plane_positions db MOVEMENT_DISTANCE] in *.
  unfold view. cbn [emit heap plane_positions]. rewrite H7.
  rewrite <- H4 in *. rewrite <- H3 in Hrow.
  rewrite <- H1 in Hpos. rewrite <- H2 in Hget.
  destruct (update_plane_arrived t w1 plane_id r pos plane Hpos Hok Hnear Hrow)
    as [Htab Hobj].
  rewrite Htab, Hget, H6. exact Hobj.
Qed.

Lemma update_plane_target_view (plane_id : Z) (new_lat new_lng : R) (w : world)
    (pos : Position) :
  view w plane_id = Some pos ->
  view (snd (update_plane_target plane_id new_lat new_lng w)) plane_id =
    Some (set_target new_lat new_lng pos).
Proof.
  intros Hview. destruct (view_lookup _ _ _ Hview) as (r & Hget & Hpos).
  unfold update_plane_target, view. cbn [emit plane_positions].
  rewrite Hget. cbn [snd emit modify set_heap plane_positions heap].
  now rewrite Hget, list_lookup_alter_eq, Hpos.
Qed.

Lemma update_plane_target_env (plane_id : Z) (new_lat new_lng : R) (w : world) :
  db (snd (update_plane_target plane_id new_lat new_lng w)) = db w /\
  MOVEMENT_DISTANCE (snd (update_plane_target plane_id new_lat new_lng w)) =
    MOVEMENT_DISTANCE w.
Proof.
  unfold update_plane_target. cbn [emit plane_positions].
  destruct (Dict.get plane_id (plane_positions w)); split; reflexivity.
Qed.

(** X12: after [update_plane_target] the next tick, when
    [move_towards_target] does not raise and the new target is more than
    one step away, puts the plane on the point that
    [move_distance_with_bearing] gives for one step along the initial
    bearing to the new target, whatever its target was before; the new
    target stays and the direction is unchanged. Over the reals that point
    lies exactly one step from the prior position (for a valid latitude and
    a step up to half the circumference) and the initial bearing to it is
    the initial bearing to the new target. *)
Theorem retarget_then_tick (t : R) (w : world) (plane_id : Z) (pos : Position)
    (new_lat new_lng : R) :
  well_formed w ->
  view w plane_id = Some pos ->
  move_towards_target_raises (current_lat pos) (current_lng pos)
                             new_lat new_lng (MOVEMENT_DISTANCE w) = false ->
  ~ calculate_distance (current_lat pos) (current_lng pos) new_lat new_lng
      <= MOVEMENT_DISTANCE w ->
  let step := MOVEMENT_DISTANCE w in
  let bearing :=
    calculate_bearing (current_lat pos) (current_lng pos) new_lat new_lng in
  let moved :=
    move_distance_with_bearing (current_lat pos) (current_lng pos) step bearing in
  view (update_positions t (snd (update_plane_target plane_id new_lat new_lng w)))
       plane_id =
    Some (mkPosition (fst moved) (snd moved) new_lat new_lng
                     (is_going_to_end pos) t) /\
  (-90 <= current_lat pos <= 90 -> 0 <= step <= EARTH_RADIUS * PI ->
   calculate_distance (current_lat pos) (current_lng pos)
                      (fst moved) (snd moved) = step) /\
  (-90 < current_lat pos < 90 -> 0 < step < EARTH_RADIUS * PI ->
   calculate_bearing (current_lat pos) (current_lng pos)
                     (fst moved) (snd moved) = bearing).
Proof.
  intros Hw Hview Hok Hfar. cbv zeta.
  pose proof (update_plane_target_well_formed plane_id new_lat new_lng w Hw)
    as Hw'.
  pose proof (update_plane_target_view plane_id new_lat new_lng w pos Hview)
    as Hview'.
  destruct (update_plane_target_env plane_id new_lat new_lng w) as [_ Hstep].
  repeat apply conj.
  - rewrite (tick_moving t _ plane_id _ Hw' Hview'); rewrite Hstep.
    + reflexivity.
    + exact Hok.
    + exact Hfar.
  - intros Hlat Hrange. now apply Geodesy.projection_distance.
  - intros Hlat Hrange. apply Geodesy.projection_bearing; try assumption.
    apply Geodesy.calculate_bearing_normalized.
Qed.

(** X12, witness: a plane at (0, 0) on its way east along the equator is
    sent to (0, 90), a quarter of the equator away, and the tick takes it
    600 meters towards it. *)
Lemma retarget_then_tick_witness :
  let w := mkWorld [mkPosition 0 0 0 1 true 0] [(1%Z, 0%nat)] 600 [] [] in
  let moved :=
    move_distance_with_bearing 0 0 600 (calculate_bearing 0 0 0 90) in
  view (update_positions 3 (snd (update_plane_target 1 0 90 w))) 1 =
    Some (mkPosition (fst moved) (snd moved) 0 90 true 3) /\
  calculate_distance 0 0 (fst moved) (snd moved) = 600.
Proof.
  cbv zeta.
  destruct (retarget_then_tick 3
              (mkWorld [mkPosition 0 0 0 1 true 0] [(1%Z, 0%nat)] 600 [] []) 1
              (mkPosition 0 0 0 1 true 0) 0 90) as (Hview & Hdistance & _).
  - unfold well_formed; simpl.
    repeat apply conj; [apply NoDup_singleton|apply NoDup_singleton|].
    repeat constructor.
  - reflexivity.
  - apply GeoMathFacts.move_towards_target_in_domain.
  - simpl. rewrite GeoMathMore.calculate_distance_quarter_turn.
    unfold EARTH_RADIUS. pose proof PI2_1. nra.
  - split; [exact Hview|].
    apply Hdistance; cbn [current_lat MOVEMENT_DISTANCE]; [lra|].
    unfold EARTH_RADIUS. pose proof PI2_1. nra.
Defined.

End StoreMore.

(** ** The REST view of the positions *)

Module PositionsFacts.
Import GeoMath PyFloat Store Session Rest Examples FilterFacts.

Lemma positions_filter_skip_noted (float_of_str : string -> option pyfloat)
    (query : list (string * string))
    (noted noted' : option rest_filter) (plane_lat plane_lng : R) :
  snd (positions_filter float_of_str query noted plane_lat plane_lng) =
  snd (positions_filter float_of_str query noted' plane_lat plane_lng).
Proof.
  unfold positions_filter. cbv zeta.
  repeat match goal with
         | |- context [if ?b then _ else _] => destruct b
         | |- context [match float_param ?f ?v with _ => _ end] =>
             destruct (float_param f v)
         end; reflexivity.
Qed.

(** The rows gathered by the loop of [positions]: those of the planes that
    the filter tests do not skip, in the order of the snapshot. *)
Lemma fold_positions_item_list (float_of_str : string -> option pyfloat)
    (query : list (string * string))
    (info : Dict.t (string * string)) (items : Dict.t Heading) :
  forall (noted : option rest_filter) (acc : list Row),
    snd (fold_left (positions_item float_of_str query info) items (noted, acc)) =
    acc ++ map (fun item => make_row info (fst item) (snd item))
               (List.filter
                  (fun item =>
                     negb (snd (positions_filter float_of_str query None
                                  (h_current_lat (snd item))
                                  (h_current_lng (snd item)))))
                  items).
Proof.
  induction items as [|[plane_id pos] rest IH]; intros noted acc;
    cbn [fold_left List.filter map fst snd].
  - now rewrite app_nil_r.
  - unfold positions_item at 2.
    rewrite (positions_filter_skip_noted float_of_str query None noted).
    destruct (positions_filter float_of_str query noted _ _) as [noted' skip].
    cbn [snd]. destruct skip; cbn [negb]; rewrite IH.
    + reflexivity.
    + cbn [map fst snd]. now rewrite <- app_assoc.
Qed.

Lemma listed_positions (float_of_str : string -> option pyfloat)
    (query : list (string * string)) (w : world) :
  listed (fst (positions float_of_str query w)) =
  sort_by_id
    (map (fun item => make_row (fold_left plane_info_item (db w) [])
                               (fst item) (snd item))
         (List.filter
            (fun item =>
               negb (snd (positions_filter float_of_str query None
                            (h_current_lat (snd item))
                            (h_current_lng (snd item)))))
            (fst (get_positions_with_heading w)))).
Proof.
  unfold positions, get_positions_with_heading.
  cbn [fst emit db heap plane_positions].
  pose proof (fold_positions_item_list float_of_str query
                (fold_left plane_info_item (db w) [])
                (fold_left (heading_item (heap w)) (plane_positions w) [])
                None []) as Hrows.
  destruct (fold_left (positions_item _ _ _) _ (None, [])) as [noted rows].
  cbn [fst snd listed app] in *. now rewrite Hrows.
Qed.

(** X13: when the three parameters of the radius filter are present and
    convert to floats, [positions] lists a plane exactly when
    [calculate_distance] from it to the centre raises, which the [except]
    clause of the view passes over, or returns at most the radius in
    kilometers times 1000; when one of the three floats is NaN it lists
    every plane. The centre may lie on the equator or on the prime
    meridian. *)
Theorem positions_radius_filter (float_of_str : string -> option pyfloat)
    (query : list (string * string)) (w : world)
    (sa sb sc : string) (x y z : pyfloat) (row : Row) :
  lookup_key "lat" query = Some sa -> sa <> ""%string ->
  lookup_key "lng" query = Some sb -> sb <> ""%string ->
  lookup_key "radius" query = Some sc -> sc <> ""%string ->
  float_of_str sa = Some x -> float_of_str sb = Some y ->
  float_of_str sc = Some z ->
  (In row (listed (fst (positions float_of_str query w))) <->
   In row (all_rows w) /\
   match x, y, z with
   | Num a, Num b, Num c =>
       calculate_distance_raises (row_lat row) (row_lng row) a b = true \/
       calculate_distance (row_lat row) (row_lng row) a b <= c * 1000
   | _, _, _ => True
   end).
Proof.
  intros Hla Hsa Hlb Hsb Hlc Hsc Hx Hy Hz.
  assert (forall plane_lat plane_lng,
            snd (positions_filter float_of_str query None plane_lat plane_lng) =
            if distance_raises plane_lat plane_lng x y then false
            else gt (distance_from plane_lat plane_lng x y) (times z 1000))
    as Hskip.
  { intros plane_lat plane_lng. unfold positions_filter. cbv zeta.
    rewrite Hla, Hlb, Hlc. unfold truthy_param, float_param.
    apply String.eqb_neq in Hsa, Hsb, Hsc. rewrite Hsa, Hsb, Hsc, Hx, Hy, Hz.
    cbn [negb andb]. now destruct (distance_raises _ _ _ _). }
  assert (forall plane_lat plane_lng,
            negb (snd (positions_filter float_of_str query None
                         plane_lat plane_lng)) = true <->
            match x, y, z with
            | Num a, Num b, Num c =>
                calculate_distance_raises plane_lat plane_lng a b = true \/
                calculate_distance plane_lat plane_lng a b <= c * 1000
            | _, _, _ => True
            end) as Hkeep.
  { intros plane_lat plane_lng. rewrite Hskip.
    destruct x as [a|], y as [b|], z as [c|];
      cbn [distance_raises distance_from times gt negb];
      try (destruct (calculate_distance_raises _ _ _ _); cbn [negb]);
      try tauto.
    destruct (Rlt_dec (c * 1000) _) as [Hlt|Hge]; cbn [negb]; split.
    - discriminate.
    - intros [H|H]; [discriminate|lra].
    - intros _. right. lra.
    - reflexivity. }
  rewrite listed_positions, In_sort_by_id, in_map_iff, In_all_rows.
  split.
  - intros ([plane_id pos] & <- & Hin). apply filter_In in Hin as [Hin Hk].
    cbn [fst snd] in *. apply Hkeep in Hk.
    split; [now exists plane_id, pos|exact Hk].
  - intros [(plane_id & pos & Hin & ->) Hnear].
    exists (plane_id, pos). split; [reflexivity|].
    apply filter_In. split; [exact Hin|]. cbn [fst snd].
    apply Hkeep. exact Hnear.
Qed.

(** X14: when the three parameters of the radius filter are present but one
    of them does not convert to a float, [positions] lists every plane and
    reports no filter, whether or not the request also carries a bounding
    box. *)
Theorem positions_bad_radius_lists_all (float_of_str : string -> option pyfloat)
    (query : list (string * string)) (w : world) (sa sb sc : string) :
  lookup_key "lat" query = Some sa -> sa <> ""%string ->
  lookup_key "lng" query = Some sb -> sb <> ""%string ->
  lookup_key "radius" query = Some sc -> sc <> ""%string ->
  float_of_str sa = None \/ float_of_str sb = None \/ float_of_str sc = None ->
  listed (fst (positions float_of_str query w)) = sort_by_id (all_rows w) /\
  listed_filters (fst (positions float_of_str query w)) = None.
Proof.
  intros Hla Hsa Hlb Hsb Hlc Hsc Hbad.
  assert (forall noted plane_lat plane_lng,
            positions_filter float_of_str query noted plane_lat plane_lng =
            (noted, false)) as Hfilter.
  { intros noted plane_lat plane_lng. unfold positions_filter. cbv zeta.
    rewrite Hla, Hlb, Hlc. unfold truthy_param, float_param.
    apply String.eqb_neq in Hsa, Hsb, Hsc. rewrite Hsa, Hsb, Hsc.
    cbn [negb andb].
    destruct Hbad as [H|[H|H]]; rewrite H;
      repeat match goal with
             | |- context [match float_of_str ?x with _ => _ end] =>
                 destruct (float_of_str x)
             end; reflexivity. }
  split.
  - rewrite listed_positions. unfold all_rows. f_equal. f_equal.
    induction (fst (get_positions_with_heading w)) as [|item items IH];
      [reflexivity|].
    cbn [List.filter]. rewrite Hfilter. cbn [snd negb]. now rewrite IH.
  - unfold positions. destruct (get_positions_with_heading w) as [items w1].
    assert (forall l acc,
              fst (fold_left (positions_item float_of_str query
                                (fold_left plane_info_item (db (emit DbAll w1)) []))
                             l (None, acc)) = None) as Hnoted.
    { induction l as [|[plane_id pos] l IH]; intros acc; cbn [fold_left];
        [reflexivity|].
      unfold positions_item at 2. rewrite Hfilter. apply IH. }
    specialize (Hnoted items []).
    destruct (fold_left _ items (None, [])) as [noted rows].
    exact Hnoted.
Qed.

(** X13, witness: 50 km around the point (11, 21), where plane 1 of
    [arrival_world] stands. *)
Lemma positions_radius_filter_witness :
  In (mkRow 1 "TK1" "Pilot Yok" 21 11 0)
     (listed (fst (positions float_of_digits
                     [("lat", "11"); ("lng", "21"); ("radius", "50")]
                     arrival_world))).
Proof.
  apply (positions_radius_filter float_of_digits
           [("lat", "11"); ("lng", "21"); ("radius", "50")] arrival_world
           "11" "21" "50" 11 21 50 (mkRow 1 "TK1" "Pilot Yok" 21 11 0));
    try reflexivity; try discriminate.
  split.
  - rewrite all_rows_arrival_world. now left.
  - right. cbn [row_lat row_lng].
    rewrite GeoMathFacts.calculate_distance_same. lra.
Defined.

(** X14, witness: a radius that is not a number, next to a bounding box. *)
Lemma positions_bad_radius_lists_all_witness :
  listed (fst (positions float_of_digits
                 [("lat", "1"); ("lng", "2"); ("radius", "wide");
                  ("min_lat", "1"); ("max_lat", "2");
                  ("min_lng", "1"); ("max_lng", "2")]
                 arrival_world)) = sort_by_id (all_rows arrival_world).
Proof.
  refine (proj1 (positions_bad_radius_lists_all float_of_digits
           [("lat", "1"); ("lng", "2"); ("radius", "wide");
            ("min_lat", "1"); ("max_lat", "2");
            ("min_lng", "1"); ("max_lng", "2")] arrival_world
           "1" "2" "wide" _ _ _ _ _ _ _));
    first [reflexivity | discriminate | right; right; reflexivity].
Defined.

End PositionsFacts.

(** ** The command views *)

Module CommandFacts.
Import GeoMath Store Loading Rest Examples CommandExamples.
Import GeoMathFacts DictFacts TickFacts StoreFacts StoreMore.

Lemma update_plane_target_view_other (plane_id other : Z) (new_lat new_lng : R)
    (w : world) :
  well_formed w -> other <> plane_id ->
  view (snd (update_plane_target plane_id new_lat new_lng w)) other =
  view w other.
Proof.
  intros Hwf Hne. unfold update_plane_target. cbn [emit plane_positions].
  destruct (Dict.get plane_id (plane_positions w)) as [r|] eqn:Hget;
    [|reflexivity].
  unfold view. cbn [snd emit modify set_heap plane_positions heap].
  destruct (Dict.get other (plane_positions w)) as [r'|] eqn:Hother;
    [|reflexivity].
  apply list_lookup_alter_ne. intros ->.
  destruct Hwf as (_ & Hv & _).
  apply Hne. exact (get_injective other plane_id _ _ Hv Hother Hget).
Qed.

Lemma update_plane_target_view_unknown (plane_id : Z) (new_lat new_lng : R)
    (w : world) :
  view w plane_id = None ->
  view (snd (update_plane_target plane_id new_lat new_lng w)) plane_id = None.
Proof.
  unfold update_plane_target, view. cbn [emit plane_positions].
  destruct (Dict.get plane_id (plane_positions w)) as [r|] eqn:Hget.
  - cbn [snd emit modify set_heap plane_positions heap]. rewrite Hget.
    intros Hnone. rewrite list_lookup_alter_eq, Hnone. reflexivity.
  - cbn [snd emit plane_positions]. now rewrite Hget.
Qed.

Lemma accept_pending_eq (pk : Z) (st : site) (command : Command.t) :
  Dict.get pk (commands st) = Some command ->
  Command.status command = "pending"%string ->
  accept pk st =
    (Ok200 pk (with_status "accepted" command),
     mkSite (snd (update_plane_target
                    (Command.plane command)
                    (Point.y (Command.target_location command))
                    (Point.x (Command.target_location command))
                    (store st)))
            (Dict.set pk (with_status "accepted" command) (commands st))
            (outbox st ++ [CommandUpdate "command_status_updates" pk
                             (with_status "accepted" command)])).
Proof.
  intros Hget Hstatus. unfold accept. rewrite Hget, Hstatus. reflexivity.
Qed.

(** X15: accepting a pending command answers with the accepted command,
    records the new status of that command only, sends one notification to
    the dashboard group and points the plane of the command, in memory, to
    the target of the command; no other plane changes and no row of the
    [Plane] table is written. *)
Theorem accept_pending_retargets_in_memory (pk : Z) (st : site)
    (command : Command.t) :
  well_formed (store st) ->
  Dict.get pk (commands st) = Some command ->
  Command.status command = "pending"%string ->
  let accepted := with_status "accepted" command in
  let st' := snd (accept pk st) in
  fst (accept pk st) = Ok200 pk accepted /\
  (forall other,
     Dict.get other (commands st') =
       if (other =? pk)%Z then Some accepted
       else Dict.get other (commands st)) /\
  outbox st' =
    outbox st ++ [CommandUpdate "command_status_updates" pk accepted] /\
  db (store st') = db (store st) /\
  (forall plane_id,
     view (store st') plane_id =
       if (plane_id =? Command.plane command)%Z
       then set_target (Point.y (Command.target_location command))
                       (Point.x (Command.target_location command))
              <$> view (store st) plane_id
       else view (store st) plane_id).
Proof.
  intros Hwf Hget Hstatus accepted st'. subst accepted st'.
  rewrite (accept_pending_eq pk st command Hget Hstatus).
  cbn [fst snd commands outbox store].
  repeat apply conj.
  - reflexivity.
  - intros other. destruct (Z.eqb_spec other pk) as [->|Hne].
    + apply get_set_eq.
    + now apply get_set_ne.
  - reflexivity.
  - apply update_plane_target_env.
  - intros plane_id.
    destruct (Z.eqb_spec plane_id (Command.plane command)) as [->|Hne].
    + destruct (view (store st) (Command.plane command)) as [pos|] eqn:Hview.
      * now apply update_plane_target_view.
      * now apply update_plane_target_view_unknown.
    + now apply update_plane_target_view_other.
Qed.

Lemma accept_pending_retargets_in_memory_witness :
  fst (accept 5 one_command) = Ok200 5 (with_status "accepted" divert) /\
  db (store (snd (accept 5 one_command))) = db arrival_world.
Proof.
  pose proof (accept_pending_retargets_in_memory 5 one_command divert
                arrival_world_well_formed eq_refl eq_refl) as H.
  cbv zeta in H. destruct H as (Hresponse & _ & _ & Hdb & _).
  exact (conj Hresponse Hdb).
Defined.

(** X16: a command is decided once: after [accept] or [reject] has answered
    200 for a command, both views answer 400 for it and change nothing. *)
Theorem decided_command_is_final (pk : Z) (st st' : site) (r : Z)
    (command : Command.t) :
  accept pk st = (Ok200 r command, st') \/
  reject pk st = (Ok200 r command, st') ->
  accept pk st' =
    (BadRequest400 "Only pending commands can be accepted", st') /\
  reject pk st' =
    (BadRequest400 "Only pending commands can be rejected", st').
Proof.
  intros Hdecided.
  assert (exists value,
            (value = "accepted" \/ value = "rejected")%string /\
            exists decided,
              Dict.get pk (commands st') = Some (with_status value decided))
    as (value & Hvalue & decided & Hget).
  { destruct Hdecided as [H|H]; [unfold accept in H|unfold reject in H];
      destruct (Dict.get pk (commands st)) as [c|]; try discriminate;
      destruct (negb (Command.status c =? "pending")%string); try discriminate;
      cbv zeta in H; injection H as _ _ <-; cbn [commands];
      [exists "accepted"%string|exists "rejected"%string];
      (split; [auto|]); exists c; apply get_set_eq. }
  unfold accept, reject. rewrite Hget.
  destruct Hvalue as [-> | ->]; split; reflexivity.
Qed.

Lemma decided_command_is_final_witness :
  accept 5 (snd (reject 5 one_command)) =
    (BadRequest400 "Only pending commands can be accepted",
     snd (reject 5 one_command)).
Proof.
  exact (proj1 (decided_command_is_final 5 one_command
                  (snd (reject 5 one_command)) 5
                  (with_status "rejected" divert)
                  (or_intror eq_refl))).
Defined.

(** X17: a diversion lasts until the plane reaches it. When a pending
    command is accepted for a plane that is within one step of the target of
    the command, the next tick puts the plane on that target, flips its
    direction and points it to the end of its stored route (to the start when
    it was heading to the end). *)
Theorem accepted_command_arrival (t : R) (pk : Z) (st : site)
    (command : Command.t) (pos : Position) (plane : Plane.t) :
  well_formed (store st) ->
  Dict.get pk (commands st) = Some command ->
  Command.status command = "pending"%string ->
  view (store st) (Command.plane command) = Some pos ->
  Dict.get (Command.plane command) (db (store st)) = Some plane ->
  calculate_distance (current_lat pos) (current_lng pos)
                     (Point.y (Command.target_location command))
                     (Point.x (Command.target_location command))
    <= MOVEMENT_DISTANCE (store st) ->
  let next :=
    if is_going_to_end pos then Plane.start_point plane
    else Plane.end_point plane in
  view (update_positions t (store (snd (accept pk st)))) (Command.plane command) =
    Some (mkPosition (Point.y (Command.target_location command))
                     (Point.x (Command.target_location command))
                     (Point.y next) (Point.x next)
                     (negb (is_going_to_end pos)) t).
Proof.
  intros Hwf Hget Hstatus Hview Hrow Hnear next. subst next.
  rewrite (accept_pending_eq pk st command Hget Hstatus). cbn [snd store].
  set (new_lat := Point.y (Command.target_location command)) in *.
  set (new_lng := Point.x (Command.target_location command)) in *.
  pose proof (update_plane_target_well_formed (Command.plane command)
                new_lat new_lng (store st) Hwf) as Hwf'.
  pose proof (update_plane_target_view (Command.plane command)
                new_lat new_lng (store st) pos Hview) as Hview'.
  destruct (update_plane_target_env (Command.plane command)
              new_lat new_lng (store st)) as [Hdb Hstep].
  rewrite (tick_arrived t _ (Command.plane command)
             (set_target new_lat new_lng pos) plane Hwf' Hview').
  - cbn [set_target target_lat target_lng is_going_to_end].
    destruct (is_going_to_end pos); reflexivity.
  - apply GeoMathFacts.move_towards_target_in_domain.
  - rewrite Hstep. exact Hnear.
  - rewrite Hdb. exact Hrow.
Qed.

Lemma accepted_command_arrival_witness :
  view (update_positions 3 (store (snd (accept 5 one_command)))) 1 =
    Some (mkPosition 11 21 10 20 false 3).
Proof.
  refine (accepted_command_arrival 3 5 one_command divert arrived
            (route "TK1" (Point.mk 20 10) true)
            arrival_world_well_formed eq_refl eq_refl eq_refl eq_refl _).
  cbn [arrived current_lat current_lng divert Command.target_location
       Point.x Point.y one_command store arrival_world MOVEMENT_DISTANCE].
  rewrite calculate_distance_same. lra.
Defined.

End CommandFacts.

(** ** Updating a command through the serializer *)

Module UpdateFacts.
Import GeoMath Store Loading Rest Examples CommandExamples.
Import DictFacts TickFacts StoreFacts StoreMore.

(** X18: an update of a command to [accepted] is not restricted to pending
    commands and does not go through the store: it answers 200 whatever the
    status of the command was, sends no notification and leaves every plane
    in memory as it was; it rewrites the row of the plane, whose route then
    starts at the stored position and ends at the target of the command. The
    plane keeps flying to the target it had; the rewritten route is taken up
    when the planes are loaded again, and also, without any reload, when the
    plane next arrives at its target, since [update_positions] reads the row
    then: the plane turns to the target of the command when it was flying
    back to the start, and to the stored position otherwise. *)
Theorem update_accepted_reroutes_row_only (now : Z -> R) (pk : Z) (st : site)
    (command : Command.t) (plane : Plane.t) :
  NoDup (Dict.keys (db (store st))) ->
  Dict.get pk (commands st) = Some command ->
  Dict.get (Command.plane command) (db (store st)) = Some plane ->
  let st' := snd (update pk "accepted" st) in
  let here := Plane.current_position plane in
  let next :=
    if Plane.is_going_to_end plane then Command.target_location command
    else here in
  fst (update pk "accepted" st) = Ok200 pk (with_status "accepted" command) /\
  outbox st' = outbox st /\
  (forall plane_id, view (store st') plane_id = view (store st) plane_id) /\
  Dict.get (Command.plane command) (db (store st')) =
    Some (Plane.mk (Plane.name plane) (Plane.pilot plane)
                   here (Command.target_location command)
                   here (Plane.is_going_to_end plane)) /\
  view (load_planes_from_db now (store st')) (Command.plane command) =
    Some (mkPosition (Point.y here) (Point.x here)
                     (Point.y next) (Point.x next)
                     (Plane.is_going_to_end plane)
                     (now (Command.plane command))) /\
  (forall (t : R) (pos : Position),
     well_formed (store st) ->
     view (store st) (Command.plane command) = Some pos ->
     calculate_distance (current_lat pos) (current_lng pos)
                        (target_lat pos) (target_lng pos)
       <= MOVEMENT_DISTANCE (store st) ->
     let turn :=
       if is_going_to_end pos then here
       else Command.target_location command in
     view (update_positions t (store st')) (Command.plane command) =
       Some (mkPosition (target_lat pos) (target_lng pos)
                        (Point.y turn) (Point.x turn)
                        (negb (is_going_to_end pos)) t)).
Proof.
  intros Hnd Hget Hrow st' here next. subst st' here next.
  unfold update. rewrite Hget. cbn [validate_status String.eqb Ascii.eqb
    Bool.eqb orb with_status Command.status Command.plane
    Command.target_location].
  change (("accepted" =? "accepted")%string) with true. cbv iota.
  rewrite Hrow. cbn [fst snd outbox store commands].
  repeat apply conj; try reflexivity.
  - cbn [db emit set_db]. apply get_set_eq.
  - unfold load_planes_from_db.
    change (view (emit LockRelease ?w1) ?k) with (view w1 k).
    cbn [emit db set_plane_positions set_db].
    rewrite fold_load_plane_view.
    + rewrite get_set_eq. unfold position_of_row, rerouted.
      cbn [Plane.is_going_to_end Plane.end_point Plane.start_point
           Plane.current_position].
      destruct (Plane.is_going_to_end plane); reflexivity.
    + unfold well_formed. simpl. repeat apply conj; constructor.
    + now apply NoDup_keys_set.
  - intros t pos Hwf Hview Hnear.
    rewrite (tick_arrived t _ (Command.plane command) pos
               (rerouted (Command.target_location command) plane)).
    + unfold rerouted.
      cbn [Plane.end_point Plane.start_point].
      destruct (is_going_to_end pos); reflexivity.
    + apply well_formed_emit, well_formed_set_db, Hwf.
    + exact Hview.
    + apply GeoMathFacts.move_towards_target_in_domain.
    + exact Hnear.
    + cbn [db emit set_db]. apply get_set_eq.
Qed.

Lemma update_accepted_reroutes_row_only_witness :
  fst (update 5 "accepted" rejected_command) =
    Ok200 5 (with_status "accepted" divert) /\
  view (load_planes_from_db (fun _ => 7)
          (store (snd (update 5 "accepted" rejected_command)))) 1 =
    Some (mkPosition 15 25 11 21 true 7) /\
  view (update_positions 3
          (store (snd (update 5 "accepted" rejected_command)))) 1 =
    Some (mkPosition 11 21 15 25 false 3).
Proof.
  pose proof (update_accepted_reroutes_row_only (fun _ => 7) 5
                rejected_command
                (with_status "rejected" divert)
                (route "TK1" (Point.mk 25 15) true)) as H.
  cbv zeta in H.
  destruct H as (Hresponse & _ & _ & _ & Hview & Harrive).
  - cbn. apply NoDup_singleton.
  - reflexivity.
  - reflexivity.
  - refine (conj Hresponse (conj Hview _)).
    refine (Harrive 3 arrived _ eq_refl _).
    + unfold well_formed, rejected_command, off_route_world; simpl.
      repeat split.
      * apply NoDup_singleton.
      * apply NoDup_singleton.
      * repeat constructor.
    + cbn [arrived current_lat current_lng target_lat target_lng].
      rewrite GeoMathFacts.calculate_distance_same.
      cbn. lra.
Defined.

End UpdateFacts.

(** ** The bounding box of the REST view *)

Module BoundingBoxFacts.
Import GeoMath PyFloat Store Session Rest Examples FilterFacts PositionsFacts.

Lemma le_true (a b : R) : le a b = true <-> a <= b.
Proof. unfold le. destruct (Rle_dec a b); split; auto; discriminate. Qed.

(** X19: when the parameters of the radius filter are not all given and the
    four parameters of the bounding box are present and convert to floats,
    [positions] lists a plane exactly when its latitude and its longitude
    lie within the bounds, the bounds included. *)
Theorem positions_bounding_box_filter (float_of_str : string -> option pyfloat)
    (query : list (string * string)) (w : world)
    (sa sb sc sd : string) (a b c d : R) (row : Row) :
  truthy_param (lookup_key "lat" query) && truthy_param (lookup_key "lng" query)
    && truthy_param (lookup_key "radius" query) = false ->
  lookup_key "min_lat" query = Some sa -> sa <> ""%string ->
  lookup_key "max_lat" query = Some sb -> sb <> ""%string ->
  lookup_key "min_lng" query = Some sc -> sc <> ""%string ->
  lookup_key "max_lng" query = Some sd -> sd <> ""%string ->
  float_of_str sa = Some a -> float_of_str sb = Some b ->
  float_of_str sc = Some c -> float_of_str sd = Some d ->
  (In row (listed (fst (positions float_of_str query w))) <->
   In row (all_rows w) /\
   a <= row_lat row <= b /\ c <= row_lng row <= d).
Proof.
  intros Hradius Hla Hsa Hlb Hsb Hlc Hsc Hld Hsd Ha Hb Hc Hd.
  assert (forall plane_lat plane_lng,
            snd (positions_filter float_of_str query None plane_lat plane_lng) =
            negb (le a plane_lat && le plane_lat b &&
                  le c plane_lng && le plane_lng d)) as Hskip.
  { intros plane_lat plane_lng. unfold positions_filter. cbv zeta.
    rewrite Hradius, Hla, Hlb, Hlc, Hld. unfold truthy_param, float_param.
    apply String.eqb_neq in Hsa, Hsb, Hsc, Hsd.
    rewrite Hsa, Hsb, Hsc, Hsd, Ha, Hb, Hc, Hd. reflexivity. }
  assert (forall plane_lat plane_lng,
            negb (snd (positions_filter float_of_str query None
                         plane_lat plane_lng)) = true <->
            a <= plane_lat <= b /\ c <= plane_lng <= d) as Hkeep.
  { intros plane_lat plane_lng. rewrite Hskip, Bool.negb_involutive.
    rewrite !Bool.andb_true_iff, !le_true. tauto. }
  rewrite listed_positions, In_sort_by_id, in_map_iff, In_all_rows.
  split.
  - intros ([plane_id pos] & <- & Hin). apply filter_In in Hin as [Hin Hk].
    cbn [fst snd] in *. apply Hkeep in Hk.
    split; [now exists plane_id, pos|exact Hk].
  - intros [(plane_id & pos & Hin & ->) Hbox].
    exists (plane_id, pos). split; [reflexivity|].
    apply filter_In. split; [exact Hin|]. cbn [fst snd].
    apply Hkeep. exact Hbox.
Qed.

Lemma positions_bounding_box_filter_witness :
  In (mkRow 1 "TK1" "Pilot Yok" 21 11 0)
     (listed (fst (positions float_of_digits
                     [("min_lat", "0"); ("max_lat", "11");
                      ("min_lng", "0"); ("max_lng", "21")]
                     arrival_world))) <->
  In (mkRow 1 "TK1" "Pilot Yok" 21 11 0) (all_rows arrival_world) /\
  0 <= 11 <= 11 /\ 0 <= 21 <= 21.
Proof.
  apply (positions_bounding_box_filter float_of_digits
           [("min_lat", "0"); ("max_lat", "11");
            ("min_lng", "0"); ("max_lng", "21")] arrival_world
           "0" "11" "0" "21" 0 11 0 21 (mkRow 1 "TK1" "Pilot Yok" 21 11 0));
    first [reflexivity | discriminate].
Defined.

End BoundingBoxFacts.

(** ** The filter state of a connection *)

Module SessionMore.
Import GeoMath PyFloat Store Session Examples FilterFacts.

Lemma assign_radius_fields (a b c : conversion) (s : Consumer) :
  let '(s', how) := assign_radius a b c s in
  min_lat s' = min_lat s /\ max_lat s' = max_lat s /\
  min_lng s' = min_lng s /\ max_lng s' = max_lng s /\
  is_sending s' = is_sending s /\
  (how <> Completed -> radius s' = radius s).
Proof.
  unfold assign_radius, assign, finish.
  destruct a, b, c; cbn; repeat apply conj; try reflexivity;
    intros H; now contradict H.
Qed.

Lemma assign_bounding_box_fields (a b c d : conversion) (s : Consumer) :
  let '(s', how) := assign_bounding_box a b c d s in
  lat s' = lat s /\ lng s' = lng s /\ radius s' = radius s /\
  is_sending s' = is_sending s /\
  (how <> Completed -> max_lng s' = max_lng s).
Proof.
  unfold assign_bounding_box, assign, finish.
  destruct a, b, c, d; cbn; repeat apply conj; try reflexivity;
    intros H; now contradict H.
Qed.

(** X20: a message never leaves both filters in force. When the session
    does not hold a radius together with a [max_lng] (as after [__init__], a
    clear or an accepted update), then after [receive], whatever the message
    and whether or not it was accepted, it still does not, so that at most
    one of the two filter tests of [get_filtered_positions] succeeds. *)
Theorem receive_keeps_one_filter (float_of_str : string -> option pyfloat)
    (decoded : option json) (s : Consumer) :
  radius s = None \/ max_lng s = None ->
  let s' := session (receive float_of_str decoded s) in
  (radius s' = None \/ max_lng s' = None) /\
  radius_test s' && bounding_box_test s' = false.
Proof.
  intros Hone s'.
  assert (radius s' = None \/ max_lng s' = None) as Hone'.
  { subst s'. unfold receive.
    destruct decoded as [[| | | | | |data]|]; cbn [session]; try exact Hone.
    destruct (lookup_key "type" data) as [[| | | |message_type| |]|];
      cbn [session]; try exact Hone.
    destruct (String.eqb message_type "update_filters").
    - destruct (has_key "lat" data && has_key "lng" data && has_key "radius" data).
      + pose proof (assign_radius_fields (float_key float_of_str "lat" data)
                      (float_key float_of_str "lng" data)
                      (float_key float_of_str "radius" data) s) as H.
        destruct (assign_radius _ _ _ s) as [s1 [| |e]]; cbn [session].
        * right. reflexivity.
        * destruct H as (_ & _ & _ & Hmax & _ & Hradius).
          rewrite Hmax, Hradius by discriminate. exact Hone.
        * destruct H as (_ & _ & _ & Hmax & _ & Hradius).
          rewrite Hmax, Hradius by discriminate. exact Hone.
      + destruct (has_key "min_lat" data && has_key "max_lat" data &&
                  has_key "min_lng" data && has_key "max_lng" data);
          [|exact Hone].
        pose proof (assign_bounding_box_fields
                      (float_key float_of_str "min_lat" data)
                      (float_key float_of_str "max_lat" data)
                      (float_key float_of_str "min_lng" data)
                      (float_key float_of_str "max_lng" data) s) as H.
        destruct (assign_bounding_box _ _ _ _ s) as [s1 [| |e]]; cbn [session].
        * left. reflexivity.
        * destruct H as (_ & _ & Hradius & _ & Hmax).
          rewrite Hradius, Hmax by discriminate. exact Hone.
        * destruct H as (_ & _ & Hradius & _ & Hmax).
          rewrite Hradius, Hmax by discriminate. exact Hone.
    - destruct (String.eqb message_type "clear_filters"); cbn [session];
        [left; reflexivity|exact Hone]. }
  split; [exact Hone'|].
  unfold radius_test, bounding_box_test.
  destruct Hone' as [H|H]; rewrite H; cbn [truthy];
    rewrite ?Bool.andb_false_r; reflexivity.
Qed.

Lemma receive_keeps_one_filter_witness :
  radius_test (session (receive float_of_digits (Some bad_radius_update)
                          radius_session)) &&
  bounding_box_test (session (receive float_of_digits (Some bad_radius_update)
                                radius_session)) = false.
Proof.
  exact (proj2 (receive_keeps_one_filter float_of_digits
                  (Some bad_radius_update) radius_session
                  (or_intror eq_refl))).
Defined.

Lemma float_param_cases (float_of_str : string -> option pyfloat) (k : string)
    (params : list (string * string)) :
  float_param float_of_str k params = Refused \/
  exists x, float_param float_of_str k params = Float x.
Proof.
  unfold float_param, of_option.
  destruct (lookup_key k params) as [v|]; [|now left].
  destruct (float_of_str v) as [x|]; [right; now exists x|now left].
Qed.

(** X21: [connect] stores a filter whole or not at all. On a fresh session
    the three fields of the radius filter are afterwards all set or all
    unset, and so are the four fields of the bounding box: a parameter that
    does not convert resets the fields of its filter. *)
Theorem connect_all_or_nothing (float_of_str : string -> option pyfloat)
    (query_string : string) :
  let s' := session (connect float_of_str query_string new) in
  (radius_unset s' \/
   exists a b c, lat s' = Some a /\ lng s' = Some b /\ radius s' = Some c) /\
  (bounding_box_unset s' \/
   exists a b c d,
     min_lat s' = Some a /\ max_lat s' = Some b /\
     min_lng s' = Some c /\ max_lng s' = Some d).
Proof.
  cbv zeta. unfold connect.
  destruct (parse_query query_string) as [params|]; cbn [session].
  2:{ split; left; repeat split. }
  destruct (has_key "lat" params && has_key "lng" params && has_key "radius" params);
    destruct (has_key "min_lat" params && has_key "max_lat" params &&
              has_key "min_lng" params && has_key "max_lng" params);
    unfold assign_radius, assign_bounding_box, assign, finish;
    destruct (float_param_cases float_of_str "lat" params) as [H0|[? H0]];
    rewrite ?H0;
    destruct (float_param_cases float_of_str "lng" params) as [H1|[? H1]];
    rewrite ?H1;
    destruct (float_param_cases float_of_str "radius" params) as [H2|[? H2]];
    rewrite ?H2;
    destruct (float_param_cases float_of_str "min_lat" params) as [H3|[? H3]];
    rewrite ?H3;
    destruct (float_param_cases float_of_str "max_lat" params) as [H4|[? H4]];
    rewrite ?H4;
    destruct (float_param_cases float_of_str "min_lng" params) as [H5|[? H5]];
    rewrite ?H5;
    destruct (float_param_cases float_of_str "max_lng" params) as [H6|[? H6]];
    rewrite ?H6;
    cbn;
    (split;
     [first [left; repeat split; reflexivity
            |right; eexists _, _, _; repeat split; reflexivity]
     |first [left; repeat split; reflexivity
            |right; eexists _, _, _, _; repeat split; reflexivity]]).
Qed.

End SessionMore.

(** ** The query string of a connection *)

Module QueryFacts.
Import GeoMath PyFloat Store Session Text Examples FilterFacts PositionsFacts.

Lemma length_split (sep : ascii) (s : string) :
  length (split sep s) = S (occurrences sep s).
Proof.
  induction s as [|c rest IH]; cbn [split occurrences]; [reflexivity|].
  destruct (Ascii.eqb c sep).
  - cbn [length]. now rewrite IH.
  - destruct (split sep rest) as [|first others]; [discriminate IH|exact IH].
Qed.

Lemma contains_occurrences (sep : ascii) (s : string) :
  contains sep s = true <-> (1 <= occurrences sep s)%nat.
Proof.
  induction s as [|c rest IH]; cbn [contains occurrences].
  - split; [discriminate|lia].
  - destruct (Ascii.eqb c sep); cbn [orb]; [split; [lia|reflexivity]|exact IH].
Qed.

Lemma dict_of_pairs_None (pairs : list (list string)) :
  dict_of_pairs pairs = None <->
  exists pair, In pair pairs /\ length pair <> 2%nat.
Proof.
  induction pairs as [|pair rest IH]; cbn [dict_of_pairs].
  - split; [discriminate|intros (pair & [] & _)].
  - destruct pair as [|k [|v [|extra more]]];
      try (split; [intros _; eexists; split; [left; reflexivity|discriminate]
                  |reflexivity]).
    destruct (dict_of_pairs rest) as [d|].
    + split; [discriminate|].
      intros (pair & [<-|Hin] & Hlen); [now contradict Hlen|].
      assert (Some d = None) as Hnone by (apply IH; now exists pair).
      discriminate Hnone.
    + split; [|reflexivity]. intros _.
      destruct (proj1 IH eq_refl) as (pair & Hin & Hlen).
      exists pair. split; [now right|exact Hlen].
Qed.

Lemma parse_query_None (query_string : string) :
  parse_query query_string = None <->
  exists param,
    In param (split "&"%char query_string) /\
    (2 <= occurrences "="%char param)%nat.
Proof.
  unfold parse_query. rewrite dict_of_pairs_None. split.
  - intros (pair & Hin & Hlen). apply in_map_iff in Hin as (param & <- & Hin).
    apply list_elem_of_In, list_elem_of_filter in Hin as [Hhas Hin].
    apply list_elem_of_In in Hin.
    exists param. split; [exact Hin|].
    apply contains_occurrences in Hhas. rewrite length_split in Hlen. lia.
  - intros (param & Hin & Htwo). exists (split "="%char param). split.
    + apply in_map_iff. exists param. split; [reflexivity|].
      apply list_elem_of_In, list_elem_of_filter. split.
      * apply contains_occurrences. lia.
      * now apply list_elem_of_In.
    + rewrite length_split. lia.
Qed.

(** X22: [connect] raises [ValueError] exactly when one of the parts of the
    query string between [&] holds more than one [=]; it has then sent
    nothing and stored nothing. For every other query string it sends the
    one message [connection_established] and starts sending. *)
Theorem connect_raises_on_double_equals (float_of_str : string -> option pyfloat)
    (query_string : string) (s : Consumer) :
  let out := connect float_of_str query_string s in
  ((exists param,
      In param (split "&"%char query_string) /\
      (2 <= occurrences "="%char param)%nat) ->
   out = mkOutcome s [] (Some ValueError)) /\
  (~ (exists param,
        In param (split "&"%char query_string) /\
        (2 <= occurrences "="%char param)%nat) ->
   raised out = None /\ is_sending (session out) = true /\
   exists filters, sent out = [ConnectionEstablished filters]).
Proof.
  cbv zeta. split.
  - intros Hbad. apply parse_query_None in Hbad.
    unfold connect. now rewrite Hbad.
  - intros Hgood. rewrite <- parse_query_None in Hgood.
    unfold connect. destruct (parse_query query_string) as [params|];
      [|now contradict Hgood].
    cbn [raised session sent is_sending set_is_sending].
    repeat split. eexists. reflexivity.
Qed.

Lemma connect_raises_on_double_equals_witness :
  connect float_of_digits "lat=1=2&lng=3" new =
    mkOutcome new [] (Some ValueError).
Proof.
  apply (proj1 (connect_raises_on_double_equals float_of_digits
                  "lat=1=2&lng=3" new)).
  exists "lat=1=2"%string. split.
  - left. reflexivity.
  - vm_compute. lia.
Defined.

(** X23: an accepted update decides the next snapshot. After [receive] has
    taken an [update_filters] message whose [lat], [lng] and [radius]
    convert to numbers other than zero (none is NaN and none makes [float]
    raise), whatever filter the session held before,
    [get_filtered_positions] holds exactly the planes whose haversine
    distance to the new centre is at most the new radius in kilometers
    times 1000. *)
Theorem update_filters_then_snapshot (float_of_str : string -> option pyfloat)
    (data : list (string * json)) (s : Consumer) (w : world)
    (a b c : R) (row : Row) :
  lookup_key "type" data = Some (JStr "update_filters") ->
  float_key float_of_str "lat" data = Float a ->
  float_key float_of_str "lng" data = Float b ->
  float_key float_of_str "radius" data = Float c ->
  a <> 0 -> b <> 0 -> c <> 0 ->
  let s' := session (receive float_of_str (Some (JDict data)) s) in
  (In row (planes (fst (get_filtered_positions s' w))) <->
   In row (all_rows w) /\
   calculate_distance (row_lat row) (row_lng row) a b <= c * 1000).
Proof.
  intros Htype Ha Hb Hc Ha0 Hb0 Hc0 s'.
  assert (lat s' = Some a /\ lng s' = Some b /\ radius s' = Some c)
    as (Hlat & Hlng & Hradius).
  { subst s'. unfold receive. rewrite Htype. cbn [String.eqb].
    change (("update_filters" =? "update_filters")%string) with true.
    cbv iota.
    assert (has_key "lat" data && has_key "lng" data && has_key "radius" data
            = true) as ->.
    { unfold has_key, float_key in *.
      destruct (lookup_key "lat" data); [|discriminate].
      destruct (lookup_key "lng" data); [|discriminate].
      destruct (lookup_key "radius" data); [reflexivity|discriminate]. }
    rewrite Ha, Hb, Hc. cbn. repeat split. }
  assert (forall plane_lat plane_lng,
            skip_plane s' plane_lat plane_lng =
            gt (calculate_distance plane_lat plane_lng a b) (c * 1000)) as Hskip.
  { intros plane_lat plane_lng. unfold skip_plane, radius_test.
    rewrite Hlat, Hlng, Hradius.
    rewrite (proj2 (truthy_Some a) Ha0), (proj2 (truthy_Some b) Hb0),
            (proj2 (truthy_Some c) Hc0).
    reflexivity. }
  rewrite planes_get_filtered_positions, In_all_rows. split.
  - intros (plane_id & pos & Hin & Hkeep & ->).
    rewrite Hskip in Hkeep. apply gt_false in Hkeep.
    split; [now exists plane_id, pos|exact Hkeep].
  - intros [(plane_id & pos & Hin & ->) Hnear].
    exists plane_id, pos. repeat split; [exact Hin|].
    rewrite Hskip. now apply gt_false.
Qed.

(** X23, witness: the session that filtered around (1, 1) is sent a filter
    of 5 km around (11, 21), where plane 1 of [arrival_world] stands; the
    next snapshot holds that plane. *)
Lemma update_filters_then_snapshot_witness :
  let update :=
    [("type", JStr "update_filters"); ("lat", JNum 11); ("lng", JNum 21);
     ("radius", JNum 5)] in
  let s' := session (receive float_of_digits (Some (JDict update))
                       radius_session) in
  In (mkRow 1 "TK1" "Pilot Yok" 21 11 0)
     (planes (fst (get_filtered_positions s' arrival_world))).
Proof.
  cbv zeta.
  apply (update_filters_then_snapshot float_of_digits
           [("type", JStr "update_filters"); ("lat", JNum 11); ("lng", JNum 21);
            ("radius", JNum 5)] radius_session arrival_world 11 21 5
           (mkRow 1 "TK1" "Pilot Yok" 21 11 0));
    try reflexivity; try lra.
  split.
  - rewrite all_rows_arrival_world. now left.
  - cbn [row_lat row_lng]. rewrite GeoMathFacts.calculate_distance_same. lra.
Defined.



End QueryFacts.

(** ** The seeding of the routes *)

Module SeedFacts.
Import GeoMath Seed GeoMathFacts GeoMathMore.

Lemma calculate_destination_latitude (lat lng distance_km bearing : R) :
  -90 <= fst (calculate_destination lat lng distance_km bearing) <= 90.
Proof.
  unfold calculate_destination. cbv zeta. cbn [fst].
  match goal with |- context [asin ?x] =>
    pose proof (asin_bound x) as [Hlo Hhi]; set (phi := asin x) in *
  end.
  assert (- PI <= 2 * phi <= PI) as Hphi by lra.
  pose proof (degrees_bound (2 * phi) Hphi) as Hdeg.
  unfold degrees in *. pose proof PI_RGT_0.
  replace (2 * phi * 180 / PI) with (2 * (phi * 180 / PI)) in Hdeg
    by (field; lra).
  lra.
Qed.

Lemma calculate_destination_longitude (lat lng distance_km bearing : R) :
  -180 <= snd (calculate_destination lat lng distance_km bearing) <= 180.
Proof.
  unfold calculate_destination. cbv zeta. cbn [snd].
  match goal with |- context [pymod ?a 360] =>
    pose proof (pymod_range a 360 ltac:(lra))
  end. lra.
Qed.

(** X24: [calculate_destination] returns a valid position for every origin,
    distance and bearing: a latitude in [-90, 90] and, by its
    normalisation, a longitude in [-180, 180]. *)
Theorem calculate_destination_normalizes (lat lng distance_km bearing : R) :
  -90 <= fst (calculate_destination lat lng distance_km bearing) <= 90 /\
  -180 <= snd (calculate_destination lat lng distance_km bearing) <= 180.
Proof.
  split.
  - apply calculate_destination_latitude.
  - apply calculate_destination_longitude.
Qed.

(** C6: [move_distance_with_bearing] does not normalise the longitude it
    returns: 600 meters due east of the point (0, 180) it returns a longitude
    above 180, where [calculate_destination], which computes the same
    projection, brings the longitude back into [-180, 180]. *)
Theorem move_distance_with_bearing_is_not_normalized :
  180 < snd (move_distance_with_bearing 0 180 600 90) /\
  -180 <= snd (calculate_destination 0 180 (600 / 1000) 90) <= 180.
Proof.
  split.
  - apply east_of_the_antimeridian.
  - apply calculate_destination_longitude.
Qed.

End SeedFacts.

(** ** Planes that stay in the table *)

Module TickMore.
Import GeoMath Store Examples DictFacts TickFacts.

Lemma update_plane_with_row (t : R) (w : world) (plane_id : Z) (r : ref) :
  Dict.get plane_id (db w) <> None ->
  plane_positions (update_plane t w (plane_id, r)) = plane_positions w.
Proof.
  intros Hrow. unfold update_plane.
  destruct (heap w !! r) as [pos|]; [|reflexivity].
  destruct (move_towards_target_raises _ _ _ _ _); [reflexivity|].
  destruct (move_towards_target _ _ _ _ _) as [[new_lat new_lng] [|]];
    [|reflexivity].
  cbn [db modify set_heap].
  destruct (Dict.get plane_id (db w)) as [plane|]; [|contradiction].
  destruct (negb (is_going_to_end pos)); reflexivity.
Qed.

(** X27: a tick never drops a plane whose row is still in the [Plane]
    table, and never gives it another dictionary: its entry in the table is
    the same after [update_positions], whether or not it arrived. *)
Theorem update_positions_keeps_planes_with_rows (t : R) (w : world)
    (plane_id : Z) (r : ref) :
  Dict.get plane_id (plane_positions w) = Some r ->
  Dict.get plane_id (db w) <> None ->
  Dict.get plane_id (plane_positions (update_positions t w)) = Some r.
Proof.
  intros Hentry Hrow. unfold update_positions.
  destruct (plane_positions w) as [|item items] eqn:Htable;
    [rewrite Htable; exact Hentry|].
  rewrite <- Htable in *. clear Htable item items.
  cbn [emit plane_positions].
  assert (forall l w0,
            db w0 = db w ->
            Dict.get plane_id (plane_positions w0) = Some r ->
            Dict.get plane_id (plane_positions (fold_left (update_plane t) l w0))
              = Some r) as Hfold.
  { induction l as [|[k r'] l IH]; intros w0 Hdb H0; cbn [fold_left];
      [exact H0|].
    apply IH.
    - destruct (update_plane_env t w0 (k, r')) as (E & _). congruence.
    - destruct (Z.eq_dec k plane_id) as [->|Hne].
      + rewrite update_plane_with_row; [exact H0|]. now rewrite Hdb.
      + rewrite update_plane_other_key by congruence. exact H0. }
  now apply Hfold.
Qed.

Lemma update_positions_keeps_planes_with_rows_witness :
  Dict.get 1 (plane_positions (update_positions 5 arrival_world)) = Some 0%nat.
Proof.
  apply (update_positions_keeps_planes_with_rows 5 arrival_world 1 0%nat).
  - reflexivity.
  - discriminate.
Defined.

End TickMore.
